(** * The sharing correction of the Forward Multiplicity Detector

    A shallow embedding of [AliFMDSharingFilter] (the filter that merges the
    signals of adjacent strips) together with the properties of its merging
    pass, of its angle corrections and of its dead-strip bookkeeping.

    Conventions of the embedding.

    - [Float_t] and [Double_t] values are real numbers: arithmetic is exact,
      there is no rounding, no infinity and no NaN.  [TMath::Cos],
      [TMath::ATan], [TMath::Exp], [TMath::Abs] and [TMath::Pi] are the
      functions [cos], [atan], [exp], [Rabs] and the constant [PI] of the
      real numbers.  A comparison of the source is a boolean ([Rltb],
      [Reqb]) decided on the reals.
    - [UShort_t] detector, sector and strip numbers are of type [N].  The
      merging pass only forms [t + 1], [t + 2] and [t - 1] for strips below
      512, so no 16-bit wrap-around can occur there.  [Int_t] counters are
      of type [Z]; they count at most 51200 strips.
    - [Char_t] ring names are of type [ascii].
    - The ESD object [AliESDFMD], the bit field [TBits], the cut objects
      [AliFMDMultCuts] and the helpers [AliFMDStripIndex::Pack] and
      [AliForwardUtil::GetEtaFromStrip] are not part of the file at hand.
      The ESD object is a record of two maps, with one multiplicity per
      detector, ring, sector and strip.  How the object stores the
      pseudo-rapidity is left open: its member [fEtaSector] names, for
      every sector, the slot of the map that holds the pseudo-rapidity of
      that sector, so that a map with a slot per sector and a map with
      one value per detector, ring and strip are both covered.  The bit
      field is the finite set of its set bits; a cut object is its
      [GetMultCut] function; the two helpers and the two ESD constants
      [kInvalidMult] and [kInvalidEta] are variables of the sections
      below.
    - The input and the output of [Filter] are two objects: the output is
      a value that the pass threads through its loops.
    - The filter holds the list [fRingHistos] of its ring containers.  A
      container stands for its histograms, which its constructor
      allocates; the fills of the histograms are left out, since they
      never feed back into the merging or into the output object, but
      the pointer that [GetRingHistos] returns is kept: [Filter]
      dereferences it in every strip, and a run that dereferences a null
      pointer has no result ([None]).  The cluster counters [nSingle],
      [nDouble] and [nTriple] are kept. *)

From Stdlib Require Import Reals Lra Lia ZArith NArith Ascii List Bool.
From stdpp Require Import base gmap sets.
Import ListNotations.

Open Scope R_scope.

(** ** Comparisons of floating-point values *)

Definition Rltb (x y : R) : bool := if Rlt_dec x y then true else false.
Definition Reqb (x y : R) : bool := if Req_dec_T x y then true else false.

(** ** The ESD object *)

Record AliESDFMD := mkESD {
  fMultiplicity : N -> ascii -> N -> N -> R;
  fEta : N -> ascii -> N -> N -> R;
  fAngleCorrected : bool;
  fEtaSector : N -> N
}.

Definition sameStrip (d : N) (r : ascii) (s t : N)
                     (d' : N) (r' : ascii) (s' t' : N) : bool :=
  (d =? d')%N && Ascii.eqb r r' && (s =? s')%N && (t =? t')%N.

Definition Multiplicity (o : AliESDFMD) (d : N) (r : ascii) (s t : N) : R :=
  fMultiplicity o d r s t.

(** The pseudo-rapidity of sector [s] is held in the slot [fEtaSector o s]
    of the map [fEta]. *)
Definition Eta (o : AliESDFMD) (d : N) (r : ascii) (s t : N) : R :=
  fEta o d r (fEtaSector o s) t.

Definition IsAngleCorrected (o : AliESDFMD) : bool := fAngleCorrected o.

Definition SetMultiplicity (o : AliESDFMD) (d : N) (r : ascii) (s t : N)
                           (mult : R) : AliESDFMD :=
  mkESD (fun d' r' s' t' =>
           if sameStrip d r s t d' r' s' t' then mult
           else fMultiplicity o d' r' s' t')
        (fEta o) (fAngleCorrected o) (fEtaSector o).

Definition SetEta (o : AliESDFMD) (d : N) (r : ascii) (s t : N)
                  (eta : R) : AliESDFMD :=
  mkESD (fMultiplicity o)
        (fun d' r' k' t' =>
           if sameStrip d r (fEtaSector o s) t d' r' k' t' then eta
           else fEta o d' r' k' t')
        (fAngleCorrected o) (fEtaSector o).

(** ** The bit field of extra dead strips *)

Definition SetBitNumber (b : gset N) (bitnumber : N) (value : bool) : gset N :=
  if value then {[ bitnumber ]} ∪ b else b ∖ {[ bitnumber ]}.

Definition TestBitNumber (b : gset N) (bitnumber : N) : bool :=
  bool_decide (bitnumber ∈ b).

(** ** The ring containers

    The container of the histograms of a ring: its detector and its ring
    name.  The named constructor of the filter adds five containers to the
    list [fRingHistos], the default constructor none. *)
Record RingHistos := mkRingHistos {
  fDet : N;
  fRing : ascii
}.

Definition namedRingHistos : list RingHistos :=
  [mkRingHistos 1 "I"; mkRingHistos 2 "I"; mkRingHistos 2 "O";
   mkRingHistos 3 "I"; mkRingHistos 3 "O"].

(** [GetRingHistos]: [None] stands for the null pointer. *)
Definition GetRingHistos (fRingHistos : list RingHistos) (d : N) (r : ascii)
  : option RingHistos :=
  let inner := Ascii.eqb r "I" || Ascii.eqb r "i" in
  let idx : Z :=
    if (d =? 1)%N then 0%Z
    else if (d =? 2)%N then (1 + (if inner then 0 else 1))%Z
    else if (d =? 3)%N then (3 + (if inner then 0 else 1))%Z
    else (-1)%Z in
  if (idx <? 0)%Z || (Z.of_nat (length fRingHistos) <=? idx)%Z then None
  else nth_error fRingHistos (Z.to_nat idx).

(** ** The filter object *)

Record AliFMDSharingFilter := mkFilter {
  fRingHistos : list RingHistos;
  fCorrectAngles : bool;
  fLCuts : N -> ascii -> R -> bool -> R;
  fHCuts : N -> ascii -> R -> bool -> R;
  fThreeStripSharing : bool;
  fRecalculateEta : bool;
  fXtraDead : gset N;
  fInvalidIsEmpty : bool
}.

Definition GetLowCut (f : AliFMDSharingFilter) (d : N) (r : ascii)
                     (eta : R) : R :=
  fLCuts f d r eta false.

Definition GetHighCut (f : AliFMDSharingFilter) (d : N) (r : ascii)
                      (eta : R) (errors : bool) : R :=
  fHCuts f d r eta errors.

(** The warnings of [AddDead], one per rejected address. *)
Inductive Warning :=
| InvalidDetector (d : N)
| InvalidRing (d : N) (r : ascii)
| InvalidSector (d : N) (r : ascii) (s : N)
| InvalidStrip (d : N) (r : ascii) (s t : N).

Definition isInner (r : ascii) : bool :=
  Ascii.eqb r "I" || Ascii.eqb r "i".

(** ** Angle corrections *)

Definition ETA2COS (eta : R) : R :=
  cos (2 * atan (exp (- Rabs eta))).

(** The angle [theta] that [AngleCorrect] and [DeAngleCorrect] derive
    from the pseudo-rapidity. *)
Definition incidenceAngle (eta : R) : R :=
  let theta := 2 * atan (exp (- eta)) in
  if Rltb eta 0 then theta - PI else theta.

Definition AngleCorrect (mult eta : R) : R :=
  mult * cos (incidenceAngle eta).

Definition DeAngleCorrect (mult eta : R) : R :=
  mult / cos (incidenceAngle eta).

(** ** State of the strip loop *)

Record Merging := mkMerging {
  used : bool;
  eTotal : R;
  twoLow : bool
}.

Record Counts := mkCounts {
  nSingle : Z;
  nDouble : Z;
  nTriple : Z
}.

Record Loop := mkLoop {
  merging : Merging;
  counts : Counts;
  output : AliESDFMD
}.

(** The values of [mult], [multNext], [multNextNext] and [eta] when the
    body of the strip loop reaches its test for a dead strip. *)
Record Signals := mkSignals {
  sigMult : R;
  sigNext : R;
  sigNextNext : R;
  sigEta : R
}.

(** The strips [0 .. n-1] of a [for] loop. *)
Definition upTo (n : N) : list N := map N.of_nat (seq 0 (N.to_nat n)).

Section Sharing.

Variable kInvalidMult : R.
Variable kInvalidEta : R.
Variable Pack : N -> ascii -> N -> N -> N.
Variable GetEtaFromStrip : N -> ascii -> N -> N -> R -> R.

(** [AliESDFMD::Clear]: every multiplicity and every pseudo-rapidity
    becomes invalid. *)
Definition Clear (o : AliESDFMD) : AliESDFMD :=
  mkESD (fun _ _ _ _ => kInvalidMult) (fun _ _ _ _ => kInvalidEta)
        (fAngleCorrected o) (fEtaSector o).

(** *** Dead strips *)

Definition AddDead (f : AliFMDSharingFilter) (d : N) (r : ascii) (s t : N)
  : AliFMDSharingFilter * option Warning :=
  if (d <? 1)%N || (3 <? d)%N then (f, Some (InvalidDetector d))
  else
    let inner := isInner r in
    if (d =? 1)%N && negb inner then (f, Some (InvalidRing d r))
    else if (inner && (20 <=? s)%N) || (negb inner && (40 <=? s)%N)
    then (f, Some (InvalidSector d r s))
    else if (inner && (512 <=? t)%N) || (negb inner && (256 <=? t)%N)
    then (f, Some (InvalidStrip d r s t))
    else
      let id := Pack d r s t in
      (mkFilter (fRingHistos f) (fCorrectAngles f) (fLCuts f) (fHCuts f)
                (fThreeStripSharing f) (fRecalculateEta f)
                (SetBitNumber (fXtraDead f) id true)
                (fInvalidIsEmpty f),
       None).

Definition IsDead (f : AliFMDSharingFilter) (d : N) (r : ascii) (s t : N)
  : bool :=
  let id := Pack d r s t in
  TestBitNumber (fXtraDead f) id.

Section Event.

Variable f : AliFMDSharingFilter.
Variable input : AliESDFMD.
Variable zvtx : R.

(** *** Reading a strip *)

Definition SignalInStrip (d : N) (r : ascii) (s t : N) : R :=
  let mult := Multiplicity input d r s t in
  if Reqb mult kInvalidMult
     || Reqb mult 0
     || (fCorrectAngles f && IsAngleCorrected input)
     || (negb (fCorrectAngles f) && negb (IsAngleCorrected input))
  then mult
  else if fCorrectAngles f
       then AngleCorrect mult (Eta input d r s t)
       else DeAngleCorrect mult (Eta input d r s t).

(** The signals of the strip and of its two successors as the body of the
    strip loop holds them after its correction for a recalculated
    pseudo-rapidity: a successor that is invalid or beyond the ring counts
    as 0, and so does the second successor without three-strip merging. *)
Definition readSignals (d : N) (r : ascii) (s nstr t : N) : Signals :=
  let mult := SignalInStrip d r s t in
  let multNext :=
    if (t <? nstr - 1)%N then SignalInStrip d r s (t + 1) else 0 in
  let multNextNext :=
    if (t <? nstr - 2)%N then SignalInStrip d r s (t + 2) else 0 in
  let multNext := if Reqb multNext kInvalidMult then 0 else multNext in
  let multNextNext :=
    if Reqb multNextNext kInvalidMult then 0 else multNextNext in
  let multNextNext :=
    if negb (fThreeStripSharing f) then 0 else multNextNext in
  let eta := Eta input d r s t in
  let sg :=
    if fRecalculateEta f then
      let etaOld := eta in
      let etaCalc := GetEtaFromStrip d r s t zvtx in
      if Rltb 0 mult && negb (Reqb mult kInvalidMult) then
        let corr := ETA2COS etaCalc / ETA2COS etaOld in
        mkSignals (mult * corr) (multNext * corr) (multNextNext * corr)
                  etaCalc
      else mkSignals mult multNext multNextNext etaCalc
    else mkSignals mult multNext multNextNext eta in
  let mult :=
    if Reqb (sigMult sg) kInvalidMult && fInvalidIsEmpty f then 0
    else sigMult sg in
  mkSignals mult (sigNext sg) (sigNextNext sg) (sigEta sg).

(** *** The merging decision for a strip with a signal *)

Definition thisValid (d : N) (r : ascii) (sg : Signals) : bool :=
  Rltb (GetLowCut f d r (sigEta sg)) (sigMult sg).
Definition nextValid (d : N) (r : ascii) (sg : Signals) : bool :=
  Rltb (GetLowCut f d r (sigEta sg)) (sigNext sg).
Definition thisSmall (d : N) (r : ascii) (sg : Signals) : bool :=
  Rltb (sigMult sg) (GetHighCut f d r (sigEta sg) false).
Definition nextSmall (d : N) (r : ascii) (sg : Signals) : bool :=
  Rltb (sigNext sg) (GetHighCut f d r (sigEta sg) false).

(** The result is the new state, the new counters and the value of
    [etot] that reaches the end of the body; [None] stands for the
    [continue] of a strip that the previous strip has used. *)
Definition mergeStrip (d : N) (r : ascii) (sg : Signals)
                      (m : Merging) (c : Counts)
  : Merging * Counts * option R :=
  let mult := sigMult sg in
  let multNext := sigNext sg in
  let multNextNext := sigNextNext sg in
  let eta := sigEta sg in
  if Rltb 0 (eTotal m) then
    if fThreeStripSharing f && nextValid d r sg
       && (nextSmall d r sg || twoLow m)
    then
      let eTotal' := eTotal m + multNext in
      (mkMerging true (-1) false,
       mkCounts (nSingle c) (nDouble c) (nTriple c + 1),
       Some eTotal')
    else
      (mkMerging false (-1) (twoLow m),
       mkCounts (nSingle c) (nDouble c + 1) (nTriple c),
       Some (eTotal m))
  else if used m then
    (mkMerging false (eTotal m) (twoLow m), c, None)
  else
    let etot := if thisValid d r sg then mult else 0 in
    if thisValid d r sg && nextValid d r sg
       && (thisSmall d r sg || nextSmall d r sg)
    then
      let twoLow' :=
        if thisSmall d r sg && nextSmall d r sg then true
        else twoLow m in
      if Rltb multNext mult && Rltb multNextNext (GetLowCut f d r eta)
      then
        (mkMerging true (eTotal m) twoLow',
         mkCounts (nSingle c) (nDouble c + 1) (nTriple c),
         Some (mult + multNext))
      else
        (mkMerging false (mult + multNext) twoLow', c, Some 0)
    else if Rltb 0 etot then
      (m, mkCounts (nSingle c + 1) (nDouble c) (nTriple c), Some etot)
    else (m, c, Some etot).

(** *** The body of the strip loop *)

(** The test for a dead strip, the value of [mult] after it, and the
    test for a strip without signal. *)
Definition deadStrip (d : N) (r : ascii) (s nstr t : N) : bool :=
  Reqb (sigMult (readSignals d r s nstr t)) kInvalidMult
  || IsDead f d r s t.

Definition stripMult (d : N) (r : ascii) (s nstr t : N) : R :=
  if deadStrip d r s nstr t then kInvalidMult
  else sigMult (readSignals d r s nstr t).

Definition noSignal (d : N) (r : ascii) (s nstr t : N) : bool :=
  Reqb (stripMult d r s nstr t) kInvalidMult
  || Reqb (stripMult d r s nstr t) 0.

(** The value written for a strip whose current sum is [etot]. *)
Definition mergedEnergy (etot eta : R) : R :=
  if negb (fCorrectAngles f) then AngleCorrect etot eta else etot.

Definition stripBody (d : N) (r : ascii) (s nstr t : N) (st : Loop)
  : Loop :=
  let m := merging st in
  let out := SetMultiplicity (output st) d r s t 0 in
  let sg := readSignals d r s nstr t in
  let out :=
    if (s =? 0)%N then SetEta out d r s t (Eta input d r s t) else out in
  let out :=
    if deadStrip d r s nstr t
    then SetMultiplicity out d r s t kInvalidMult else out in
  if noSignal d r s nstr t then
    let out :=
      if Rltb 0 (eTotal m) && (0 <? t)%N
      then SetMultiplicity out d r s (t - 1) (eTotal m) else out in
    mkLoop (mkMerging false (-1) false) (counts st) out
  else
    match mergeStrip d r sg m (counts st) with
    | (m', c', None) => mkLoop m' c' out
    | (m', c', Some etot) =>
        mkLoop m' c'
               (SetMultiplicity out d r s t
                                (mergedEnergy etot (sigEta sg)))
    end.

(** *** The loops over strips, sectors, rings and detectors *)

Definition sectorStart (c : Counts) (out : AliESDFMD) : Loop :=
  mkLoop (mkMerging false (-1) false) c out.

Definition stripLoop (d : N) (r : ascii) (s nstr : N) (ts : list N)
                     (st : Loop) : Loop :=
  fold_left (fun st t => stripBody d r s nstr t st) ts st.

Definition sectorBody (d : N) (r : ascii) (nstr s : N)
                      (co : Counts * AliESDFMD) : Counts * AliESDFMD :=
  let st := stripLoop d r s nstr (upTo nstr) (sectorStart (fst co) (snd co)) in
  (counts st, output st).

Definition ringName (q : N) : ascii := if (q =? 0)%N then "I" else "O".
Definition ringSectors (q : N) : N := if (q =? 0)%N then 20%N else 40%N.
Definition ringStrips (q : N) : N := if (q =? 0)%N then 512%N else 256%N.

(** The loop over the sectors of a ring whose container [histos] is at
    hand. *)
Definition sectorLoop (d : N) (r : ascii) (nsec nstr : N)
                      (co : Counts * AliESDFMD) : Counts * AliESDFMD :=
  fold_left (fun co s => sectorBody d r nstr s co) (upTo nsec) co.

(** The body of the loop over the rings fetches [histos] with
    [GetRingHistos].  Every path through the body of the strip loop
    dereferences [histos], in the test for a dead strip, at a strip
    without signal or at the first fill for a strip with a signal, and
    every ring has strips: with a null pointer the run ends in the first
    strip of the ring, which is the result [None]. *)
Definition ringBody (d q : N) (co : Counts * AliESDFMD)
  : option (Counts * AliESDFMD) :=
  let r := ringName q in
  let nsec := ringSectors q in
  let nstr := ringStrips q in
  match GetRingHistos (fRingHistos f) d r with
  | None => None
  | Some histos => Some (sectorLoop d r nsec nstr co)
  end.

Definition detectorBody (d : N) (co : Counts * AliESDFMD)
  : option (Counts * AliESDFMD) :=
  let nRings := if (d =? 1)%N then 1%N else 2%N in
  fold_left (fun co q => match co with
                         | Some co => ringBody d q co
                         | None => None
                         end)
            (upTo nRings) (Some co).

Definition filterLoops (co : Counts * AliESDFMD)
  : option (Counts * AliESDFMD) :=
  fold_left (fun co d => match co with
                         | Some co => detectorBody d co
                         | None => None
                         end)
            [1%N; 2%N; 3%N] (Some co).

(** [Filter] returns its flag and the output object, unless the run ends
    at a null pointer; [lowFlux] is not used. *)
Definition Filter (lowFlux : bool) (output : AliESDFMD)
  : option (bool * AliESDFMD) :=
  let output := Clear output in
  match filterLoops (mkCounts 0 0 0, output) with
  | None => None
  | Some co => Some (true, snd co)
  end.

(** *** Derived views of the strip loop

    The merging state and the counters evolve without a look at the output
    object: [mergingStep] is the effect of the body on them, [mergingLoop]
    the effect of a run of strips and [mergingBefore] their value on entry
    of strip [t] of a sector. *)
Definition mergingStep (d : N) (r : ascii) (s nstr t : N)
                       (mc : Merging * Counts) : Merging * Counts :=
  if noSignal d r s nstr t then (mkMerging false (-1) false, snd mc)
  else fst (mergeStrip d r (readSignals d r s nstr t) (fst mc) (snd mc)).

Definition mergingLoop (d : N) (r : ascii) (s nstr : N) (ts : list N)
                       (mc : Merging * Counts) : Merging * Counts :=
  fold_left (fun mc t => mergingStep d r s nstr t mc) ts mc.

Definition mergingBefore (d : N) (r : ascii) (s nstr t : N) (c : Counts)
  : Merging * Counts :=
  mergingLoop d r s nstr (upTo t) (mkMerging false (-1) false, c).

(** The value that the body writes at its own strip. *)
Definition stripValue (d : N) (r : ascii) (s nstr t : N)
                      (mc : Merging * Counts) : R :=
  if deadStrip d r s nstr t then kInvalidMult
  else if noSignal d r s nstr t then 0
  else match snd (mergeStrip d r (readSignals d r s nstr t)
                             (fst mc) (snd mc)) with
       | Some etot => mergedEnergy etot (sigEta (readSignals d r s nstr t))
       | None => 0
       end.

(** The value of strip [t] once its sector is done: what the body wrote at
    [t], unless the body of strip [t + 1] flushed a pending sum there. *)
Definition stripOutput (d : N) (r : ascii) (s nstr t : N) : R :=
  let mc := mergingBefore d r s nstr t (mkCounts 0 0 0) in
  let mc' := mergingStep d r s nstr t mc in
  if (t + 1 <? nstr)%N && noSignal d r s nstr (t + 1)
     && Rltb 0 (eTotal (fst mc'))
  then eTotal (fst mc')
  else stripValue d r s nstr t mc.

End Event.

End Sharing.

(** ** The strips of the detector

    The strips that the loops of [Filter] visit: the inner ring of FMD1 and
    both rings of FMD2 and FMD3, with 20 sectors of 512 strips in an inner
    ring and 40 sectors of 256 strips in an outer ring. *)
Definition sectorsOf (r : ascii) : N := if Ascii.eqb r "I" then 20%N else 40%N.
Definition stripsOf (r : ascii) : N := if Ascii.eqb r "I" then 512%N else 256%N.

Definition validRing (d : N) (r : ascii) : bool :=
  ((d =? 1)%N && Ascii.eqb r "I")
  || (((d =? 2)%N || (d =? 3)%N) && (Ascii.eqb r "I" || Ascii.eqb r "O")).

Definition validStrip (d : N) (r : ascii) (s t : N) : bool :=
  validRing d r && (s <? sectorsOf r)%N && (t <? stripsOf r)%N.

(** The filter holds a container for every ring of the detector. *)
Definition ownsRingHistos (f : AliFMDSharingFilter) : Prop :=
  forall d r, validRing d r = true ->
              GetRingHistos (fRingHistos f) d r <> None.

(** Two ESD objects hold the same signal and the same pseudo-rapidity at
    a strip. *)
Definition agreeAt (in1 in2 : AliESDFMD) (d : N) (r : ascii) (s t : N)
  : Prop :=
  Multiplicity in1 d r s t = Multiplicity in2 d r s t
  /\ Eta in1 d r s t = Eta in2 d r s t.

(** ** Malformed strip addresses

    The addresses that the specification calls malformed: a detector
    outside 1..3, an outer ring on detector 1, a sector or a strip beyond
    the size of the ring. *)
Definition malformedAddress (d : N) (r : ascii) (s t : N) : bool :=
  (d <? 1)%N || (3 <? d)%N
  || ((d =? 1)%N && negb (isInner r))
  || (if isInner r then (20 <=? s)%N else (40 <=? s)%N)
  || (if isInner r then (512 <=? t)%N else (256 <=? t)%N).

(** ** Concrete data for the examples *)

(** A packing of a strip address into a bit number, in the manner of
    [AliFMDStripIndex]: nine bits of strip, six bits of sector, one bit of
    ring and two bits of detector.  It instantiates the variable [Pack]
    in the concrete examples only. *)
Definition stripIndexPack (d : N) (r : ascii) (s t : N) : N :=
  let irg := if isInner r then 0%N else 1%N in
  N.lor (N.land t 511)
        (N.lor (N.shiftl (N.land s 63) 9)
               (N.lor (N.shiftl (N.land irg 1) 16)
                      (N.shiftl (N.land d 3) 17))).

(** Every strip is seen at pseudo-rapidity 1 from every vertex. *)
Definition etaFromStripExample (d : N) (r : ascii) (s t : N) (zvtx : R) : R := 1.

(** A filter with the five ring containers, a low cut of 0.15 and a high
    cut of 0.8, and an ESD object that holds the signals [l] in the first
    strips of sector 0 of FMD1i, at pseudo-rapidity 1, with a slot of
    pseudo-rapidity per sector.  The filter works on angle-corrected
    signals when [angles] is set, and [corrected] tells whether the
    signals of the ESD object are angle corrected. *)
Definition exampleFilter (angles : bool) (dead : gset N)
  : AliFMDSharingFilter :=
  mkFilter namedRingHistos angles (fun _ _ _ _ => 3 / 20)
           (fun _ _ _ _ => 4 / 5) true false dead false.

Definition exampleESD (corrected : bool) (l : list R) : AliESDFMD :=
  mkESD (fun d r s t =>
           if (d =? 1)%N && Ascii.eqb r "I" && (s =? 0)%N
           then nth (N.to_nat t) l 0 else 0)
        (fun _ _ _ _ => 1)
        corrected
        (fun s => s).

(** The same filter without three-strip merging, and the same filter
    without ring containers, as the default constructor leaves the
    list. *)
Definition twoStripFilter : AliFMDSharingFilter :=
  mkFilter namedRingHistos true (fun _ _ _ _ => 3 / 20)
           (fun _ _ _ _ => 4 / 5) false false ∅ false.

Definition bareFilter : AliFMDSharingFilter :=
  mkFilter [] true (fun _ _ _ _ => 3 / 20) (fun _ _ _ _ => 4 / 5)
           true false ∅ false.

(** An empty ESD object that holds one pseudo-rapidity per detector, ring
    and strip: every sector reads and writes slot 0. *)
Definition singleEtaESD : AliESDFMD :=
  mkESD (fun _ _ _ _ => 0) (fun _ _ _ _ => 1) true (fun _ => 0%N).

(** Seven strips with the signal 0.5, and the same with an empty first
    strip. *)
Definition sevenStrips : list R :=
  [1 / 2; 1 / 2; 1 / 2; 1 / 2; 1 / 2; 1 / 2; 1 / 2].
Definition sixStrips : list R :=
  [0; 1 / 2; 1 / 2; 1 / 2; 1 / 2; 1 / 2; 1 / 2].

(** Strip 1 of sector 0 of FMD1i, flagged as dead. *)
Definition deadStripOne : gset N := {[ stripIndexPack 1 "I" 0 1 ]}.

(** ** Dead regions and settings

    The loops of [AddDeadRegion] run over [Int_t] values between two
    [UShort_t] bounds, both inclusive; [fromTo] lists them.  The warnings
    of the calls of [AddDead] are collected in the order of the calls. *)
Definition fromTo (a b : N) : list N :=
  map (fun k => (a + N.of_nat k)%N) (seq 0 (N.to_nat (b + 1 - a))).

Section DeadRegion.

Variable Pack : N -> ascii -> N -> N -> N.

Definition AddDeadRegion (f : AliFMDSharingFilter) (d : N) (r : ascii)
                         (s1 s2 t1 t2 : N)
  : AliFMDSharingFilter * list Warning :=
  fold_left
    (fun fw s =>
       fold_left
         (fun fw t =>
            let (f', w) := AddDead Pack (fst fw) d r s t in
            (f', snd fw ++ match w with Some w => [w] | None => [] end))
         (fromTo t1 t2) fw)
    (fromTo s1 s2) (f, []).

End DeadRegion.

(** The filter [f] with the flag [fRecalculateEta] set to [use] and
    every other member as it is. *)
Definition withRecalculateEta (f : AliFMDSharingFilter) (use : bool)
  : AliFMDSharingFilter :=
  mkFilter (fRingHistos f) (fCorrectAngles f) (fLCuts f) (fHCuts f)
           (fThreeStripSharing f) use (fXtraDead f) (fInvalidIsEmpty f).

(** ** Properties *)

(** *** Comparisons *)

Lemma Rltb_true x y : x < y -> Rltb x y = true.
Proof. intros H. unfold Rltb. destruct (Rlt_dec x y); [reflexivity | contradiction]. Qed.

Lemma Rltb_false x y : ~ x < y -> Rltb x y = false.
Proof. intros H. unfold Rltb. destruct (Rlt_dec x y); [contradiction | reflexivity]. Qed.

Lemma Rltb_lt x y : Rltb x y = true <-> x < y.
Proof.
  unfold Rltb. destruct (Rlt_dec x y); split; intros; try assumption;
    try reflexivity; try discriminate; contradiction.
Qed.

Lemma Rltb_nlt x y : Rltb x y = false <-> ~ x < y.
Proof.
  unfold Rltb. destruct (Rlt_dec x y); split; intros; try assumption;
    try reflexivity; try discriminate; contradiction.
Qed.

Lemma Reqb_true x y : x = y -> Reqb x y = true.
Proof. intros H. unfold Reqb. destruct (Req_dec_T x y); [reflexivity | contradiction]. Qed.

Lemma Reqb_false x y : x <> y -> Reqb x y = false.
Proof. intros H. unfold Reqb. destruct (Req_dec_T x y); [contradiction | reflexivity]. Qed.

Lemma Reqb_eq x y : Reqb x y = true <-> x = y.
Proof.
  unfold Reqb. destruct (Req_dec_T x y); split; intros; try assumption;
    try reflexivity; try discriminate; contradiction.
Qed.

Lemma Reqb_neq x y : Reqb x y = false <-> x <> y.
Proof.
  unfold Reqb. destruct (Req_dec_T x y); split; intros; try assumption;
    try reflexivity; try discriminate; contradiction.
Qed.

Lemma Reqb_refl x : Reqb x x = true.
Proof. apply Reqb_true. reflexivity. Qed.

(** Decides the comparisons of concrete reals in the goal. *)
Ltac decideR :=
  repeat match goal with
    | |- context [Rltb ?a ?b] =>
        first [ rewrite (Rltb_true a b) by lra
              | rewrite (Rltb_false a b) by lra ]
    | |- context [Reqb ?a ?b] =>
        first [ rewrite (Reqb_true a b) by lra
              | rewrite (Reqb_false a b) by lra ]
    end.

(** *** The angle of incidence *)

Lemma incidenceAngle_pos eta :
  0 < eta -> 0 < incidenceAngle eta < PI / 2.
Proof.
  intros Heta. unfold incidenceAngle.
  rewrite Rltb_false by lra.
  assert (H0 : 0 < atan (exp (- eta))).
  { rewrite <- atan_0. apply atan_increasing. apply exp_pos. }
  assert (H1 : atan (exp (- eta)) < PI / 4).
  { rewrite <- atan_1. apply atan_increasing.
    rewrite <- exp_0. apply exp_increasing. lra. }
  lra.
Qed.

Lemma incidenceAngle_neg eta :
  eta < 0 -> - (PI / 2) < incidenceAngle eta < 0.
Proof.
  intros Heta. unfold incidenceAngle.
  rewrite Rltb_true by lra.
  assert (H0 : PI / 4 < atan (exp (- eta))).
  { rewrite <- atan_1. apply atan_increasing.
    rewrite <- exp_0. apply exp_increasing. lra. }
  pose proof (atan_bound (exp (- eta))) as [_ H1].
  lra.
Qed.

Lemma incidenceAngle_0 : incidenceAngle 0 = PI / 2.
Proof.
  unfold incidenceAngle. rewrite Rltb_false by lra.
  rewrite Ropp_0, exp_0, atan_1. lra.
Qed.

(** The cosine of the angle of incidence vanishes at mid-rapidity only. *)
Lemma cos_incidenceAngle_pos eta :
  eta <> 0 -> 0 < cos (incidenceAngle eta).
Proof.
  intros Hne. destruct (Rlt_dec eta 0) as [Hlt | Hge].
  - pose proof (incidenceAngle_neg eta Hlt). apply cos_gt_0; lra.
  - assert (Hpos : 0 < eta) by lra.
    pose proof (incidenceAngle_pos eta Hpos). apply cos_gt_0; lra.
Qed.

Lemma cos_incidenceAngle_0 : cos (incidenceAngle 0) = 0.
Proof. rewrite incidenceAngle_0. apply cos_PI2. Qed.

(** The cosine of the angle of incidence is never one: the correction
    changes every signal but zero. *)
Lemma cos_incidenceAngle_lt_1 eta : cos (incidenceAngle eta) < 1.
Proof.
  pose proof PI_RGT_0 as Hpi.
  destruct (Req_dec_T eta 0) as [-> | Hne].
  - rewrite cos_incidenceAngle_0. lra.
  - rewrite <- cos_0. destruct (Rlt_dec eta 0) as [Hlt | Hge].
    + pose proof (incidenceAngle_neg eta Hlt).
      rewrite <- cos_neg. apply cos_decreasing_1; lra.
    + assert (Hpos : 0 < eta) by lra.
      pose proof (incidenceAngle_pos eta Hpos).
      apply cos_decreasing_1; lra.
Qed.

(** C10. [AngleCorrect] and [DeAngleCorrect] are mutually inverse: wherever
    the cosine of the angle of incidence derived from [eta] does not
    vanish, de-correcting a corrected signal and correcting a de-corrected
    signal both give the signal back. *)
Theorem AngleCorrect_DeAngleCorrect_inverse (m eta : R) :
  cos (incidenceAngle eta) <> 0 ->
  DeAngleCorrect (AngleCorrect m eta) eta = m
  /\ AngleCorrect (DeAngleCorrect m eta) eta = m.
Proof.
  intros Hcos. unfold DeAngleCorrect, AngleCorrect.
  split; field; exact Hcos.
Qed.

Lemma AngleCorrect_DeAngleCorrect_inverse_witness :
  DeAngleCorrect (AngleCorrect 2 1) 1 = 2
  /\ AngleCorrect (DeAngleCorrect 2 1) 1 = 2.
Proof.
  apply (AngleCorrect_DeAngleCorrect_inverse 2 1).
  pose proof (cos_incidenceAngle_pos 1). lra.
Defined.

(** *** Dead strips *)

Lemma TestBitNumber_SetBitNumber (b : gset N) (n : N) :
  TestBitNumber (SetBitNumber b n true) n = true.
Proof.
  unfold TestBitNumber, SetBitNumber. apply bool_decide_eq_true. set_solver.
Qed.

(** C8. [AddDead] on a malformed address issues a warning and returns the
    filter as it was, so the set of dead strips is unchanged; on a
    well-formed address the strip is dead afterwards. *)
Theorem AddDead_warns_or_marks
    (Pack : N -> ascii -> N -> N -> N) (f : AliFMDSharingFilter)
    (d : N) (r : ascii) (s t : N) :
  (malformedAddress d r s t = true ->
     (exists w, snd (AddDead Pack f d r s t) = Some w)
     /\ fst (AddDead Pack f d r s t) = f)
  /\ (malformedAddress d r s t = false ->
        IsDead Pack (fst (AddDead Pack f d r s t)) d r s t = true).
Proof.
  unfold malformedAddress, AddDead, IsDead.
  destruct (d <? 1)%N, (3 <? d)%N, (d =? 1)%N, (isInner r),
    (20 <=? s)%N, (40 <=? s)%N, (512 <=? t)%N, (256 <=? t)%N; simpl;
    (split; intros H; try discriminate H;
     try (split; [eexists; reflexivity | reflexivity]);
     apply TestBitNumber_SetBitNumber).
Qed.

Lemma AddDead_warns_or_marks_witness :
  ((exists w, snd (AddDead stripIndexPack (exampleFilter true ∅) 1 "O" 0 0) = Some w)
   /\ fst (AddDead stripIndexPack (exampleFilter true ∅) 1 "O" 0 0) = exampleFilter true ∅)
  /\ IsDead stripIndexPack
            (fst (AddDead stripIndexPack (exampleFilter true ∅) 3 "O" 39 255))
            3 "O" 39 255 = true.
Proof.
  split.
  - apply (AddDead_warns_or_marks stripIndexPack (exampleFilter true ∅) 1 "O" 0 0).
    reflexivity.
  - apply (AddDead_warns_or_marks stripIndexPack (exampleFilter true ∅) 3 "O" 39 255).
    reflexivity.
Defined.

(** *** The merging pass *)

(** Reading and writing the ESD object. *)

Lemma sameStrip_refl d r s t : sameStrip d r s t d r s t = true.
Proof.
  unfold sameStrip. rewrite !N.eqb_refl, Ascii.eqb_refl. reflexivity.
Qed.

Lemma sameStrip_true d r s t d' r' s' t' :
  sameStrip d r s t d' r' s' t' = true <->
  d = d' /\ r = r' /\ s = s' /\ t = t'.
Proof.
  unfold sameStrip. rewrite !andb_true_iff, !N.eqb_eq, Ascii.eqb_eq. tauto.
Qed.

Lemma sameStrip_other_strip d r s t d' r' s' t' :
  t <> t' -> sameStrip d r s t d' r' s' t' = false.
Proof.
  intros Hne. destruct (sameStrip d r s t d' r' s' t') eqn:E; [| reflexivity].
  apply sameStrip_true in E. tauto.
Qed.

Lemma sameStrip_other_sector d r s t d' r' s' t' :
  d <> d' \/ r <> r' \/ s <> s' -> sameStrip d r s t d' r' s' t' = false.
Proof.
  intros Hne. destruct (sameStrip d r s t d' r' s' t') eqn:E; [| reflexivity].
  apply sameStrip_true in E. tauto.
Qed.

Lemma Multiplicity_SetMultiplicity o d r s t v d' r' s' t' :
  Multiplicity (SetMultiplicity o d r s t v) d' r' s' t' =
  if sameStrip d r s t d' r' s' t' then v else Multiplicity o d' r' s' t'.
Proof. reflexivity. Qed.

Lemma Multiplicity_SetMultiplicity_same o d r s t v :
  Multiplicity (SetMultiplicity o d r s t v) d r s t = v.
Proof. rewrite Multiplicity_SetMultiplicity, sameStrip_refl. reflexivity. Qed.

Lemma Multiplicity_SetEta o d r s t v d' r' s' t' :
  Multiplicity (SetEta o d r s t v) d' r' s' t' = Multiplicity o d' r' s' t'.
Proof. reflexivity. Qed.

Lemma Eta_SetMultiplicity o d r s t v d' r' s' t' :
  Eta (SetMultiplicity o d r s t v) d' r' s' t' = Eta o d' r' s' t'.
Proof. reflexivity. Qed.

Lemma Eta_SetEta o d r s t v d' r' s' t' :
  Eta (SetEta o d r s t v) d' r' s' t' =
  if sameStrip d r (fEtaSector o s) t d' r' (fEtaSector o s') t' then v
  else Eta o d' r' s' t'.
Proof. reflexivity. Qed.

(** The same on the map of the pseudo-rapidities, slot by slot; neither
    setter changes which slot a sector uses. *)
Lemma fEta_SetMultiplicity o d r s t v :
  fEta (SetMultiplicity o d r s t v) = fEta o.
Proof. reflexivity. Qed.

Lemma fEta_SetEta o d r s t v d' r' k' t' :
  fEta (SetEta o d r s t v) d' r' k' t' =
  if sameStrip d r (fEtaSector o s) t d' r' k' t' then v
  else fEta o d' r' k' t'.
Proof. reflexivity. Qed.

Lemma fEtaSector_SetMultiplicity o d r s t v :
  fEtaSector (SetMultiplicity o d r s t v) = fEtaSector o.
Proof. reflexivity. Qed.

Lemma fEtaSector_SetEta o d r s t v :
  fEtaSector (SetEta o d r s t v) = fEtaSector o.
Proof. reflexivity. Qed.

Lemma mergedEnergy_0 f eta : mergedEnergy f 0 eta = 0.
Proof.
  unfold mergedEnergy, AngleCorrect. destruct (fCorrectAngles f); simpl; lra.
Qed.

(** The value that the body writes for a hit of energy [e]. *)
Lemma mergedEnergy_cases f e eta :
  mergedEnergy f e eta =
  if fCorrectAngles f then e else AngleCorrect e eta.
Proof. unfold mergedEnergy. destruct (fCorrectAngles f); reflexivity. Qed.

Section Body.

Variable kInvalidMult : R.
Variable Pack : N -> ascii -> N -> N -> N.
Variable GetEtaFromStrip : N -> ascii -> N -> N -> R -> R.
Variable f : AliFMDSharingFilter.
Variable input : AliESDFMD.
Variable zvtx : R.

Local Abbreviation read := (SignalInStrip kInvalidMult f input).
Local Abbreviation signals :=
  (readSignals kInvalidMult GetEtaFromStrip f input zvtx).
Local Abbreviation dead :=
  (deadStrip kInvalidMult Pack GetEtaFromStrip f input zvtx).
Local Abbreviation skip :=
  (noSignal kInvalidMult Pack GetEtaFromStrip f input zvtx).
Local Abbreviation body :=
  (stripBody kInvalidMult Pack GetEtaFromStrip f input zvtx).

(** A strip with a signal is not dead, and its signal is neither
    invalid nor zero. *)
Lemma noSignal_false d r s nstr t :
  skip d r s nstr t = false ->
  dead d r s nstr t = false
  /\ sigMult (signals d r s nstr t) <> kInvalidMult
  /\ sigMult (signals d r s nstr t) <> 0.
Proof.
  unfold noSignal, stripMult. intros H.
  destruct (dead d r s nstr t) eqn:Hd.
  - rewrite Reqb_refl in H. discriminate H.
  - apply orb_false_iff in H as [H1 H2].
    apply Reqb_neq in H1. apply Reqb_neq in H2. auto.
Qed.

Lemma noSignal_true d r s nstr t :
  skip d r s nstr t = true ->
  dead d r s nstr t = true \/ sigMult (signals d r s nstr t) = 0.
Proof.
  unfold noSignal, stripMult. intros H.
  destruct (dead d r s nstr t) eqn:Hd; [left; reflexivity |].
  apply orb_true_iff in H as [H | H]; apply Reqb_eq in H.
  - unfold deadStrip in Hd. apply orb_false_iff in Hd as [Hd _].
    apply Reqb_neq in Hd. contradiction.
  - right. exact H.
Qed.

(** The merging state and the counters after a strip. *)
Lemma body_merging_signal d r s nstr t st :
  skip d r s nstr t = false ->
  merging (body d r s nstr t st) =
    fst (fst (mergeStrip f d r (signals d r s nstr t)
                         (merging st) (counts st)))
  /\ counts (body d r s nstr t st) =
    snd (fst (mergeStrip f d r (signals d r s nstr t)
                         (merging st) (counts st))).
Proof.
  intros H. unfold stripBody. rewrite H.
  destruct (mergeStrip f d r (signals d r s nstr t) (merging st) (counts st))
    as [[m' c'] [e |]]; split; reflexivity.
Qed.

Lemma body_merging_noSignal d r s nstr t st :
  skip d r s nstr t = true ->
  merging (body d r s nstr t st) = mkMerging false (-1) false
  /\ counts (body d r s nstr t st) = counts st.
Proof.
  intros H. unfold stripBody. rewrite H. split; reflexivity.
Qed.

(** The value written at the strip itself. *)
Lemma body_output_signal d r s nstr t st :
  skip d r s nstr t = false ->
  Multiplicity (output (body d r s nstr t st)) d r s t =
    match snd (mergeStrip f d r (signals d r s nstr t)
                          (merging st) (counts st)) with
    | Some etot => mergedEnergy f etot (sigEta (signals d r s nstr t))
    | None => 0
    end.
Proof.
  intros H. unfold stripBody. rewrite H.
  destruct (noSignal_false _ _ _ _ _ H) as [Hd _]. rewrite Hd.
  destruct (mergeStrip f d r (signals d r s nstr t) (merging st) (counts st))
    as [[m' c'] [e |]]; simpl.
  - apply Multiplicity_SetMultiplicity_same.
  - destruct (s =? 0)%N; [rewrite Multiplicity_SetEta |];
      apply Multiplicity_SetMultiplicity_same.
Qed.

(** The signals that the body holds, on the strips: the value of
    [SignalInStrip] at the strip and at its two successors, where a
    successor that is invalid or beyond the end of the sector counts as 0,
    and so does the second successor without three-strip merging, all
    three times the factor [corr] of a recalculated pseudo-rapidity. *)
Lemma signals_of_strips d r s nstr t :
  let corr :=
    if fRecalculateEta f && Rltb 0 (read d r s t)
       && negb (Reqb (read d r s t) kInvalidMult)
    then ETA2COS (GetEtaFromStrip d r s t zvtx) / ETA2COS (Eta input d r s t)
    else 1 in
  let eta :=
    if fRecalculateEta f then GetEtaFromStrip d r s t zvtx
    else Eta input d r s t in
  let next :=
    if (t <? nstr - 1)%N && negb (Reqb (read d r s (t + 1)) kInvalidMult)
    then read d r s (t + 1) else 0 in
  let nextNext :=
    if fThreeStripSharing f && (t <? nstr - 2)%N
       && negb (Reqb (read d r s (t + 2)) kInvalidMult)
    then read d r s (t + 2) else 0 in
  read d r s t * corr <> kInvalidMult ->
  signals d r s nstr t =
  mkSignals (read d r s t * corr) (next * corr) (nextNext * corr) eta.
Proof.
  intros corr eta next nextNext Hv.
  assert (En : (let m := if (t <? nstr - 1)%N then read d r s (t + 1) else 0 in
                if Reqb m kInvalidMult then 0 else m) = next).
  { subst next. cbv zeta. destruct (t <? nstr - 1)%N; cbn [andb].
    - destruct (Reqb (read d r s (t + 1)) kInvalidMult); reflexivity.
    - destruct (Reqb 0 kInvalidMult); reflexivity. }
  assert (Enn : (let m := if (t <? nstr - 2)%N then read d r s (t + 2) else 0 in
                 let m := if Reqb m kInvalidMult then 0 else m in
                 if negb (fThreeStripSharing f) then 0 else m) = nextNext).
  { subst nextNext. cbv zeta. destruct (fThreeStripSharing f); cbn [andb negb];
      [| reflexivity].
    destruct (t <? nstr - 2)%N; cbn [andb].
    - destruct (Reqb (read d r s (t + 2)) kInvalidMult); reflexivity.
    - destruct (Reqb 0 kInvalidMult); reflexivity. }
  unfold readSignals. cbv zeta in En, Enn |- *. rewrite En, Enn.
  clearbody next nextNext. clear En Enn.
  subst corr eta. revert Hv.
  destruct (fRecalculateEta f); cbn [andb].
  - destruct (Rltb 0 (read d r s t) && negb (Reqb (read d r s t) kInvalidMult));
      cbn [sigMult sigNext sigNextNext sigEta]; rewrite ?Rmult_1_r;
      intros Hv; rewrite (Reqb_false _ _ Hv); reflexivity.
  - cbn [sigMult sigNext sigNextNext sigEta]. rewrite ?Rmult_1_r.
    intros Hv. rewrite (Reqb_false _ _ Hv). reflexivity.
Qed.

(** A strip that is not held as dead and whose signal is neither invalid
    nor zero is a strip with a signal. *)
Lemma strip_with_signal d r s nstr t :
  let corr :=
    if fRecalculateEta f && Rltb 0 (read d r s t)
       && negb (Reqb (read d r s t) kInvalidMult)
    then ETA2COS (GetEtaFromStrip d r s t zvtx) / ETA2COS (Eta input d r s t)
    else 1 in
  IsDead Pack f d r s t = false ->
  read d r s t * corr <> kInvalidMult ->
  read d r s t * corr <> 0 ->
  skip d r s nstr t = false.
Proof.
  intros corr Hx Hv H0.
  pose proof (signals_of_strips d r s nstr t Hv) as E. cbv zeta in E.
  unfold noSignal, stripMult, deadStrip. rewrite E. cbn [sigMult].
  fold corr. rewrite (Reqb_false _ _ Hv), Hx. cbn [orb].
  rewrite (Reqb_false _ _ Hv), (Reqb_false _ _ H0). reflexivity.
Qed.


(** C1, as the code has it.  A strip that has a signal (it is not held
    as dead and its signal [mult] is neither invalid nor zero) and that
    is met with a pending sum ([eTotal > 0]) adds the next strip as a
    third strip exactly when three-strip merging is enabled, the signal
    [multNext] of the next strip is above the low cut, and that signal is
    below the high cut or [twoLow] is set; otherwise the pending sum is
    stored as a two-strip cluster.  Either way the sum is written at the
    current strip, as it is when the filter works on angle-corrected
    signals and through [AngleCorrect] when it does not, and [eTotal] is
    reset.  [mult] and [multNext] are the values of [SignalInStrip] at
    the strip and at its successor (0 for a successor that is invalid or
    beyond the end of the sector), times the factor [corr] of a
    recalculated pseudo-rapidity. *)
Theorem pending_sum_third_strip d r s nstr t st :
  let corr :=
    if fRecalculateEta f && Rltb 0 (read d r s t)
       && negb (Reqb (read d r s t) kInvalidMult)
    then ETA2COS (GetEtaFromStrip d r s t zvtx) / ETA2COS (Eta input d r s t)
    else 1 in
  let eta :=
    if fRecalculateEta f then GetEtaFromStrip d r s t zvtx
    else Eta input d r s t in
  let mult := read d r s t * corr in
  let multNext :=
    (if (t <? nstr - 1)%N && negb (Reqb (read d r s (t + 1)) kInvalidMult)
     then read d r s (t + 1) else 0) * corr in
  let low := GetLowCut f d r eta in
  let high := GetHighCut f d r eta false in
  let st' := body d r s nstr t st in
  let third :=
    fThreeStripSharing f && Rltb low multNext
    && (Rltb multNext high || twoLow (merging st)) in
  IsDead Pack f d r s t = false ->
  mult <> kInvalidMult ->
  mult <> 0 ->
  0 < eTotal (merging st) ->
  (third = true ->
     nTriple (counts st') = (nTriple (counts st) + 1)%Z
     /\ nDouble (counts st') = nDouble (counts st)
     /\ used (merging st') = true
     /\ Multiplicity (output st') d r s t =
          (if fCorrectAngles f then eTotal (merging st) + multNext
           else AngleCorrect (eTotal (merging st) + multNext) eta))
  /\ (third = false ->
        nDouble (counts st') = (nDouble (counts st) + 1)%Z
        /\ nTriple (counts st') = nTriple (counts st)
        /\ used (merging st') = false
        /\ Multiplicity (output st') d r s t =
             (if fCorrectAngles f then eTotal (merging st)
              else AngleCorrect (eTotal (merging st)) eta))
  /\ eTotal (merging st') = -1.
Proof.
  intros corr eta mult multNext low high st' third Hx Hv H0 Hpend.
  pose proof (strip_with_signal d r s nstr t Hx Hv H0) as Hskip.
  pose proof (signals_of_strips d r s nstr t Hv) as Hsg. cbv zeta in Hsg.
  destruct (body_merging_signal d r s nstr t st Hskip) as [Hm Hc].
  pose proof (body_output_signal d r s nstr t st Hskip) as Ho.
  rewrite Hsg in Hm, Hc, Ho. fold st' in Hm, Hc, Ho.
  unfold mergeStrip, nextValid, nextSmall in Hm, Hc, Ho.
  cbn [sigMult sigNext sigNextNext sigEta] in Hm, Hc, Ho.
  rewrite (Rltb_true _ _ Hpend) in Hm, Hc, Ho.
  fold corr eta in Hm, Hc, Ho. fold multNext low high in Hm, Hc, Ho.
  fold third in Hm, Hc, Ho.
  destruct third; cbn [fst snd] in Hm, Hc, Ho;
    rewrite mergedEnergy_cases in Ho; rewrite Hm, Hc, Ho;
    cbn [nSingle nDouble nTriple used eTotal twoLow];
    repeat split; intros; try discriminate; repeat split; reflexivity.
Qed.

(** C2, as the code has it.  A strip that has a signal (it is not held
    as dead and its signal [mult] is neither invalid nor zero), met
    without pending sum and not used by its predecessor, starts a
    two-strip merge exactly when [mult] and the signal [multNext] of the
    next strip are above the low cut and one of them is below the high
    cut.  If then [mult] exceeds [multNext] and [multNextNext] is below
    the low cut, the double cluster [mult + multNext] is written at once,
    as it is when the filter works on angle-corrected signals and through
    [AngleCorrect] when it does not, and the next strip is marked as
    used; otherwise the sum is kept pending in [eTotal] and zero is
    written.  [multNextNext] is the signal of the strip after next with
    three-strip merging and 0 without it; a successor that is invalid or
    beyond the end of the sector counts as 0, and all three signals are
    values of [SignalInStrip] times the factor [corr] of a recalculated
    pseudo-rapidity. *)
Theorem fresh_strip_two_strip_merge d r s nstr t st :
  let corr :=
    if fRecalculateEta f && Rltb 0 (read d r s t)
       && negb (Reqb (read d r s t) kInvalidMult)
    then ETA2COS (GetEtaFromStrip d r s t zvtx) / ETA2COS (Eta input d r s t)
    else 1 in
  let eta :=
    if fRecalculateEta f then GetEtaFromStrip d r s t zvtx
    else Eta input d r s t in
  let mult := read d r s t * corr in
  let multNext :=
    (if (t <? nstr - 1)%N && negb (Reqb (read d r s (t + 1)) kInvalidMult)
     then read d r s (t + 1) else 0) * corr in
  let multNextNext :=
    (if fThreeStripSharing f && (t <? nstr - 2)%N
        && negb (Reqb (read d r s (t + 2)) kInvalidMult)
     then read d r s (t + 2) else 0) * corr in
  let low := GetLowCut f d r eta in
  let high := GetHighCut f d r eta false in
  let st' := body d r s nstr t st in
  let started :=
    Rltb low mult && Rltb low multNext
    && (Rltb mult high || Rltb multNext high) in
  IsDead Pack f d r s t = false ->
  mult <> kInvalidMult ->
  mult <> 0 ->
  ~ 0 < eTotal (merging st) ->
  used (merging st) = false ->
  (started = true ->
     (multNext < mult /\ multNextNext < low ->
        Multiplicity (output st') d r s t =
          (if fCorrectAngles f then mult + multNext
           else AngleCorrect (mult + multNext) eta)
        /\ used (merging st') = true
        /\ nDouble (counts st') = (nDouble (counts st) + 1)%Z
        /\ eTotal (merging st') = eTotal (merging st))
     /\ (~ (multNext < mult /\ multNextNext < low) ->
           eTotal (merging st') = mult + multNext
           /\ Multiplicity (output st') d r s t = 0
           /\ used (merging st') = false
           /\ counts st' = counts st))
  /\ (started = false ->
        eTotal (merging st') = eTotal (merging st)
        /\ used (merging st') = false
        /\ nDouble (counts st') = nDouble (counts st)).
Proof.
  intros corr eta mult multNext multNextNext low high st' started
    Hx Hv H0 Hpend Hused.
  pose proof (strip_with_signal d r s nstr t Hx Hv H0) as Hskip.
  pose proof (signals_of_strips d r s nstr t Hv) as Hsg. cbv zeta in Hsg.
  destruct (body_merging_signal d r s nstr t st Hskip) as [Hm Hc].
  pose proof (body_output_signal d r s nstr t st Hskip) as Ho.
  rewrite Hsg in Hm, Hc, Ho. fold st' in Hm, Hc, Ho.
  unfold mergeStrip, thisValid, nextValid, thisSmall, nextSmall in Hm, Hc, Ho.
  cbn [sigMult sigNext sigNextNext sigEta] in Hm, Hc, Ho.
  rewrite (Rltb_false _ _ Hpend), Hused in Hm, Hc, Ho.
  fold corr eta in Hm, Hc, Ho.
  fold mult multNext multNextNext low high in Hm, Hc, Ho.
  fold started in Hm, Hc, Ho.
  destruct started.
  - split; [| intros; discriminate]. intros _. split.
    + intros [H1 H2].
      rewrite (Rltb_true _ _ H1), (Rltb_true _ _ H2) in Hm, Hc, Ho.
      cbn [andb fst snd] in Hm, Hc, Ho.
      rewrite mergedEnergy_cases in Ho. rewrite Hm, Hc, Ho.
      cbn [nDouble used eTotal]. auto.
    + intros Hn.
      assert (Hb : Rltb multNext mult && Rltb multNextNext low = false).
      { apply not_true_is_false. intros Hb. apply Hn.
        apply andb_true_iff in Hb as [H1 H2].
        split; apply Rltb_lt; assumption. }
      rewrite Hb in Hm, Hc, Ho. cbn [fst snd] in Hm, Hc, Ho.
      rewrite Hm, Hc, Ho. cbn [used eTotal]. rewrite mergedEnergy_0. auto.
  - split; [intros; discriminate |]. intros _.
    destruct (Rltb 0 (if Rltb low mult then mult else 0));
      cbn [fst snd] in Hm, Hc; rewrite Hm, Hc;
      cbn [nDouble used eTotal]; rewrite ?Hused; auto.
Qed.

Lemma dead_or_zero_noSignal d r s nstr t :
  dead d r s nstr t = true \/ sigMult (signals d r s nstr t) = 0 ->
  skip d r s nstr t = true.
Proof.
  intros H. unfold noSignal, stripMult.
  destruct (dead d r s nstr t); [rewrite Reqb_refl; reflexivity |].
  destruct H as [H | H]; [discriminate H |].
  rewrite H, Reqb_refl. apply orb_true_r.
Qed.

(** C3, as the code has it.  A strip without signal (the strip is dead,
    that is its signal is invalid or the strip is flagged, or its signal
    is zero) resets the merging state.  A strip with a signal that is not
    above the low cut, met without pending sum, is written as zero and
    starts no merge: [used] is cleared and [eTotal] stays as it is;
    [twoLow] stays as it is too. *)
Theorem no_signal_resets_merging d r s nstr t st :
  let sg := signals d r s nstr t in
  let st' := body d r s nstr t st in
  (dead d r s nstr t = true \/ sigMult sg = 0 ->
     merging st' = mkMerging false (-1) false)
  /\ (skip d r s nstr t = false ->
        thisValid f d r sg = false ->
        ~ 0 < eTotal (merging st) ->
        Multiplicity (output st') d r s t = 0
        /\ used (merging st') = false
        /\ eTotal (merging st') = eTotal (merging st)
        /\ twoLow (merging st') = twoLow (merging st)).
Proof.
  intros sg st'. split.
  - intros Hnone. apply body_merging_noSignal.
    apply dead_or_zero_noSignal. exact Hnone.
  - intros Hskip Hlow Hpend.
    destruct (body_merging_signal d r s nstr t st Hskip) as [Hm _].
    pose proof (body_output_signal d r s nstr t st Hskip) as Ho.
    fold sg in Hm, Ho. fold st' in Hm, Ho.
    unfold mergeStrip in Hm, Ho.
    rewrite (Rltb_false _ _ Hpend), Hlow in Hm, Ho. simpl in Hm, Ho.
    rewrite (Rltb_false 0 0) in Hm, Ho by lra.
    destruct (used (merging st)) eqn:Hu; simpl in Hm, Ho; rewrite Hm, Ho;
      simpl; rewrite ?mergedEnergy_0, ?Hu; auto.
Qed.

(** C5, as the code has it.  The sum [etot] of a strip with a signal is
    written as it is when the filter works on angle-corrected signals,
    and through [AngleCorrect] when it does not: the correction at the
    end of the body is applied exactly when [fCorrectAngles] is off. *)
Theorem merged_energy_angle_correction d r s nstr t st etot :
  skip d r s nstr t = false ->
  snd (mergeStrip f d r (signals d r s nstr t) (merging st) (counts st))
    = Some etot ->
  Multiplicity (output (body d r s nstr t st)) d r s t =
    if fCorrectAngles f then etot
    else AngleCorrect etot (sigEta (signals d r s nstr t)).
Proof.
  intros Hskip Hetot.
  rewrite (body_output_signal d r s nstr t st Hskip), Hetot.
  unfold mergedEnergy. destruct (fCorrectAngles f); reflexivity.
Qed.

End Body.

(** *** One sector *)

Lemma upTo_succ (n : N) : upTo (n + 1) = upTo n ++ [n].
Proof.
  unfold upTo. replace (N.to_nat (n + 1)) with (N.to_nat n + 1)%nat by lia.
  rewrite seq_app, map_app. simpl. rewrite N2Nat.id. reflexivity.
Qed.

Lemma upTo_0 : upTo 0 = [].
Proof. reflexivity. Qed.

Lemma in_upTo (n x : N) : In x (upTo n) <-> (x < n)%N.
Proof.
  unfold upTo. rewrite in_map_iff. split.
  - intros [k [<- Hk]]. apply in_seq in Hk. lia.
  - intros Hx. exists (N.to_nat x). split; [apply N2Nat.id |].
    apply in_seq. lia.
Qed.

(** The strips of a loop, split at strip [t]. *)
Lemma upTo_split (n t : N) :
  (t < n)%N ->
  exists rest, upTo n = upTo t ++ t :: rest
               /\ (forall x, In x rest -> (t < x < n)%N)
               /\ (forall rest', rest = (t + 1)%N :: rest' ->
                     forall x, In x rest' -> (t + 1 < x)%N)
               /\ ((t + 1 < n)%N -> exists rest', rest = (t + 1)%N :: rest')
               /\ ((t + 1 = n)%N -> rest = []).
Proof.
  intros Ht. unfold upTo.
  replace (N.to_nat n) with (N.to_nat t + (1 + (N.to_nat n - N.to_nat t - 1)))%nat
    by lia.
  rewrite seq_app, map_app. simpl seq at 2. simpl map at 2.
  rewrite N2Nat.id.
  exists (map N.of_nat (seq (S (N.to_nat t)) (N.to_nat n - N.to_nat t - 1))).
  split; [reflexivity |]. split; [| split; [| split]].
  - intros x Hx. apply in_map_iff in Hx as [k [<- Hk]].
    apply in_seq in Hk. lia.
  - intros rest' Hrest x Hx.
    destruct (N.to_nat n - N.to_nat t - 1)%nat as [| m] eqn:E;
      [discriminate Hrest |].
    simpl in Hrest. injection Hrest as _ Hrest. subst rest'.
    apply in_map_iff in Hx as [k [<- Hk]]. apply in_seq in Hk. lia.
  - intros Hlt.
    destruct (N.to_nat n - N.to_nat t - 1)%nat as [| m] eqn:E; [lia |].
    simpl. eexists. f_equal. lia.
  - intros Heq.
    replace (N.to_nat n - N.to_nat t - 1)%nat with 0%nat by lia.
    reflexivity.
Qed.

Section Sector.

Variable kInvalidMult : R.
Variable Pack : N -> ascii -> N -> N -> N.
Variable GetEtaFromStrip : N -> ascii -> N -> N -> R -> R.
Variable f : AliFMDSharingFilter.
Variable input : AliESDFMD.
Variable zvtx : R.

Local Abbreviation signals :=
  (readSignals kInvalidMult GetEtaFromStrip f input zvtx).
Local Abbreviation dead :=
  (deadStrip kInvalidMult Pack GetEtaFromStrip f input zvtx).
Local Abbreviation skip :=
  (noSignal kInvalidMult Pack GetEtaFromStrip f input zvtx).
Local Abbreviation body :=
  (stripBody kInvalidMult Pack GetEtaFromStrip f input zvtx).
Local Abbreviation loop :=
  (stripLoop kInvalidMult Pack GetEtaFromStrip f input zvtx).
Local Abbreviation mstep :=
  (mergingStep kInvalidMult Pack GetEtaFromStrip f input zvtx).
Local Abbreviation mloop :=
  (mergingLoop kInvalidMult Pack GetEtaFromStrip f input zvtx).
Local Abbreviation before :=
  (mergingBefore kInvalidMult Pack GetEtaFromStrip f input zvtx).
Local Abbreviation value :=
  (stripValue kInvalidMult Pack GetEtaFromStrip f input zvtx).
Local Abbreviation final :=
  (stripOutput kInvalidMult Pack GetEtaFromStrip f input zvtx).

Lemma dead_noSignal d r s nstr t :
  dead d r s nstr t = true -> skip d r s nstr t = true.
Proof.
  intros H. unfold noSignal, stripMult. rewrite H, Reqb_refl. reflexivity.
Qed.

(** The body acts on the merging state and on the counters as
    [mergingStep] says. *)
Lemma body_control d r s nstr t st :
  (merging (body d r s nstr t st), counts (body d r s nstr t st)) =
  mstep d r s nstr t (merging st, counts st).
Proof.
  unfold stripBody, mergingStep. simpl.
  destruct (skip d r s nstr t); [reflexivity |].
  destruct (mergeStrip f d r (signals d r s nstr t) (merging st) (counts st))
    as [[m' c'] [e |]]; reflexivity.
Qed.

Lemma loop_control d r s nstr ts st :
  (merging (loop d r s nstr ts st), counts (loop d r s nstr ts st)) =
  mloop d r s nstr ts (merging st, counts st).
Proof.
  revert st. induction ts as [| t ts IH]; intros st; [reflexivity |].
  unfold stripLoop, mergingLoop in *. simpl.
  rewrite IH, body_control. reflexivity.
Qed.

(** The body of strip [t] writes multiplicities at [t] and [t - 1] of its
    own sector only. *)
Lemma body_output_other d r s nstr t st d' r' s' t' :
  sameStrip d r s t d' r' s' t' = false ->
  sameStrip d r s (t - 1) d' r' s' t' = false ->
  Multiplicity (output (body d r s nstr t st)) d' r' s' t' =
  Multiplicity (output st) d' r' s' t'.
Proof.
  intros H1 H2. unfold stripBody.
  destruct (skip d r s nstr t).
  - simpl. destruct (Rltb 0 (eTotal (merging st)) && (0 <? t)%N);
      destruct (dead d r s nstr t); destruct (s =? 0)%N;
      rewrite ?Multiplicity_SetMultiplicity, ?Multiplicity_SetEta,
        ?Multiplicity_SetMultiplicity, ?H1, ?H2; try reflexivity;
      rewrite ?Multiplicity_SetEta, ?Multiplicity_SetMultiplicity, ?H1;
      reflexivity.
  - destruct (mergeStrip f d r (signals d r s nstr t) (merging st) (counts st))
      as [[m' c'] [e |]]; simpl;
      destruct (dead d r s nstr t); destruct (s =? 0)%N;
      rewrite ?Multiplicity_SetMultiplicity, ?H1, ?Multiplicity_SetEta,
        ?Multiplicity_SetMultiplicity, ?H1; try reflexivity;
      rewrite ?Multiplicity_SetEta, ?Multiplicity_SetMultiplicity, ?H1;
      reflexivity.
Qed.

Lemma body_output_far d r s nstr t st t' :
  t' <> t -> (t' + 1)%N <> t ->
  Multiplicity (output (body d r s nstr t st)) d r s t' =
  Multiplicity (output st) d r s t'.
Proof.
  intros H1 H2. apply body_output_other; apply sameStrip_other_strip; lia.
Qed.

Lemma body_output_other_sector d r s nstr t st d' r' s' t' :
  d <> d' \/ r <> r' \/ s <> s' ->
  Multiplicity (output (body d r s nstr t st)) d' r' s' t' =
  Multiplicity (output st) d' r' s' t'.
Proof.
  intros H. apply body_output_other; apply sameStrip_other_sector; exact H.
Qed.

(** The value at the strip of the body. *)
Lemma body_output_this d r s nstr t st :
  Multiplicity (output (body d r s nstr t st)) d r s t =
  value d r s nstr t (merging st, counts st).
Proof.
  unfold stripBody, stripValue. simpl fst. simpl snd.
  destruct (dead d r s nstr t) eqn:Hd.
  - rewrite (dead_noSignal _ _ _ _ _ Hd). simpl.
    destruct (Rltb 0 (eTotal (merging st)) && (0 <? t)%N) eqn:Hf.
    + rewrite Multiplicity_SetMultiplicity.
      apply andb_true_iff in Hf as [_ Hf]. apply N.ltb_lt in Hf.
      rewrite sameStrip_other_strip by lia.
      apply Multiplicity_SetMultiplicity_same.
    + apply Multiplicity_SetMultiplicity_same.
  - destruct (skip d r s nstr t) eqn:Hs.
    + simpl. destruct (Rltb 0 (eTotal (merging st)) && (0 <? t)%N) eqn:Hf.
      * rewrite Multiplicity_SetMultiplicity.
        apply andb_true_iff in Hf as [_ Hf]. apply N.ltb_lt in Hf.
        rewrite sameStrip_other_strip by lia.
        destruct (s =? 0)%N; rewrite ?Multiplicity_SetEta;
          apply Multiplicity_SetMultiplicity_same.
      * destruct (s =? 0)%N; rewrite ?Multiplicity_SetEta;
          apply Multiplicity_SetMultiplicity_same.
    + destruct (mergeStrip f d r (signals d r s nstr t) (merging st)
                           (counts st)) as [[m' c'] [e |]]; simpl.
      * apply Multiplicity_SetMultiplicity_same.
      * destruct (s =? 0)%N; rewrite ?Multiplicity_SetEta;
          apply Multiplicity_SetMultiplicity_same.
Qed.

(** The value at the strip before: a pending sum is flushed there when
    the strip of the body has no signal. *)
Lemma body_output_prev d r s nstr t st :
  Multiplicity (output (body d r s nstr (t + 1) st)) d r s t =
  if skip d r s nstr (t + 1) && Rltb 0 (eTotal (merging st))
  then eTotal (merging st)
  else Multiplicity (output st) d r s t.
Proof.
  assert (Hne : sameStrip d r s (t + 1) d r s t = false)
    by (apply sameStrip_other_strip; lia).
  assert (Ht : (0 <? t + 1)%N = true) by (apply N.ltb_lt; lia).
  unfold stripBody.
  destruct (skip d r s nstr (t + 1)) eqn:Hs; simpl.
  - rewrite Ht, andb_true_r.
    destruct (Rltb 0 (eTotal (merging st))).
    + replace (t + 1 - 1)%N with t by lia.
      apply Multiplicity_SetMultiplicity_same.
    + destruct (dead d r s nstr (t + 1)); destruct (s =? 0)%N;
        rewrite ?Multiplicity_SetMultiplicity, ?Hne, ?Multiplicity_SetEta,
          ?Multiplicity_SetMultiplicity, ?Hne; reflexivity.
  - destruct (mergeStrip f d r (signals d r s nstr (t + 1)) (merging st)
                         (counts st)) as [[m' c'] [e |]]; simpl;
      destruct (dead d r s nstr (t + 1)); destruct (s =? 0)%N;
      rewrite ?Multiplicity_SetMultiplicity, ?Hne, ?Multiplicity_SetEta,
        ?Multiplicity_SetMultiplicity, ?Hne; reflexivity.
Qed.

(** The body copies the pseudo-rapidity of its strip in sector 0, into
    the slot of that sector, and writes no other; it leaves the slots of
    the sectors as they are. *)
Lemma body_layout d r s nstr t st :
  fEtaSector (output (body d r s nstr t st)) = fEtaSector (output st).
Proof.
  unfold stripBody.
  destruct (skip d r s nstr t).
  - simpl. destruct (Rltb 0 (eTotal (merging st)) && (0 <? t)%N);
      destruct (dead d r s nstr t); destruct (s =? 0)%N; reflexivity.
  - destruct (mergeStrip f d r (signals d r s nstr t) (merging st) (counts st))
      as [[m' c'] [e |]]; simpl;
      destruct (dead d r s nstr t); destruct (s =? 0)%N; reflexivity.
Qed.

Lemma body_eta d r s nstr t st d' r' k' t' :
  fEta (output (body d r s nstr t st)) d' r' k' t' =
  if (s =? 0)%N && sameStrip d r (fEtaSector (output st) s) t d' r' k' t'
  then Eta input d r s t
  else fEta (output st) d' r' k' t'.
Proof.
  unfold stripBody.
  destruct (skip d r s nstr t).
  - simpl. destruct (Rltb 0 (eTotal (merging st)) && (0 <? t)%N);
      destruct (dead d r s nstr t); destruct (s =? 0)%N; simpl;
      rewrite ?fEta_SetMultiplicity, ?fEta_SetEta; reflexivity.
  - destruct (mergeStrip f d r (signals d r s nstr t) (merging st) (counts st))
      as [[m' c'] [e |]]; simpl;
      destruct (dead d r s nstr t); destruct (s =? 0)%N; simpl;
      rewrite ?fEta_SetMultiplicity, ?fEta_SetEta; reflexivity.
Qed.

(** A run of strips leaves alone what none of its bodies writes. *)
Lemma loop_output_far d r s nstr ts st t' :
  (forall x, In x ts -> t' <> x /\ (t' + 1)%N <> x) ->
  Multiplicity (output (loop d r s nstr ts st)) d r s t' =
  Multiplicity (output st) d r s t'.
Proof.
  revert st. induction ts as [| t ts IH]; intros st Hts; [reflexivity |].
  unfold stripLoop in *. simpl. rewrite IH.
  - apply body_output_far; apply (Hts t); left; reflexivity.
  - intros x Hx. apply Hts. right. exact Hx.
Qed.

Lemma loop_output_other_sector d r s nstr ts st d' r' s' t' :
  d <> d' \/ r <> r' \/ s <> s' ->
  Multiplicity (output (loop d r s nstr ts st)) d' r' s' t' =
  Multiplicity (output st) d' r' s' t'.
Proof.
  intros Hne. revert st. induction ts as [| t ts IH]; intros st;
    [reflexivity |].
  unfold stripLoop in *. simpl. rewrite IH.
  apply body_output_other_sector. exact Hne.
Qed.

Lemma loop_layout d r s nstr ts st :
  fEtaSector (output (loop d r s nstr ts st)) = fEtaSector (output st).
Proof.
  revert st. induction ts as [| t ts IH]; intros st; [reflexivity |].
  unfold stripLoop in *. simpl. rewrite IH. apply body_layout.
Qed.

Lemma loop_eta_other d r s nstr ts st d' r' k' t' :
  s <> 0%N \/ d <> d' \/ r <> r' \/ fEtaSector (output st) s <> k' ->
  fEta (output (loop d r s nstr ts st)) d' r' k' t' =
  fEta (output st) d' r' k' t'.
Proof.
  intros Hne. revert st Hne. induction ts as [| t ts IH]; intros st Hne;
    [reflexivity |].
  unfold stripLoop in *. simpl. rewrite IH by (rewrite body_layout; exact Hne).
  rewrite body_eta.
  destruct (N.eqb_spec s 0) as [Hs | Hs]; [| reflexivity].
  rewrite sameStrip_other_sector; [reflexivity |].
  destruct Hne as [H | H]; [contradiction | exact H].
Qed.

Lemma loop_eta_keep d r s nstr ts st d' r' k' t :
  ~ In t ts ->
  fEta (output (loop d r s nstr ts st)) d' r' k' t =
  fEta (output st) d' r' k' t.
Proof.
  revert st. induction ts as [| x ts IH]; intros st Hts; [reflexivity |].
  unfold stripLoop in *. simpl. rewrite IH.
  - rewrite body_eta, (sameStrip_other_strip d r _ x d' r' k' t).
    + rewrite andb_false_r. reflexivity.
    + intros ->. apply Hts. left. reflexivity.
  - intros H. apply Hts. right. exact H.
Qed.

Lemma loop_eta_sector0 d r nstr ts st t :
  In t ts ->
  fEta (output (loop d r 0 nstr ts st)) d r (fEtaSector (output st) 0) t =
  Eta input d r 0 t.
Proof.
  revert st. induction ts as [| x ts IH]; intros st Hin; [contradiction |].
  destruct (in_dec N.eq_dec t ts) as [Hts | Hts].
  - unfold stripLoop in *. simpl.
    rewrite <- (body_layout d r 0 nstr x st). apply IH. exact Hts.
  - destruct Hin as [-> | Hin]; [| contradiction].
    change (loop d r 0 nstr (t :: ts) st)
      with (loop d r 0 nstr ts (body d r 0 nstr t st)).
    rewrite loop_eta_keep by exact Hts.
    rewrite body_eta, sameStrip_refl. reflexivity.
Qed.

(** The counters have no influence on the merging state nor on the
    values written. *)
Lemma mergeStrip_counts d r sg m c c' :
  fst (fst (mergeStrip f d r sg m c)) = fst (fst (mergeStrip f d r sg m c'))
  /\ snd (mergeStrip f d r sg m c) = snd (mergeStrip f d r sg m c').
Proof.
  unfold mergeStrip.
  repeat match goal with
         | |- context [if ?b then _ else _] => destruct b
         end; split; reflexivity.
Qed.

Lemma mstep_counts d r s nstr t mc mc' :
  fst mc = fst mc' ->
  fst (mstep d r s nstr t mc) = fst (mstep d r s nstr t mc').
Proof.
  intros H. unfold mergingStep. destruct (skip d r s nstr t); [reflexivity |].
  rewrite H. apply mergeStrip_counts.
Qed.

Lemma mloop_counts d r s nstr ts mc mc' :
  fst mc = fst mc' ->
  fst (mloop d r s nstr ts mc) = fst (mloop d r s nstr ts mc').
Proof.
  revert mc mc'. induction ts as [| t ts IH]; intros mc mc' H; [exact H |].
  unfold mergingLoop in *. simpl. apply IH. apply mstep_counts. exact H.
Qed.

Lemma value_counts d r s nstr t mc mc' :
  fst mc = fst mc' ->
  value d r s nstr t mc = value d r s nstr t mc'.
Proof.
  intros H. unfold stripValue. rewrite H.
  destruct (mergeStrip_counts d r (signals d r s nstr t) (fst mc')
                              (snd mc) (snd mc')) as [_ ->].
  reflexivity.
Qed.

(** The multiplicity of strip [t] after the loop over its sector. *)
Lemma sector_output d r s nstr t c o :
  (t < nstr)%N ->
  Multiplicity
    (output (loop d r s nstr (upTo nstr) (sectorStart c o))) d r s t =
  final d r s nstr t.
Proof.
  intros Ht.
  destruct (upTo_split nstr t Ht) as (rest & Hsplit & _ & Hfar & Hnext & Hlast).
  rewrite Hsplit. unfold stripLoop at 1. rewrite fold_left_app. simpl.
  fold (loop d r s nstr (upTo t) (sectorStart c o)).
  set (st := loop d r s nstr (upTo t) (sectorStart c o)).
  assert (Hst : (merging st, counts st) = before d r s nstr t c).
  { unfold st. rewrite loop_control. reflexivity. }
  assert (Hc : fst (before d r s nstr t c) =
               fst (before d r s nstr t (mkCounts 0 0 0))).
  { apply mloop_counts. reflexivity. }
  unfold stripOutput.
  rewrite <- (mstep_counts d r s nstr t _ _ Hc).
  rewrite <- (value_counts d r s nstr t _ _ Hc). rewrite <- Hst.
  destruct (N.ltb_spec (t + 1) nstr) as [Hlt | Hge].
  - destruct (Hnext Hlt) as [rest' ->]. simpl.
    fold (loop d r s nstr rest' (body d r s nstr (t + 1) (body d r s nstr t st))).
    rewrite loop_output_far.
    + rewrite body_output_prev, body_output_this.
      rewrite <- body_control. reflexivity.
    + intros x Hx. pose proof (Hfar rest' eq_refl x Hx). lia.
  - rewrite Hlast by lia. simpl. apply body_output_this.
Qed.

(** Strips beyond the loop are not written. *)
Lemma sector_output_beyond d r s nstr t c o :
  (nstr <= t)%N ->
  Multiplicity
    (output (loop d r s nstr (upTo nstr) (sectorStart c o))) d r s t =
  Multiplicity o d r s t.
Proof.
  intros Ht. rewrite loop_output_far; [reflexivity |].
  intros x Hx. apply in_upTo in Hx. lia.
Qed.

End Sector.

(** *** The whole detector *)

(** A loop whose bodies either leave an observation alone or give it one
    and the same value. *)
Lemma fold_left_region {A V : Type} (g : A -> N -> A) (obs : A -> V)
    (hit : N -> bool) (v : V) (l : list N) (x : A) :
  (forall y k, obs (g y k) = if hit k then v else obs y) ->
  obs (fold_left g l x) = if existsb hit l then v else obs x.
Proof.
  intros Hg. revert x. induction l as [| a l IH]; intros x; [reflexivity |].
  simpl. rewrite IH, Hg. destruct (hit a), (existsb hit l); reflexivity.
Qed.

Lemma existsb_eqb_upTo (n x : N) :
  existsb (fun k => (k =? x)%N) (upTo n) = (x <? n)%N.
Proof.
  destruct (N.ltb_spec x n) as [Hlt | Hge].
  - apply existsb_exists. exists x. split; [apply in_upTo; exact Hlt |].
    apply N.eqb_refl.
  - apply not_true_is_false. intros H.
    apply existsb_exists in H as [k [Hk Hkx]].
    apply N.eqb_eq in Hkx. subst k. apply in_upTo in Hk. lia.
Qed.

Lemma existsb_andb_r (p : N -> bool) (b : bool) (l : list N) :
  existsb (fun k => p k && b) l = existsb p l && b.
Proof.
  induction l as [| a l IH]; [reflexivity |].
  simpl. rewrite IH. destruct (p a), (existsb p l), b; reflexivity.
Qed.

(** The same for bodies that keep an invariant. *)
Lemma fold_left_region_inv {A V : Type} (g : A -> N -> A) (obs : A -> V)
    (inv : A -> Prop) (hit : N -> bool) (v : V) (l : list N) (x : A) :
  (forall y k, inv y ->
     inv (g y k) /\ obs (g y k) = if hit k then v else obs y) ->
  inv x ->
  obs (fold_left g l x) = if existsb hit l then v else obs x.
Proof.
  intros Hg. revert x. induction l as [| a l IH]; intros x Hx; [reflexivity |].
  destruct (Hg x a Hx) as [Hi Ho].
  simpl. rewrite IH by exact Hi. rewrite Ho.
  destruct (hit a), (existsb hit l); reflexivity.
Qed.

Section Pass.

Variable kInvalidMult : R.
Variable kInvalidEta : R.
Variable Pack : N -> ascii -> N -> N -> N.
Variable GetEtaFromStrip : N -> ascii -> N -> N -> R -> R.
Variable f : AliFMDSharingFilter.
Variable input : AliESDFMD.
Variable zvtx : R.

Local Abbreviation final :=
  (stripOutput kInvalidMult Pack GetEtaFromStrip f input zvtx).
Local Abbreviation sector :=
  (sectorBody kInvalidMult Pack GetEtaFromStrip f input zvtx).
Local Abbreviation sectors :=
  (sectorLoop kInvalidMult Pack GetEtaFromStrip f input zvtx).
Local Abbreviation ring :=
  (ringBody kInvalidMult Pack GetEtaFromStrip f input zvtx).
Local Abbreviation detector :=
  (detectorBody kInvalidMult Pack GetEtaFromStrip f input zvtx).
Local Abbreviation loops :=
  (filterLoops kInvalidMult Pack GetEtaFromStrip f input zvtx).

(** The five rings in the order of the loops, each with its container at
    hand. *)
Local Abbreviation pass co :=
  (sectors 3 "O" 40 256
     (sectors 3 "I" 20 512
        (sectors 2 "O" 40 256
           (sectors 2 "I" 20 512
              (sectors 1 "I" 20 512 co))))).

Lemma sector_mult d r nstr s co d' r' s' t' :
  Multiplicity (snd (sector d r nstr s co)) d' r' s' t' =
  if (s =? s')%N && ((d =? d')%N && Ascii.eqb r r' && (t' <? nstr)%N)
  then final d' r' s' nstr t'
  else Multiplicity (snd co) d' r' s' t'.
Proof.
  unfold sectorBody. simpl snd.
  destruct (N.eqb_spec s s') as [<- | Hs]; simpl;
    [| apply loop_output_other_sector; auto].
  destruct (N.eqb_spec d d') as [<- | Hd]; simpl;
    [| apply loop_output_other_sector; auto].
  destruct (Ascii.eqb_spec r r') as [<- | Hr]; simpl;
    [| apply loop_output_other_sector; auto].
  destruct (N.ltb_spec t' nstr) as [Hlt | Hge].
  - apply sector_output. exact Hlt.
  - apply sector_output_beyond. exact Hge.
Qed.

Lemma sector_layout d r nstr s co :
  fEtaSector (snd (sector d r nstr s co)) = fEtaSector (snd co).
Proof.
  unfold sectorBody. simpl snd.
  apply (loop_layout kInvalidMult Pack GetEtaFromStrip f input zvtx
           d r s nstr (upTo nstr) (sectorStart (fst co) (snd co))).
Qed.

Lemma sector_eta d r nstr s co d' r' k' t' :
  fEta (snd (sector d r nstr s co)) d' r' k' t' =
  if (s =? 0)%N
     && ((d =? d')%N && Ascii.eqb r r' && (fEtaSector (snd co) 0 =? k')%N
         && (t' <? nstr)%N)
  then Eta input d' r' 0 t'
  else fEta (snd co) d' r' k' t'.
Proof.
  unfold sectorBody. simpl snd.
  destruct (N.eqb_spec s 0) as [-> | Hs]; simpl;
    [| apply loop_eta_other; auto].
  destruct (N.eqb_spec d d') as [<- | Hd]; simpl;
    [| apply loop_eta_other; auto].
  destruct (Ascii.eqb_spec r r') as [<- | Hr]; simpl;
    [| apply loop_eta_other; auto].
  destruct (N.eqb_spec (fEtaSector (snd co) 0) k') as [<- | Hk]; simpl;
    [| apply loop_eta_other; right; right; right; exact Hk].
  destruct (N.ltb_spec t' nstr) as [Hlt | Hge].
  - apply (loop_eta_sector0 kInvalidMult Pack GetEtaFromStrip f input zvtx
             d r nstr (upTo nstr) (sectorStart (fst co) (snd co)) t').
    apply in_upTo. exact Hlt.
  - apply loop_eta_keep. intros H. apply in_upTo in H. lia.
Qed.

(** The loop over the sectors of a ring. *)
Lemma sectors_mult d r nsec nstr co d' r' s' t' :
  Multiplicity (snd (sectors d r nsec nstr co)) d' r' s' t' =
  if (s' <? nsec)%N && ((d =? d')%N && Ascii.eqb r r' && (t' <? nstr)%N)
  then final d' r' s' nstr t'
  else Multiplicity (snd co) d' r' s' t'.
Proof.
  unfold sectorLoop.
  rewrite (fold_left_region
             (fun co s => sector d r nstr s co)
             (fun co => Multiplicity (snd co) d' r' s' t')
             (fun s => (s =? s')%N
                       && ((d =? d')%N && Ascii.eqb r r' && (t' <? nstr)%N))
             (final d' r' s' nstr t')).
  - rewrite existsb_andb_r, existsb_eqb_upTo. reflexivity.
  - intros y k. apply sector_mult.
Qed.

Lemma sectors_layout d r nsec nstr co :
  fEtaSector (snd (sectors d r nsec nstr co)) = fEtaSector (snd co).
Proof.
  unfold sectorLoop. generalize (upTo nsec). intros l. revert co.
  induction l as [| s l IH]; intros co; [reflexivity |].
  simpl. rewrite IH. apply sector_layout.
Qed.

Lemma sectors_eta d r nsec nstr co d' r' k' t' :
  fEta (snd (sectors d r nsec nstr co)) d' r' k' t' =
  if (0 <? nsec)%N
     && ((d =? d')%N && Ascii.eqb r r' && (fEtaSector (snd co) 0 =? k')%N
         && (t' <? nstr)%N)
  then Eta input d' r' 0 t'
  else fEta (snd co) d' r' k' t'.
Proof.
  unfold sectorLoop.
  rewrite (fold_left_region_inv
             (fun co s => sector d r nstr s co)
             (fun y => fEta (snd y) d' r' k' t')
             (fun y => fEtaSector (snd y) = fEtaSector (snd co))
             (fun s => (s =? 0)%N
                       && ((d =? d')%N && Ascii.eqb r r'
                           && (fEtaSector (snd co) 0 =? k')%N
                           && (t' <? nstr)%N))
             (Eta input d' r' 0 t')).
  - rewrite existsb_andb_r, existsb_eqb_upTo. reflexivity.
  - intros y k Hy. split.
    + rewrite sector_layout. exact Hy.
    + rewrite sector_eta, Hy. reflexivity.
  - reflexivity.
Qed.

(** Decides which of the five rings an address belongs to. *)
Ltac ringCases d r s t :=
  unfold validStrip, validRing, sectorsOf;
  rewrite (N.eqb_sym d 1), (N.eqb_sym d 2), (N.eqb_sym d 3),
    (Ascii.eqb_sym r "I"), (Ascii.eqb_sym r "O");
  destruct (N.eqb_spec 1 d), (N.eqb_spec 2 d), (N.eqb_spec 3 d);
  try lia;
  destruct (Ascii.eqb_spec "I" r), (Ascii.eqb_spec "O" r);
  try congruence; subst;
  change (stripsOf "I") with 512%N; change (stripsOf "O") with 256%N;
  cbv beta iota;
  repeat match goal with
         | |- context [(s <? ?n)%N] => destruct (s <? n)%N
         | |- context [(t <? ?n)%N] => destruct (t <? n)%N
         | |- context [(?a =? ?b)%N] => destruct (a =? b)%N
         end;
  cbv beta iota delta [andb orb];
  reflexivity.

(** Every strip of the detector holds the value of [stripOutput] after the
    loops, and nothing else is written. *)
Lemma pass_mult co d r s t :
  Multiplicity (snd (pass co)) d r s t =
  if validStrip d r s t then final d r s (stripsOf r) t
  else Multiplicity (snd co) d r s t.
Proof. rewrite !sectors_mult. ringCases d r s t. Qed.

Lemma pass_layout co : fEtaSector (snd (pass co)) = fEtaSector (snd co).
Proof. rewrite !sectors_layout. reflexivity. Qed.

(** The slot of sector 0 holds the pseudo-rapidity of the input for every
    strip of the detector, and no other slot is written. *)
Lemma pass_eta co d r k t :
  fEta (snd (pass co)) d r k t =
  if validRing d r && (fEtaSector (snd co) 0 =? k)%N && (t <? stripsOf r)%N
  then Eta input d r 0 t
  else fEta (snd co) d r k t.
Proof.
  rewrite !sectors_eta, !sectors_layout.
  change (0 <? 20)%N with true. change (0 <? 40)%N with true.
  ringCases d r k t.
Qed.

(** A ring with its container runs the loop over its sectors; a ring
    without container ends the run. *)
Lemma ring_Some d q co :
  GetRingHistos (fRingHistos f) d (ringName q) <> None ->
  ring d q co = Some (sectors d (ringName q) (ringSectors q) (ringStrips q) co).
Proof.
  intros H. unfold ringBody.
  destruct (GetRingHistos (fRingHistos f) d (ringName q));
    [reflexivity | contradiction].
Qed.

Lemma ring_None d q co :
  GetRingHistos (fRingHistos f) d (ringName q) = None -> ring d q co = None.
Proof. intros H. unfold ringBody. rewrite H. reflexivity. Qed.

Lemma loops_unfold co :
  loops co =
  match
    match ring 1 0 co with
    | Some co =>
        match ring 2 0 co with
        | Some co => ring 2 1 co
        | None => None
        end
    | None => None
    end
  with
  | Some co =>
      match ring 3 0 co with
      | Some co => ring 3 1 co
      | None => None
      end
  | None => None
  end.
Proof. reflexivity. Qed.

Lemma loops_Some co : ownsRingHistos f -> loops co = Some (pass co).
Proof.
  intros H. rewrite loops_unfold.
  rewrite (ring_Some 1 0) by (apply H; reflexivity). cbv beta iota.
  rewrite (ring_Some 2 0) by (apply H; reflexivity). cbv beta iota.
  rewrite (ring_Some 2 1) by (apply H; reflexivity). cbv beta iota.
  rewrite (ring_Some 3 0) by (apply H; reflexivity). cbv beta iota.
  rewrite (ring_Some 3 1) by (apply H; reflexivity).
  reflexivity.
Qed.

Lemma loops_None co d r :
  validRing d r = true ->
  GetRingHistos (fRingHistos f) d r = None ->
  loops co = None.
Proof.
  intros Hvalid Hnone. rewrite loops_unfold.
  assert (Hq : exists q, (q = 0%N \/ q = 1%N) /\ r = ringName q
                         /\ (d = 1%N /\ q = 0%N \/ d = 2%N \/ d = 3%N)).
  { revert Hvalid. unfold validRing.
    destruct (N.eqb_spec d 1), (N.eqb_spec d 2), (N.eqb_spec d 3);
      try lia;
      destruct (Ascii.eqb_spec r "I"), (Ascii.eqb_spec r "O");
      try congruence; try discriminate; intros _; subst;
      first [ exists 0%N; repeat split; auto; fail
            | exists 1%N; repeat split; auto ]. }
  destruct Hq as (q & Hq & -> & Hd).
  assert (Hr : forall c, ring d q c = None)
    by (intros c; apply ring_None; exact Hnone).
  destruct Hd as [[-> ->] | [-> | ->]]; [| destruct Hq as [-> | ->] ..];
    repeat match goal with
           | |- context [ring ?d' ?q' ?c] =>
               first [ rewrite (Hr c) | destruct (ring d' q' c) ]
           end; reflexivity.
Qed.

(** A run of [Filter] with the containers at hand ends with the flag set
    and with an output object that holds, at every strip of the detector,
    the value of [stripOutput], and the pseudo-rapidity of the input in
    the slot of sector 0; without a container the run has no result. *)
Lemma Filter_run lowFlux out :
  ownsRingHistos f ->
  exists res,
    Filter kInvalidMult kInvalidEta Pack GetEtaFromStrip f input zvtx
           lowFlux out = Some (true, res)
    /\ (forall d r s t,
          Multiplicity res d r s t =
          if validStrip d r s t then final d r s (stripsOf r) t
          else kInvalidMult)
    /\ (forall d r s t,
          Eta res d r s t =
          if validRing d r && (fEtaSector out 0 =? fEtaSector out s)%N
             && (t <? stripsOf r)%N
          then Eta input d r 0 t
          else kInvalidEta).
Proof.
  intros H. unfold Filter. cbv zeta. rewrite (loops_Some _ H).
  eexists. split; [reflexivity |]. split.
  - intros d r s t. rewrite pass_mult. reflexivity.
  - intros d r s t. unfold Eta at 1. rewrite pass_layout, pass_eta.
    reflexivity.
Qed.

Lemma Filter_fails lowFlux out d r :
  validRing d r = true ->
  GetRingHistos (fRingHistos f) d r = None ->
  Filter kInvalidMult kInvalidEta Pack GetEtaFromStrip f input zvtx
         lowFlux out = None.
Proof.
  intros Hvalid Hnone. unfold Filter. cbv zeta.
  rewrite (loops_None _ d r Hvalid Hnone). reflexivity.
Qed.

(** The loops over a filter with its containers, ring by ring. *)
Lemma loops_pass co :
  ownsRingHistos f ->
  loops co =
  Some (sectors 3 "O" 40 256
          (sectors 3 "I" 20 512
             (sectors 2 "O" 40 256
                (sectors 2 "I" 20 512
                   (sectors 1 "I" 20 512 co))))).
Proof. apply loops_Some. Qed.

End Pass.

(** *** What the value of a strip depends on *)

Lemma validStrip_strip d r s t t' :
  validStrip d r s t = true -> (t' < stripsOf r)%N ->
  validStrip d r s t' = true.
Proof.
  unfold validStrip. intros H Ht.
  apply andb_true_iff in H as [H _]. rewrite H.
  apply N.ltb_lt. exact Ht.
Qed.

Lemma validStrip_lt d r s t :
  validStrip d r s t = true -> (t < stripsOf r)%N.
Proof.
  unfold validStrip. intros H.
  apply andb_true_iff in H as [_ H]. apply N.ltb_lt. exact H.
Qed.


Section Window.

Variable kInvalidMult : R.
Variable kInvalidEta : R.
Variable Pack : N -> ascii -> N -> N -> N.
Variable GetEtaFromStrip : N -> ascii -> N -> N -> R -> R.
Variable f : AliFMDSharingFilter.
Variable zvtx : R.
Variables in1 in2 : AliESDFMD.
Variable d : N.
Variable r : ascii.
Variable s : N.

Hypothesis sameFlag : IsAngleCorrected in1 = IsAngleCorrected in2.

Local Abbreviation agree := (agreeAt in1 in2 d r s).

Lemma SignalInStrip_agree t :
  agree t ->
  SignalInStrip kInvalidMult f in1 d r s t =
  SignalInStrip kInvalidMult f in2 d r s t.
Proof.
  intros [Hm He]. unfold SignalInStrip. rewrite Hm, He, sameFlag.
  reflexivity.
Qed.

Lemma sigMult_agree nstr t :
  agree t ->
  sigMult (readSignals kInvalidMult GetEtaFromStrip f in1 zvtx d r s nstr t) =
  sigMult (readSignals kInvalidMult GetEtaFromStrip f in2 zvtx d r s nstr t).
Proof.
  intros Ht. pose proof (SignalInStrip_agree t Ht) as Hs.
  destruct Ht as [_ He].
  unfold readSignals. rewrite Hs, He.
  destruct (fRecalculateEta f); [| reflexivity].
  destruct (Rltb 0 (SignalInStrip kInvalidMult f in2 d r s t)
            && negb (Reqb (SignalInStrip kInvalidMult f in2 d r s t)
                          kInvalidMult)); reflexivity.
Qed.

Lemma readSignals_agree nstr t :
  agree t ->
  ((t + 1 < nstr)%N -> agree (t + 1)) ->
  ((t + 2 < nstr)%N -> agree (t + 2)) ->
  readSignals kInvalidMult GetEtaFromStrip f in1 zvtx d r s nstr t =
  readSignals kInvalidMult GetEtaFromStrip f in2 zvtx d r s nstr t.
Proof.
  intros H0 H1 H2.
  pose proof (SignalInStrip_agree _ H0) as Hs0.
  destruct H0 as [_ He].
  unfold readSignals. rewrite Hs0, He.
  destruct (N.ltb_spec t (nstr - 1)) as [Hlt1 | _];
    [rewrite (SignalInStrip_agree (t + 1)) by (apply H1; lia) |];
    (destruct (N.ltb_spec t (nstr - 2)) as [Hlt2 | _];
     [rewrite (SignalInStrip_agree (t + 2)) by (apply H2; lia) |]);
    reflexivity.
Qed.

Lemma deadStrip_agree nstr t :
  agree t ->
  deadStrip kInvalidMult Pack GetEtaFromStrip f in1 zvtx d r s nstr t =
  deadStrip kInvalidMult Pack GetEtaFromStrip f in2 zvtx d r s nstr t.
Proof.
  intros Ht. unfold deadStrip. rewrite (sigMult_agree nstr t Ht).
  reflexivity.
Qed.

Lemma noSignal_agree nstr t :
  agree t ->
  noSignal kInvalidMult Pack GetEtaFromStrip f in1 zvtx d r s nstr t =
  noSignal kInvalidMult Pack GetEtaFromStrip f in2 zvtx d r s nstr t.
Proof.
  intros Ht. unfold noSignal, stripMult.
  rewrite (deadStrip_agree nstr t Ht), (sigMult_agree nstr t Ht).
  reflexivity.
Qed.

Lemma mergingStep_agree nstr t mc :
  agree t ->
  ((t + 1 < nstr)%N -> agree (t + 1)) ->
  ((t + 2 < nstr)%N -> agree (t + 2)) ->
  mergingStep kInvalidMult Pack GetEtaFromStrip f in1 zvtx d r s nstr t mc =
  mergingStep kInvalidMult Pack GetEtaFromStrip f in2 zvtx d r s nstr t mc.
Proof.
  intros H0 H1 H2. unfold mergingStep.
  rewrite (noSignal_agree nstr t H0), (readSignals_agree nstr t H0 H1 H2).
  reflexivity.
Qed.

Lemma mergingLoop_agree nstr ts mc :
  (forall t, In t ts ->
     agree t /\ ((t + 1 < nstr)%N -> agree (t + 1))
     /\ ((t + 2 < nstr)%N -> agree (t + 2))) ->
  mergingLoop kInvalidMult Pack GetEtaFromStrip f in1 zvtx d r s nstr ts mc =
  mergingLoop kInvalidMult Pack GetEtaFromStrip f in2 zvtx d r s nstr ts mc.
Proof.
  revert mc. induction ts as [| t ts IH]; intros mc Hts; [reflexivity |].
  unfold mergingLoop in *. simpl.
  destruct (Hts t (or_introl eq_refl)) as (H0 & H1 & H2).
  rewrite (mergingStep_agree nstr t mc H0 H1 H2).
  apply IH. intros x Hx. apply Hts. right. exact Hx.
Qed.

Lemma stripValue_agree nstr t mc :
  agree t ->
  ((t + 1 < nstr)%N -> agree (t + 1)) ->
  ((t + 2 < nstr)%N -> agree (t + 2)) ->
  stripValue kInvalidMult Pack GetEtaFromStrip f in1 zvtx d r s nstr t mc =
  stripValue kInvalidMult Pack GetEtaFromStrip f in2 zvtx d r s nstr t mc.
Proof.
  intros H0 H1 H2. unfold stripValue.
  rewrite (deadStrip_agree nstr t H0), (noSignal_agree nstr t H0),
    (readSignals_agree nstr t H0 H1 H2).
  reflexivity.
Qed.

(** The value of strip [t] is a function of the strips [0 .. t + 2] of
    its sector, as far as the ring has them. *)
Lemma stripOutput_agree nstr t :
  (t < nstr)%N ->
  (forall x, (x <= t + 2)%N -> (x < nstr)%N -> agree x) ->
  stripOutput kInvalidMult Pack GetEtaFromStrip f in1 zvtx d r s nstr t =
  stripOutput kInvalidMult Pack GetEtaFromStrip f in2 zvtx d r s nstr t.
Proof.
  intros Ht Hw. unfold stripOutput, mergingBefore.
  rewrite (mergingLoop_agree nstr (upTo t)).
  - rewrite (mergingStep_agree nstr t), (stripValue_agree nstr t)
      by (try intros ?; apply Hw; lia).
    destruct (N.ltb_spec (t + 1) nstr) as [Hlt | _]; [| reflexivity].
    rewrite (noSignal_agree nstr (t + 1)) by (apply Hw; lia).
    reflexivity.
  - intros x Hx. apply in_upTo in Hx.
    repeat split; try intros ?; apply Hw; lia.
Qed.

End Window.

(** A filter that holds the five containers of the named constructor has
    the container of every ring. *)
Lemma namedRingHistos_owns f :
  fRingHistos f = namedRingHistos -> ownsRingHistos f.
Proof.
  intros E d r. rewrite E. unfold validRing.
  destruct (N.eqb_spec d 1) as [-> | H1];
    [destruct (Ascii.eqb_spec r "I") as [-> | Hr]; discriminate |].
  destruct (N.eqb_spec d 2) as [-> | H2];
    [destruct (Ascii.eqb_spec r "I") as [-> | Hr]; [discriminate |];
     destruct (Ascii.eqb_spec r "O") as [-> | Hr']; discriminate |].
  destruct (N.eqb_spec d 3) as [-> | H3];
    [destruct (Ascii.eqb_spec r "I") as [-> | Hr]; [discriminate |];
     destruct (Ascii.eqb_spec r "O") as [-> | Hr']; discriminate |].
  discriminate.
Qed.

Lemma exampleFilter_owns angles dead :
  ownsRingHistos (exampleFilter angles dead).
Proof. apply namedRingHistos_owns. reflexivity. Qed.

(** The run of a filter with its containers, seen at sector 0 of
    FMD1i. *)
Lemma Filter_first_sector kInvalidMult kInvalidEta Pack GetEtaFromStrip
    f input zvtx lowFlux out :
  ownsRingHistos f ->
  exists res,
    Filter kInvalidMult kInvalidEta Pack GetEtaFromStrip f input zvtx
           lowFlux out = Some (true, res)
    /\ forall t, (t < 512)%N ->
         Multiplicity res 1 "I" 0 t =
         stripOutput kInvalidMult Pack GetEtaFromStrip f input zvtx
                     1 "I" 0 512 t.
Proof.
  intros Howns.
  destruct (Filter_run kInvalidMult kInvalidEta Pack GetEtaFromStrip f
              input zvtx lowFlux out Howns) as (res & E & Hm & _).
  exists res. split; [exact E |]. intros t Ht. rewrite Hm.
  assert (Hv : validStrip 1 "I" 0 t = true).
  { unfold validStrip. apply andb_true_iff.
    split; [reflexivity | apply N.ltb_lt; exact Ht]. }
  rewrite Hv. reflexivity.
Qed.

(** C6, as the code has it.  [Filter] is a function of its arguments, and
    the multiplicity it leaves at strip [t] of a sector is the same for two
    ESD objects that agree on the strips [0 .. t + 2] of that sector,
    whatever they hold in later strips and in other sectors, and whatever
    the output object held before.  Both runs are those of a filter with
    its ring containers, and both return. *)
Theorem Filter_output_depends_on_sector_prefix
    (kInvalidMult kInvalidEta : R) (Pack : N -> ascii -> N -> N -> N)
    (GetEtaFromStrip : N -> ascii -> N -> N -> R -> R)
    (f : AliFMDSharingFilter) (zvtx : R) (in1 in2 : AliESDFMD)
    (lowFlux1 lowFlux2 : bool) (out1 out2 : AliESDFMD)
    (d : N) (r : ascii) (s t : N) :
  ownsRingHistos f ->
  IsAngleCorrected in1 = IsAngleCorrected in2 ->
  (forall x, (x <= t + 2)%N -> agreeAt in1 in2 d r s x) ->
  exists res1 res2,
    Filter kInvalidMult kInvalidEta Pack GetEtaFromStrip f in1 zvtx
           lowFlux1 out1 = Some (true, res1)
    /\ Filter kInvalidMult kInvalidEta Pack GetEtaFromStrip f in2 zvtx
              lowFlux2 out2 = Some (true, res2)
    /\ Multiplicity res1 d r s t = Multiplicity res2 d r s t.
Proof.
  intros Howns Hflag Hw.
  destruct (Filter_run kInvalidMult kInvalidEta Pack GetEtaFromStrip f in1
              zvtx lowFlux1 out1 Howns) as (res1 & E1 & Hm1 & _).
  destruct (Filter_run kInvalidMult kInvalidEta Pack GetEtaFromStrip f in2
              zvtx lowFlux2 out2 Howns) as (res2 & E2 & Hm2 & _).
  exists res1, res2. split; [exact E1 |]. split; [exact E2 |].
  rewrite Hm1, Hm2.
  destruct (validStrip d r s t) eqn:Hvalid; [| reflexivity].
  apply stripOutput_agree; [exact Hflag | | ].
  - apply (validStrip_lt d r s t Hvalid).
  - intros x Hx _. apply Hw. exact Hx.
Qed.

(** C7, as the code has it.  [Filter] has no error return: a filter that
    holds the container of every ring returns true, whatever the ESD
    object, the vertex and its settings are.  A filter without the
    container of a ring returns nothing: the run ends at the null
    pointer. *)
Theorem Filter_returns_true
    (kInvalidMult kInvalidEta : R) (Pack : N -> ascii -> N -> N -> N)
    (GetEtaFromStrip : N -> ascii -> N -> N -> R -> R)
    (f : AliFMDSharingFilter) (input : AliESDFMD) (zvtx : R)
    (lowFlux : bool) (output : AliESDFMD) :
  (ownsRingHistos f ->
     exists res,
       Filter kInvalidMult kInvalidEta Pack GetEtaFromStrip f input zvtx
              lowFlux output = Some (true, res))
  /\ (forall d r,
        validRing d r = true ->
        GetRingHistos (fRingHistos f) d r = None ->
        Filter kInvalidMult kInvalidEta Pack GetEtaFromStrip f input zvtx
               lowFlux output = None).
Proof.
  split.
  - intros Howns.
    destruct (Filter_run kInvalidMult kInvalidEta Pack GetEtaFromStrip f
                input zvtx lowFlux output Howns) as (res & E & _).
    exists res. exact E.
  - intros d r. apply Filter_fails.
Qed.

(** C9, as the code has it.  [Filter] calls [SetEta] at the strips of
    sector 0 only, with the pseudo-rapidity that the input holds there,
    while it writes the multiplicity of every strip.  What the output
    returns as the pseudo-rapidity of a strip of another sector depends
    on the ESD object: it is what [Clear] left when the object keeps the
    pseudo-rapidity of that sector apart from the one of sector 0, and
    the value copied at sector 0 when the two share their slot. *)
Theorem Filter_copies_eta_of_sector_0_only
    (kInvalidMult kInvalidEta : R) (Pack : N -> ascii -> N -> N -> N)
    (GetEtaFromStrip : N -> ascii -> N -> N -> R -> R)
    (f : AliFMDSharingFilter) (input : AliESDFMD) (zvtx : R)
    (lowFlux : bool) (out : AliESDFMD) (d : N) (r : ascii) (s t : N) :
  ownsRingHistos f ->
  validStrip d r s t = true ->
  exists res,
    Filter kInvalidMult kInvalidEta Pack GetEtaFromStrip f input zvtx
           lowFlux out = Some (true, res)
    /\ Eta res d r 0 t = Eta input d r 0 t
    /\ (fEtaSector out s <> fEtaSector out 0 ->
          Eta res d r s t = Eta (Clear kInvalidMult kInvalidEta out) d r s t)
    /\ (fEtaSector out s = fEtaSector out 0 ->
          Eta res d r s t = Eta input d r 0 t)
    /\ Multiplicity res d r s t =
       stripOutput kInvalidMult Pack GetEtaFromStrip f input zvtx
                   d r s (stripsOf r) t.
Proof.
  intros Howns Hvalid.
  destruct (Filter_run kInvalidMult kInvalidEta Pack GetEtaFromStrip f
              input zvtx lowFlux out Howns) as (res & E & Hm & He).
  exists res. split; [exact E |].
  assert (Hr : validRing d r = true /\ (t <? stripsOf r)%N = true).
  { unfold validStrip in Hvalid.
    apply andb_true_iff in Hvalid as [Hvalid Ht].
    apply andb_true_iff in Hvalid as [Hvalid _]. split; assumption. }
  destruct Hr as [Hr Ht].
  rewrite !He, Hm, Hvalid, Hr, Ht, N.eqb_refl.
  repeat split.
  - intros Hne. apply not_eq_sym in Hne. apply N.eqb_neq in Hne.
    rewrite Hne. reflexivity.
  - intros <-. rewrite N.eqb_refl. reflexivity.
Qed.

(** *** The clusters of a sector *)

Section Clusters.

Variable kInvalidMult : R.
Variable kInvalidEta : R.
Variable Pack : N -> ascii -> N -> N -> N.
Variable GetEtaFromStrip : N -> ascii -> N -> N -> R -> R.
Variable f : AliFMDSharingFilter.
Variable input : AliESDFMD.
Variable zvtx : R.

Local Abbreviation signals :=
  (readSignals kInvalidMult GetEtaFromStrip f input zvtx).
Local Abbreviation dead :=
  (deadStrip kInvalidMult Pack GetEtaFromStrip f input zvtx).
Local Abbreviation skip :=
  (noSignal kInvalidMult Pack GetEtaFromStrip f input zvtx).
Local Abbreviation mstep :=
  (mergingStep kInvalidMult Pack GetEtaFromStrip f input zvtx).
Local Abbreviation before :=
  (mergingBefore kInvalidMult Pack GetEtaFromStrip f input zvtx).
Local Abbreviation value :=
  (stripValue kInvalidMult Pack GetEtaFromStrip f input zvtx).
Local Abbreviation final :=
  (stripOutput kInvalidMult Pack GetEtaFromStrip f input zvtx).

(** The seven ways through [mergeStrip]: a third strip, a pending sum
    stored as a double, a used strip, a double at once, a new pending sum,
    a single, and a strip below the cuts. *)
Lemma mergeStrip_cases d r sg m c :
  (0 < eTotal m
   /\ mergeStrip f d r sg m c =
        (mkMerging true (-1) false,
         mkCounts (nSingle c) (nDouble c) (nTriple c + 1),
         Some (eTotal m + sigNext sg)))
  \/ (0 < eTotal m
      /\ mergeStrip f d r sg m c =
           (mkMerging false (-1) (twoLow m),
            mkCounts (nSingle c) (nDouble c + 1) (nTriple c),
            Some (eTotal m)))
  \/ (~ 0 < eTotal m /\ used m = true
      /\ mergeStrip f d r sg m c =
           (mkMerging false (eTotal m) (twoLow m), c, None))
  \/ (~ 0 < eTotal m /\ used m = false
      /\ exists tl,
           mergeStrip f d r sg m c =
             (mkMerging true (eTotal m) tl,
              mkCounts (nSingle c) (nDouble c + 1) (nTriple c),
              Some (sigMult sg + sigNext sg)))
  \/ (~ 0 < eTotal m /\ used m = false
      /\ exists tl,
           mergeStrip f d r sg m c =
             (mkMerging false (sigMult sg + sigNext sg) tl, c, Some 0))
  \/ (~ 0 < eTotal m /\ used m = false
      /\ mergeStrip f d r sg m c =
           (m, mkCounts (nSingle c + 1) (nDouble c) (nTriple c),
            Some (sigMult sg)))
  \/ (~ 0 < eTotal m /\ used m = false
      /\ exists e, ~ 0 < e /\ mergeStrip f d r sg m c = (m, c, Some e)).
Proof.
  unfold mergeStrip.
  destruct (Rltb 0 (eTotal m)) eqn:Hp.
  - apply Rltb_lt in Hp.
    destruct (fThreeStripSharing f && nextValid f d r sg
              && (nextSmall f d r sg || twoLow m)); auto.
  - apply Rltb_nlt in Hp. right. right.
    destruct (used m) eqn:Hu; [auto |]. right.
    destruct (thisValid f d r sg && nextValid f d r sg
              && (thisSmall f d r sg || nextSmall f d r sg)).
    + destruct (Rltb (sigNext sg) (sigMult sg)
                && Rltb (sigNextNext sg) (GetLowCut f d r (sigEta sg)));
        eauto 8.
    + right. right.
      destruct (thisValid f d r sg) eqn:Hv.
      * destruct (Rltb 0 (sigMult sg)) eqn:Hs; [auto |].
        apply Rltb_nlt in Hs. right. eauto.
      * rewrite (Rltb_false 0 0) by lra. right.
        split; [exact Hp |]. split; [reflexivity |].
        exists 0. split; [lra | reflexivity].
Qed.

Lemma before_succ d r s nstr t c :
  before d r s nstr (t + 1) c = mstep d r s nstr t (before d r s nstr t c).
Proof.
  unfold mergingBefore, mergingLoop.
  rewrite upTo_succ, fold_left_app. reflexivity.
Qed.

(** A pending sum on entry of a strip is the sum of the two signals that
    the strip before has read, and that strip has been written as zero. *)
Lemma pending_origin d r s nstr t c :
  0 < eTotal (fst (before d r s nstr t c)) ->
  exists t0,
    t = (t0 + 1)%N
    /\ skip d r s nstr t0 = false
    /\ eTotal (fst (before d r s nstr t c)) =
         sigMult (signals d r s nstr t0) + sigNext (signals d r s nstr t0)
    /\ value d r s nstr t0 (before d r s nstr t0 c) = 0.
Proof.
  intros Hp. destruct (N.eq_dec t 0%N) as [-> | Hne].
  - unfold mergingBefore in Hp. rewrite upTo_0 in Hp. simpl in Hp. lra.
  - assert (Ht : t = (t - 1 + 1)%N) by lia.
    revert Hp. rewrite Ht. generalize (t - 1)%N. clear t Hne Ht.
    intros t0 Hp. exists t0.
    rewrite before_succ in Hp |- *. unfold mergingStep in Hp |- *.
    split; [reflexivity |].
    destruct (skip d r s nstr t0) eqn:Hs; [simpl in Hp; lra |].
    split; [reflexivity |].
    destruct (noSignal_false _ _ _ _ _ _ _ _ _ _ _ Hs) as [Hd _].
    unfold stripValue. rewrite Hd, Hs.
    destruct (mergeStrip_cases d r (signals d r s nstr t0)
                (fst (before d r s nstr t0 c)) (snd (before d r s nstr t0 c)))
      as [[H0 E] | [[H0 E] | [(H0 & H1 & E) | [(H0 & H1 & [tl E])
         | [(H0 & H1 & [tl E]) | [(H0 & H1 & E) | (H0 & H1 & [e [He E]])]]]]]];
      rewrite E in Hp |- *; simpl in Hp |- *; try lra.
    split; [reflexivity | apply mergedEnergy_0].
Qed.

(** A strip that its predecessor has used is written as zero, or as
    invalid when it is dead, and leaves no pending sum. *)
Lemma used_strip d r s nstr t mc :
  used (fst mc) = true ->
  ~ 0 < eTotal (fst mc) ->
  (value d r s nstr t mc = 0 \/ value d r s nstr t mc = kInvalidMult)
  /\ ~ 0 < eTotal (fst (mstep d r s nstr t mc)).
Proof.
  intros Hu Hp. unfold stripValue, mergingStep.
  destruct (dead d r s nstr t) eqn:Hd.
  - rewrite (dead_noSignal _ _ _ _ _ _ _ _ _ _ _ Hd). simpl.
    split; [right; reflexivity | lra].
  - destruct (skip d r s nstr t) eqn:Hs.
    + simpl. split; [left; reflexivity | lra].
    + destruct (mergeStrip_cases d r (signals d r s nstr t) (fst mc) (snd mc))
        as [[H0 E] | [[H0 E] | [(H0 & H1 & E) | [(H0 & H1 & [tl E])
           | [(H0 & H1 & [tl E]) | [(H0 & H1 & E) | (H0 & H1 & [e [He E]])]]]]]];
        try contradiction; try congruence.
      rewrite E. simpl. split; [left; reflexivity | exact Hp].
Qed.

(** The value of a strip after which no sum is pending. *)
Lemma final_not_pending d r s nstr t :
  let mc := before d r s nstr t (mkCounts 0 0 0) in
  ~ 0 < eTotal (fst (mstep d r s nstr t mc)) ->
  final d r s nstr t = value d r s nstr t mc.
Proof.
  intros mc Hp. unfold stripOutput. fold mc.
  rewrite (Rltb_false _ _ Hp), andb_false_r. reflexivity.
Qed.

(** The value of a strip whose successor has a signal. *)
Lemma final_next_signal d r s nstr t :
  skip d r s nstr (t + 1) = false ->
  final d r s nstr t =
  value d r s nstr t (before d r s nstr t (mkCounts 0 0 0)).
Proof.
  intros Hs. unfold stripOutput. rewrite Hs, andb_false_r. reflexivity.
Qed.

Lemma final_consumed d r s nstr t :
  let mc := before d r s nstr t (mkCounts 0 0 0) in
  used (fst (mstep d r s nstr t mc)) = true ->
  ~ 0 < eTotal (fst (mstep d r s nstr t mc)) ->
  final d r s nstr (t + 1) = 0 \/ final d r s nstr (t + 1) = kInvalidMult.
Proof.
  intros mc Hu Hp.
  destruct (used_strip d r s nstr (t + 1) _ Hu Hp) as [Hv Hp'].
  rewrite final_not_pending; rewrite before_succ; fold mc; assumption.
Qed.

(** The value of a strip at which its successor flushes a pending sum. *)
Lemma final_flushed d r s nstr t :
  (t + 1 < nstr)%N ->
  skip d r s nstr (t + 1) = true ->
  0 < eTotal (fst (before d r s nstr (t + 1) (mkCounts 0 0 0))) ->
  final d r s nstr t =
  eTotal (fst (before d r s nstr (t + 1) (mkCounts 0 0 0))).
Proof.
  intros Hlt Hs Hp. unfold stripOutput. rewrite <- before_succ.
  rewrite Hs, (Rltb_true _ _ Hp).
  replace (t + 1 <? nstr)%N with true by (symmetry; apply N.ltb_lt; exact Hlt).
  reflexivity.
Qed.

Lemma value_noSignal d r s nstr t mc :
  skip d r s nstr t = true ->
  value d r s nstr t mc = 0 \/ value d r s nstr t mc = kInvalidMult.
Proof.
  intros Hs. unfold stripValue. rewrite Hs.
  destruct (dead d r s nstr t); auto.
Qed.

Lemma value_signal d r s nstr t mc :
  skip d r s nstr t = false ->
  value d r s nstr t mc =
  match snd (mergeStrip f d r (signals d r s nstr t) (fst mc) (snd mc)) with
  | Some etot => mergedEnergy f etot (sigEta (signals d r s nstr t))
  | None => 0
  end.
Proof.
  intros Hs. unfold stripValue.
  destruct (noSignal_false _ _ _ _ _ _ _ _ _ _ _ Hs) as [Hd _].
  rewrite Hd, Hs. reflexivity.
Qed.

End Clusters.

(** *** The examples, evaluated *)

Lemma TestBitNumber_empty (n : N) : TestBitNumber ∅ n = false.
Proof. unfold TestBitNumber. apply bool_decide_eq_false. set_solver. Qed.

Lemma example_SignalInStrip b dead l t :
  SignalInStrip 1000 (exampleFilter b dead) (exampleESD b l) 1 "I" 0 t =
  nth (N.to_nat t) l 0.
Proof.
  unfold SignalInStrip. simpl.
  destruct b; simpl; rewrite ?orb_true_r; reflexivity.
Qed.

Lemma nth_not_1000 (l : list R) (k : nat) :
  (forall x, In x l -> x <> 1000) -> Reqb (nth k l 0) 1000 = false.
Proof.
  intros Hl. apply Reqb_false.
  destruct (nth_in_or_default k l 0) as [Hin | ->]; [apply Hl; exact Hin | lra].
Qed.

(** The signals that the body reads at an inner strip of the example. *)
Lemma example_readSignals b dead l zv t :
  (t < 510)%N ->
  (forall x, In x l -> x <> 1000) ->
  readSignals 1000 etaFromStripExample (exampleFilter b dead)
              (exampleESD b l) zv 1 "I" 0 512 t =
  mkSignals (nth (N.to_nat t) l 0) (nth (N.to_nat (t + 1)) l 0)
            (nth (N.to_nat (t + 2)) l 0) 1.
Proof.
  intros Ht Hl. unfold readSignals. rewrite !example_SignalInStrip.
  replace (t <? 512 - 1)%N with true by (symmetry; apply N.ltb_lt; lia).
  replace (t <? 512 - 2)%N with true by (symmetry; apply N.ltb_lt; lia).
  rewrite !(nth_not_1000 l _ Hl). simpl. rewrite andb_false_r. reflexivity.
Qed.

Lemma example_deadStrip b dead l zv t :
  (t < 510)%N ->
  (forall x, In x l -> x <> 1000) ->
  deadStrip 1000 stripIndexPack etaFromStripExample (exampleFilter b dead)
            (exampleESD b l) zv 1 "I" 0 512 t =
  TestBitNumber dead (stripIndexPack 1 "I" 0 t).
Proof.
  intros Ht Hl. unfold deadStrip, IsDead.
  rewrite (example_readSignals b dead l zv t Ht Hl). simpl.
  rewrite (nth_not_1000 l _ Hl). reflexivity.
Qed.

Lemma example_noSignal b dead l zv t :
  (t < 510)%N ->
  (forall x, In x l -> x <> 1000) ->
  noSignal 1000 stripIndexPack etaFromStripExample (exampleFilter b dead)
           (exampleESD b l) zv 1 "I" 0 512 t =
  TestBitNumber dead (stripIndexPack 1 "I" 0 t)
  || Reqb (nth (N.to_nat t) l 0) 0.
Proof.
  intros Ht Hl. unfold noSignal, stripMult.
  rewrite (example_deadStrip b dead l zv t Ht Hl),
    (example_readSignals b dead l zv t Ht Hl). simpl.
  destruct (TestBitNumber dead (stripIndexPack 1 "I" 0 t)).
  - rewrite Reqb_refl. reflexivity.
  - rewrite (nth_not_1000 l _ Hl). reflexivity.
Qed.

(** One step of the merging state, the value written at a strip and the
    value of a strip after its sector, in the example. *)
Lemma example_mergingStep b dead l zv t mc :
  (t < 510)%N ->
  (forall x, In x l -> x <> 1000) ->
  mergingStep 1000 stripIndexPack etaFromStripExample (exampleFilter b dead)
              (exampleESD b l) zv 1 "I" 0 512 t mc =
  if TestBitNumber dead (stripIndexPack 1 "I" 0 t)
     || Reqb (nth (N.to_nat t) l 0) 0
  then (mkMerging false (-1) false, snd mc)
  else fst (mergeStrip (exampleFilter b dead) 1 "I"
              (mkSignals (nth (N.to_nat t) l 0) (nth (N.to_nat (t + 1)) l 0)
                         (nth (N.to_nat (t + 2)) l 0) 1)
              (fst mc) (snd mc)).
Proof.
  intros Ht Hl. unfold mergingStep.
  rewrite (example_noSignal b dead l zv t Ht Hl),
    (example_readSignals b dead l zv t Ht Hl).
  reflexivity.
Qed.

Lemma example_stripValue b dead l zv t mc :
  (t < 510)%N ->
  (forall x, In x l -> x <> 1000) ->
  stripValue 1000 stripIndexPack etaFromStripExample (exampleFilter b dead)
             (exampleESD b l) zv 1 "I" 0 512 t mc =
  if TestBitNumber dead (stripIndexPack 1 "I" 0 t) then 1000
  else if Reqb (nth (N.to_nat t) l 0) 0 then 0
  else match snd (mergeStrip (exampleFilter b dead) 1 "I"
                    (mkSignals (nth (N.to_nat t) l 0)
                               (nth (N.to_nat (t + 1)) l 0)
                               (nth (N.to_nat (t + 2)) l 0) 1)
                    (fst mc) (snd mc)) with
       | Some etot => mergedEnergy (exampleFilter b dead) etot 1
       | None => 0
       end.
Proof.
  intros Ht Hl. unfold stripValue.
  rewrite (example_deadStrip b dead l zv t Ht Hl),
    (example_noSignal b dead l zv t Ht Hl),
    (example_readSignals b dead l zv t Ht Hl).
  destruct (TestBitNumber dead (stripIndexPack 1 "I" 0 t)); reflexivity.
Qed.

(** Settles that no signal of a concrete list is the invalid one. *)
Ltac valid_signals :=
  let x := fresh "x" in
  let Hin := fresh "Hin" in
  intros x Hin; simpl in Hin;
  repeat (destruct Hin as [<- | Hin]; [lra |]);
  contradiction.

(** Looks up the dead strips of a concrete filter. *)
Ltac eval_dead :=
  repeat match goal with
    | |- context [TestBitNumber ?b ?n] =>
        let v := eval vm_compute in (TestBitNumber b n) in
        change (TestBitNumber b n) with v
    end.

(** Evaluates [mergeStrip] on concrete signals. *)
Ltac eval_mergeStrip :=
  unfold mergeStrip, thisValid, nextValid, thisSmall, nextSmall,
    GetLowCut, GetHighCut;
  simpl; decideR; simpl; decideR; simpl.

(** Evaluates one step of the merging state of the example. *)
Ltac eval_step :=
  rewrite example_mergingStep by (try lia; valid_signals);
  eval_dead; simpl; decideR; eval_mergeStrip; reflexivity.

Lemma pending_sum_third_strip_witness :
  nTriple
    (counts
       (stripBody 1000 stripIndexPack etaFromStripExample
          (exampleFilter true ∅) (exampleESD true [1 / 2; 1 / 2; 1 / 2]) 0
          1 "I" 0 512 1
          (mkLoop (mkMerging false 1 true) (mkCounts 0 0 0)
                  (Clear 1000 1000 (exampleESD true []))))) = 1%Z
  /\ Multiplicity
       (output
          (stripBody 1000 stripIndexPack etaFromStripExample
             (exampleFilter true ∅) (exampleESD true [1 / 2; 1 / 2; 1 / 2]) 0
             1 "I" 0 512 1
             (mkLoop (mkMerging false 1 true) (mkCounts 0 0 0)
                     (Clear 1000 1000 (exampleESD true [])))))
       1 "I" 0 1 = 3 / 2.
Proof.
  pose proof (pending_sum_third_strip 1000 stripIndexPack
                etaFromStripExample (exampleFilter true ∅)
                (exampleESD true [1 / 2; 1 / 2; 1 / 2]) 0 1 "I" 0 512 1
                (mkLoop (mkMerging false 1 true) (mkCounts 0 0 0)
                        (Clear 1000 1000 (exampleESD true [])))) as T.
  cbv zeta in T. rewrite !example_SignalInStrip in T.
  unfold GetLowCut, GetHighCut in T.
  destruct T as [(H1 & _ & _ & H4) _];
    [vm_compute; reflexivity | simpl; lra | simpl; lra | simpl; lra
     | repeat (progress (simpl; decideR)); reflexivity |].
  split; [exact H1 |]. rewrite H4.
  repeat (progress (simpl; decideR)). lra.
Defined.

Lemma loop_merging kInvalidMult Pack GetEtaFromStrip f input zvtx
    d r s nstr ts st :
  merging (stripLoop kInvalidMult Pack GetEtaFromStrip f input zvtx
                     d r s nstr ts st) =
  fst (mergingLoop kInvalidMult Pack GetEtaFromStrip f input zvtx
                   d r s nstr ts (merging st, counts st)).
Proof. rewrite <- loop_control. reflexivity. Qed.

Lemma fresh_strip_two_strip_merge_witness :
  Multiplicity
    (output
       (stripBody 1000 stripIndexPack etaFromStripExample
          (exampleFilter true ∅) (exampleESD true [3 / 5; 1 / 2]) 0
          1 "I" 0 512 0
          (sectorStart (mkCounts 0 0 0)
                       (Clear 1000 1000 (exampleESD true [])))))
    1 "I" 0 0 = 11 / 10
  /\ used
       (merging
          (stripBody 1000 stripIndexPack etaFromStripExample
             (exampleFilter true ∅) (exampleESD true [3 / 5; 1 / 2]) 0
             1 "I" 0 512 0
             (sectorStart (mkCounts 0 0 0)
                          (Clear 1000 1000 (exampleESD true []))))) = true.
Proof.
  pose proof (fresh_strip_two_strip_merge 1000 stripIndexPack
                etaFromStripExample (exampleFilter true ∅)
                (exampleESD true [3 / 5; 1 / 2]) 0 1 "I" 0 512 0
                (sectorStart (mkCounts 0 0 0)
                             (Clear 1000 1000 (exampleESD true [])))) as T.
  cbv zeta in T. rewrite !example_SignalInStrip in T.
  unfold GetLowCut, GetHighCut in T.
  destruct T as [[(Ho & Hu & _) _] _];
    [vm_compute; reflexivity | simpl; lra | simpl; lra | simpl; lra
     | reflexivity
     | repeat (progress (simpl; decideR)); reflexivity
     | repeat (progress (simpl; decideR)); lra |].
  split; [| exact Hu]. rewrite Ho.
  repeat (progress (simpl; decideR)). lra.
Defined.

Lemma no_signal_resets_merging_witness :
  merging
    (stripBody 1000 stripIndexPack etaFromStripExample
       (exampleFilter true ∅) (exampleESD true [3 / 5; 0]) 0
       1 "I" 0 512 1
       (mkLoop (mkMerging true (-1) true) (mkCounts 0 0 0)
               (Clear 1000 1000 (exampleESD true [])))) =
  mkMerging false (-1) false.
Proof.
  assert (Hl : forall x, In x [3 / 5; 0] -> x <> 1000) by valid_signals.
  destruct (no_signal_resets_merging 1000 stripIndexPack
              etaFromStripExample (exampleFilter true ∅)
              (exampleESD true [3 / 5; 0]) 0 1 "I" 0 512 1
              (mkLoop (mkMerging true (-1) true) (mkCounts 0 0 0)
                      (Clear 1000 1000 (exampleESD true []))))
    as [Hreset _].
  apply Hreset. right.
  rewrite example_readSignals by (try lia; exact Hl). reflexivity.
Defined.

(** The claim C3 as the specification states it fails: in the sector with
    the signals 0.6, 0.5 and 0.1 the third strip is below the low cut of
    0.15, yet after it [twoLow] is still set. *)
Lemma low_signal_keeps_twoLow :
  sigMult (readSignals 1000 etaFromStripExample (exampleFilter true ∅)
             (exampleESD true [3 / 5; 1 / 2; 1 / 10]) 0 1 "I" 0 512 2)
  < GetLowCut (exampleFilter true ∅) 1 "I"
      (sigEta (readSignals 1000 etaFromStripExample (exampleFilter true ∅)
                 (exampleESD true [3 / 5; 1 / 2; 1 / 10]) 0 1 "I" 0 512 2))
  /\ merging
       (stripLoop 1000 stripIndexPack etaFromStripExample
          (exampleFilter true ∅) (exampleESD true [3 / 5; 1 / 2; 1 / 10]) 0
          1 "I" 0 512 [0; 1; 2]%N
          (sectorStart (mkCounts 0 0 0)
                       (Clear 1000 1000 (exampleESD true [])))) =
     mkMerging false (-1) true.
Proof.
  split.
  - rewrite example_readSignals by (try lia; valid_signals).
    unfold GetLowCut. simpl. lra.
  - rewrite loop_merging.
    unfold mergingLoop, sectorStart. simpl fold_left.
    assert (E0 : mergingStep 1000 stripIndexPack etaFromStripExample
                   (exampleFilter true ∅)
                   (exampleESD true [3 / 5; 1 / 2; 1 / 10]) 0 1 "I" 0 512 0
                   (mkMerging false (-1) false, mkCounts 0 0 0) =
                 (mkMerging true (-1) true, mkCounts 0 (0 + 1) 0))
      by eval_step.
    assert (E1 : mergingStep 1000 stripIndexPack etaFromStripExample
                   (exampleFilter true ∅)
                   (exampleESD true [3 / 5; 1 / 2; 1 / 10]) 0 1 "I" 0 512 1
                   (mkMerging true (-1) true, mkCounts 0 (0 + 1) 0) =
                 (mkMerging false (-1) true, mkCounts 0 (0 + 1) 0))
      by eval_step.
    assert (E2 : mergingStep 1000 stripIndexPack etaFromStripExample
                   (exampleFilter true ∅)
                   (exampleESD true [3 / 5; 1 / 2; 1 / 10]) 0 1 "I" 0 512 2
                   (mkMerging false (-1) true, mkCounts 0 (0 + 1) 0) =
                 (mkMerging false (-1) true, mkCounts 0 (0 + 1) 0))
      by eval_step.
    rewrite E0, E1, E2. reflexivity.
Qed.

(** A single strip with the signal 1, in a filter that works on signals
    that are not angle corrected ([angles] off) or on angle-corrected
    ones ([angles] on): the sum of the strip is 1, and the body writes it
    through [AngleCorrect] in the first case only. *)
Lemma example_single_sum b :
  noSignal 1000 stripIndexPack etaFromStripExample (exampleFilter b ∅)
           (exampleESD b [1]) 0 1 "I" 0 512 0 = false
  /\ snd (mergeStrip (exampleFilter b ∅) 1 "I"
            (readSignals 1000 etaFromStripExample (exampleFilter b ∅)
                         (exampleESD b [1]) 0 1 "I" 0 512 0)
            (mkMerging false (-1) false) (mkCounts 0 0 0)) = Some 1.
Proof.
  assert (Hl : forall x, In x [1] -> x <> 1000) by valid_signals.
  split.
  - rewrite example_noSignal by (try lia; exact Hl).
    eval_dead. simpl. decideR. reflexivity.
  - rewrite example_readSignals by (try lia; exact Hl).
    eval_mergeStrip. reflexivity.
Qed.

Lemma example_single_written b :
  Multiplicity
    (output
       (stripBody 1000 stripIndexPack etaFromStripExample
          (exampleFilter b ∅) (exampleESD b [1]) 0 1 "I" 0 512 0
          (sectorStart (mkCounts 0 0 0)
                       (Clear 1000 1000 (exampleESD b []))))) 1 "I" 0 0 =
  if b then 1 else AngleCorrect 1 1.
Proof.
  destruct (example_single_sum b) as [Hs He].
  rewrite body_output_signal by exact Hs.
  unfold sectorStart. simpl merging. simpl counts. rewrite He.
  rewrite example_readSignals by (try lia; valid_signals).
  unfold mergedEnergy. destruct b; reflexivity.
Qed.

Lemma merged_energy_angle_correction_witness :
  Multiplicity
    (output
       (stripBody 1000 stripIndexPack etaFromStripExample
          (exampleFilter false ∅) (exampleESD false [1]) 0 1 "I" 0 512 0
          (sectorStart (mkCounts 0 0 0)
                       (Clear 1000 1000 (exampleESD false []))))) 1 "I" 0 0 =
  AngleCorrect 1
    (sigEta (readSignals 1000 etaFromStripExample (exampleFilter false ∅)
                         (exampleESD false [1]) 0 1 "I" 0 512 0)).
Proof.
  destruct (example_single_sum false) as [Hs He].
  exact (merged_energy_angle_correction 1000 stripIndexPack
           etaFromStripExample (exampleFilter false ∅)
           (exampleESD false [1]) 0 1 "I" 0 512 0
           (sectorStart (mkCounts 0 0 0)
                        (Clear 1000 1000 (exampleESD false []))) 1 Hs He).
Defined.

(** The claim C5 as the specification states it fails both ways.  With
    [fCorrectAngles] off the sum 1 of the strip is written as
    [AngleCorrect 1 1], which is not 1; with [fCorrectAngles] on it is
    written as 1, which is not [AngleCorrect 1 1]. *)
Lemma angle_correction_is_applied_when_disabled :
  (fCorrectAngles (exampleFilter false ∅) = false
   /\ snd (mergeStrip (exampleFilter false ∅) 1 "I"
             (readSignals 1000 etaFromStripExample (exampleFilter false ∅)
                          (exampleESD false [1]) 0 1 "I" 0 512 0)
             (mkMerging false (-1) false) (mkCounts 0 0 0)) = Some 1
   /\ Multiplicity
        (output
           (stripBody 1000 stripIndexPack etaFromStripExample
              (exampleFilter false ∅) (exampleESD false [1]) 0 1 "I" 0 512 0
              (sectorStart (mkCounts 0 0 0)
                           (Clear 1000 1000 (exampleESD false [])))))
        1 "I" 0 0 <> 1)
  /\ (fCorrectAngles (exampleFilter true ∅) = true
      /\ snd (mergeStrip (exampleFilter true ∅) 1 "I"
                (readSignals 1000 etaFromStripExample (exampleFilter true ∅)
                             (exampleESD true [1]) 0 1 "I" 0 512 0)
                (mkMerging false (-1) false) (mkCounts 0 0 0)) = Some 1
      /\ Multiplicity
           (output
              (stripBody 1000 stripIndexPack etaFromStripExample
                 (exampleFilter true ∅) (exampleESD true [1]) 0 1 "I" 0 512 0
                 (sectorStart (mkCounts 0 0 0)
                              (Clear 1000 1000 (exampleESD true [])))))
           1 "I" 0 0 <> AngleCorrect 1 1).
Proof.
  pose proof (cos_incidenceAngle_lt_1 1) as Hcos.
  split; (split; [reflexivity |]);
    (split; [apply example_single_sum |]);
    rewrite example_single_written; unfold AngleCorrect; lra.
Qed.

Lemma Filter_copies_eta_of_sector_0_only_witness :
  exists res,
    Filter 1000 1000 stripIndexPack etaFromStripExample
           (exampleFilter true ∅) (exampleESD true [1]) 0 false
           (exampleESD true []) = Some (true, res)
    /\ Eta res 1 "I" 0 0 = 1
    /\ Eta res 1 "I" 1 0 = 1000.
Proof.
  destruct (Filter_copies_eta_of_sector_0_only 1000 1000 stripIndexPack
              etaFromStripExample (exampleFilter true ∅)
              (exampleESD true [1]) 0 false (exampleESD true [])
              1 "I" 1 0 (exampleFilter_owns true ∅) eq_refl)
    as (res & E & H0 & Hother & _).
  exists res. split; [exact E |]. split; [exact H0 |].
  apply Hother. simpl. lia.
Defined.

(** The claim C9 as the specification states it fails for an output
    object that holds one pseudo-rapidity per detector, ring and strip:
    after [Filter] the pseudo-rapidity of strip 0 of sector 1 of FMD1i is
    1, the value of the input, and not the invalid value that [Clear]
    left. *)
Lemma eta_of_other_sectors_is_not_what_Clear_left :
  exists res,
    Filter 1000 1000 stripIndexPack etaFromStripExample
           (exampleFilter true ∅) (exampleESD true [1]) 0 false
           singleEtaESD = Some (true, res)
    /\ Eta res 1 "I" 1 0 = 1
    /\ Eta (Clear 1000 1000 singleEtaESD) 1 "I" 1 0 = 1000
    /\ Eta res 1 "I" 1 0 <> Eta (Clear 1000 1000 singleEtaESD) 1 "I" 1 0.
Proof.
  destruct (Filter_run 1000 1000 stripIndexPack etaFromStripExample
              (exampleFilter true ∅) (exampleESD true [1]) 0 false
              singleEtaESD (exampleFilter_owns true ∅))
    as (res & E & _ & He).
  exists res. split; [exact E |].
  assert (H1 : Eta res 1 "I" 1 0 = 1) by (rewrite He; reflexivity).
  assert (H2 : Eta (Clear 1000 1000 singleEtaESD) 1 "I" 1 0 = 1000)
    by reflexivity.
  split; [exact H1 |]. split; [exact H2 |]. rewrite H1, H2. lra.
Qed.

Lemma Filter_output_depends_on_sector_prefix_witness :
  exists res1 res2,
    Filter 1000 1000 stripIndexPack etaFromStripExample
           (exampleFilter true ∅) (exampleESD true [3 / 5; 1 / 2]) 0
           false (exampleESD true []) = Some (true, res1)
    /\ Filter 1000 1000 stripIndexPack etaFromStripExample
              (exampleFilter true ∅)
              (exampleESD true [3 / 5; 1 / 2; 0; 1; 1]) 0
              true (exampleESD false [1]) = Some (true, res2)
    /\ Multiplicity res1 1 "I" 0 0 = Multiplicity res2 1 "I" 0 0.
Proof.
  apply (Filter_output_depends_on_sector_prefix 1000 1000 stripIndexPack
           etaFromStripExample (exampleFilter true ∅) 0
           (exampleESD true [3 / 5; 1 / 2])
           (exampleESD true [3 / 5; 1 / 2; 0; 1; 1])
           false true (exampleESD true []) (exampleESD false [1])
           1 "I" 0 0).
  - apply exampleFilter_owns.
  - reflexivity.
  - intros x Hx.
    assert (Hc : x = 0%N \/ x = 1%N \/ x = 2%N) by lia.
    destruct Hc as [-> | [-> | ->]]; split; reflexivity.
Defined.

(** In the sector of [sevenStrips] the triples are formed at the strips 1
    and 4, in the sector of [sixStrips] at the strips 2 and 5. *)
Lemma sevenStrips_before_4 :
  mergingBefore 1000 stripIndexPack etaFromStripExample (exampleFilter true ∅)
                (exampleESD true sevenStrips) 0 1 "I" 0 512 4
                (mkCounts 0 0 0) =
  (mkMerging false (1 / 2 + 1 / 2) true, mkCounts 0 0 (0 + 1)).
Proof.
  unfold mergingBefore. change (upTo 4) with [0; 1; 2; 3]%N.
  unfold mergingLoop. cbn [fold_left].
  assert (E0 : mergingStep 1000 stripIndexPack etaFromStripExample
                 (exampleFilter true ∅) (exampleESD true sevenStrips) 0
                 1 "I" 0 512 0
                 (mkMerging false (-1) false, mkCounts 0 0 0) =
               (mkMerging false (1 / 2 + 1 / 2) true, mkCounts 0 0 0))
    by (unfold sevenStrips; eval_step).
  assert (E1 : mergingStep 1000 stripIndexPack etaFromStripExample
                 (exampleFilter true ∅) (exampleESD true sevenStrips) 0
                 1 "I" 0 512 1
                 (mkMerging false (1 / 2 + 1 / 2) true, mkCounts 0 0 0) =
               (mkMerging true (-1) false, mkCounts 0 0 (0 + 1)))
    by (unfold sevenStrips; eval_step).
  assert (E2 : mergingStep 1000 stripIndexPack etaFromStripExample
                 (exampleFilter true ∅) (exampleESD true sevenStrips) 0
                 1 "I" 0 512 2
                 (mkMerging true (-1) false, mkCounts 0 0 (0 + 1)) =
               (mkMerging false (-1) false, mkCounts 0 0 (0 + 1)))
    by (unfold sevenStrips; eval_step).
  assert (E3 : mergingStep 1000 stripIndexPack etaFromStripExample
                 (exampleFilter true ∅) (exampleESD true sevenStrips) 0
                 1 "I" 0 512 3
                 (mkMerging false (-1) false, mkCounts 0 0 (0 + 1)) =
               (mkMerging false (1 / 2 + 1 / 2) true, mkCounts 0 0 (0 + 1)))
    by (unfold sevenStrips; eval_step).
  rewrite E0, E1, E2, E3. reflexivity.
Qed.

Lemma sixStrips_before_4 :
  mergingBefore 1000 stripIndexPack etaFromStripExample (exampleFilter true ∅)
                (exampleESD true sixStrips) 0 1 "I" 0 512 4
                (mkCounts 0 0 0) =
  (mkMerging false (-1) false, mkCounts 0 0 (0 + 1)).
Proof.
  unfold mergingBefore. change (upTo 4) with [0; 1; 2; 3]%N.
  unfold mergingLoop. cbn [fold_left].
  assert (E0 : mergingStep 1000 stripIndexPack etaFromStripExample
                 (exampleFilter true ∅) (exampleESD true sixStrips) 0
                 1 "I" 0 512 0
                 (mkMerging false (-1) false, mkCounts 0 0 0) =
               (mkMerging false (-1) false, mkCounts 0 0 0))
    by (unfold sixStrips; eval_step).
  assert (E1 : mergingStep 1000 stripIndexPack etaFromStripExample
                 (exampleFilter true ∅) (exampleESD true sixStrips) 0
                 1 "I" 0 512 1
                 (mkMerging false (-1) false, mkCounts 0 0 0) =
               (mkMerging false (1 / 2 + 1 / 2) true, mkCounts 0 0 0))
    by (unfold sixStrips; eval_step).
  assert (E2 : mergingStep 1000 stripIndexPack etaFromStripExample
                 (exampleFilter true ∅) (exampleESD true sixStrips) 0
                 1 "I" 0 512 2
                 (mkMerging false (1 / 2 + 1 / 2) true, mkCounts 0 0 0) =
               (mkMerging true (-1) false, mkCounts 0 0 (0 + 1)))
    by (unfold sixStrips; eval_step).
  assert (E3 : mergingStep 1000 stripIndexPack etaFromStripExample
                 (exampleFilter true ∅) (exampleESD true sixStrips) 0
                 1 "I" 0 512 3
                 (mkMerging true (-1) false, mkCounts 0 0 (0 + 1)) =
               (mkMerging false (-1) false, mkCounts 0 0 (0 + 1)))
    by (unfold sixStrips; eval_step).
  rewrite E0, E1, E2, E3. reflexivity.
Qed.

(** Evaluates the value of a strip of the example after its sector, once
    the merging state on entry of the strip is known. *)
Ltac eval_stripOutput Hbefore :=
  unfold stripOutput; rewrite Hbefore;
  rewrite example_mergingStep, example_noSignal, example_stripValue
    by (try lia; valid_signals);
  eval_dead; simpl; decideR; eval_mergeStrip.

Lemma sevenStrips_output_4 :
  stripOutput 1000 stripIndexPack etaFromStripExample
              (exampleFilter true ∅) (exampleESD true sevenStrips) 0
              1 "I" 0 512 4 =
  1 / 2 + 1 / 2 + 1 / 2.
Proof.
  eval_stripOutput sevenStrips_before_4. reflexivity.
Qed.

Lemma sixStrips_output_4 :
  stripOutput 1000 stripIndexPack etaFromStripExample
              (exampleFilter true ∅) (exampleESD true sixStrips) 0
              1 "I" 0 512 4 = 0.
Proof.
  eval_stripOutput sixStrips_before_4. reflexivity.
Qed.

(** The claim C6 as the specification states it fails: the two ESD objects
    differ in strip 0 of one sector only, so they agree on the strips 2 to
    6, yet [Filter] leaves 1.5 at strip 4 for the first and 0 for the
    second. *)
Lemma window_of_five_strips_is_too_small :
  IsAngleCorrected (exampleESD true sevenStrips) =
    IsAngleCorrected (exampleESD true sixStrips)
  /\ (forall d r s t, t <> 0%N ->
        agreeAt (exampleESD true sevenStrips) (exampleESD true sixStrips)
                d r s t)
  /\ exists res1 res2,
       Filter 1000 1000 stripIndexPack etaFromStripExample
              (exampleFilter true ∅) (exampleESD true sevenStrips) 0
              false (exampleESD true []) = Some (true, res1)
       /\ Filter 1000 1000 stripIndexPack etaFromStripExample
                 (exampleFilter true ∅) (exampleESD true sixStrips) 0
                 false (exampleESD true []) = Some (true, res2)
       /\ Multiplicity res1 1 "I" 0 4 = 1 / 2 + 1 / 2 + 1 / 2
       /\ Multiplicity res2 1 "I" 0 4 = 0
       /\ Multiplicity res1 1 "I" 0 4 <> Multiplicity res2 1 "I" 0 4.
Proof.
  split; [reflexivity |]. split.
  - intros d r s t Ht. split; [| reflexivity].
    unfold Multiplicity, exampleESD. simpl.
    destruct ((d =? 1)%N && Ascii.eqb r "I" && (s =? 0)%N); [| reflexivity].
    destruct (N.to_nat t) as [| k] eqn:E; [lia | reflexivity].
  - destruct (Filter_first_sector 1000 1000 stripIndexPack
                etaFromStripExample (exampleFilter true ∅)
                (exampleESD true sevenStrips) 0 false (exampleESD true [])
                (exampleFilter_owns true ∅)) as (res1 & E1 & H1).
    destruct (Filter_first_sector 1000 1000 stripIndexPack
                etaFromStripExample (exampleFilter true ∅)
                (exampleESD true sixStrips) 0 false (exampleESD true [])
                (exampleFilter_owns true ∅)) as (res2 & E2 & H2).
    exists res1, res2. split; [exact E1 |]. split; [exact E2 |].
    rewrite H1, H2 by lia. rewrite sevenStrips_output_4, sixStrips_output_4.
    repeat split; lra.
Qed.

(** A double formed at once at strip 0 of a sector with the signals 0.6
    and 0.5: on entry of strip 1 the strip is marked as used. *)
Lemma double_before_1 dead :
  TestBitNumber dead (stripIndexPack 1 "I" 0 0) = false ->
  mergingBefore 1000 stripIndexPack etaFromStripExample
                (exampleFilter true dead) (exampleESD true [3 / 5; 1 / 2]) 0
                1 "I" 0 512 (0 + 1) (mkCounts 0 0 0) =
  (mkMerging true (-1) true, mkCounts 0 (0 + 1) 0).
Proof.
  intros Hd. rewrite before_succ. unfold mergingBefore.
  change (upTo 0) with (@nil N). unfold mergingLoop. cbn [fold_left].
  rewrite example_mergingStep by (try lia; valid_signals).
  rewrite Hd. simpl. decideR. eval_mergeStrip. reflexivity.
Qed.

(** C4, at the input where the code departs from it.  The comment of the
    reset says that the pass does not merge over a dead strip, but the
    look-ahead of a strip reads the signal of its successor without
    asking [IsDead].  In the sector with the signals 0.6 and 0.5 whose
    strip 1 is flagged dead, strip 0 forms a double cluster with the dead
    strip and holds the merged signal 1.1, and strip 1, the consumed
    neighbour, holds the invalid multiplicity and not zero. *)
Theorem dead_neighbour_is_not_zero :
  IsDead stripIndexPack (exampleFilter true deadStripOne) 1 "I" 0 1 = true
  /\ mergingBefore 1000 stripIndexPack etaFromStripExample
                   (exampleFilter true deadStripOne)
                   (exampleESD true [3 / 5; 1 / 2]) 0
                   1 "I" 0 512 (0 + 1) (mkCounts 0 0 0) =
       (mkMerging true (-1) true, mkCounts 0 (0 + 1) 0)
  /\ exists res,
       Filter 1000 1000 stripIndexPack etaFromStripExample
              (exampleFilter true deadStripOne)
              (exampleESD true [3 / 5; 1 / 2]) 0
              false (exampleESD true []) = Some (true, res)
       /\ Multiplicity res 1 "I" 0 0 = 3 / 5 + 1 / 2
       /\ Multiplicity res 1 "I" 0 1 = 1000
       /\ Multiplicity res 1 "I" 0 1 <> 0.
Proof.
  assert (Hd : TestBitNumber deadStripOne (stripIndexPack 1 "I" 0 0) = false)
    by (vm_compute; reflexivity).
  split; [vm_compute; reflexivity |].
  split; [apply double_before_1; exact Hd |].
  destruct (Filter_first_sector 1000 1000 stripIndexPack
              etaFromStripExample (exampleFilter true deadStripOne)
              (exampleESD true [3 / 5; 1 / 2]) 0 false (exampleESD true [])
              (exampleFilter_owns true deadStripOne)) as (res & E & H).
  exists res. split; [exact E |].
  assert (H0 : Multiplicity res 1 "I" 0 0 = 3 / 5 + 1 / 2).
  { rewrite H by lia.
    assert (Hb : mergingBefore 1000 stripIndexPack etaFromStripExample
                   (exampleFilter true deadStripOne)
                   (exampleESD true [3 / 5; 1 / 2]) 0
                   1 "I" 0 512 0 (mkCounts 0 0 0) =
                 (mkMerging false (-1) false, mkCounts 0 0 0))
      by reflexivity.
    eval_stripOutput Hb. reflexivity. }
  assert (H1 : Multiplicity res 1 "I" 0 1 = 1000).
  { rewrite H by lia.
    pose proof (double_before_1 deadStripOne Hd) as Hb.
    change (0 + 1)%N with 1%N in Hb.
    eval_stripOutput Hb. reflexivity. }
  split; [exact H0 |]. split; [exact H1 |]. rewrite H1. lra.
Qed.

(** A sum left pending at strip 0 of a sector with three signals of 0.5:
    on entry of strip 1 the sum of the first two strips is pending. *)
Lemma pending_before_1 dead :
  TestBitNumber dead (stripIndexPack 1 "I" 0 0) = false ->
  mergingBefore 1000 stripIndexPack etaFromStripExample
                (exampleFilter true dead)
                (exampleESD true [1 / 2; 1 / 2; 1 / 2]) 0
                1 "I" 0 512 (0 + 1) (mkCounts 0 0 0) =
  (mkMerging false (1 / 2 + 1 / 2) true, mkCounts 0 0 0).
Proof.
  intros Hd. rewrite before_succ. unfold mergingBefore.
  change (upTo 0) with (@nil N). unfold mergingLoop. cbn [fold_left].
  rewrite example_mergingStep by (try lia; valid_signals).
  rewrite Hd. simpl. decideR. eval_mergeStrip. reflexivity.
Qed.

(** The claim C1 as the specification states it fails at a strip that the
    filter holds as dead.  In the sector with three signals of 0.5 whose
    strip 1 is flagged dead, the sum 1 of the first two strips is pending
    on entry of strip 1, three-strip merging is enabled and the signal of
    the strip after strip 1 lies between the cuts.  Yet strip 1 neither
    adds a third strip nor stores a two-strip cluster, no cluster is
    counted, and the sum is not written at strip 1, which holds the
    invalid multiplicity: the sum goes to strip 0. *)
Lemma pending_sum_at_dead_strip_is_flushed :
  IsDead stripIndexPack (exampleFilter true deadStripOne) 1 "I" 0 1 = true
  /\ mergingBefore 1000 stripIndexPack etaFromStripExample
                   (exampleFilter true deadStripOne)
                   (exampleESD true [1 / 2; 1 / 2; 1 / 2]) 0
                   1 "I" 0 512 (0 + 1) (mkCounts 0 0 0) =
       (mkMerging false (1 / 2 + 1 / 2) true, mkCounts 0 0 0)
  /\ fThreeStripSharing (exampleFilter true deadStripOne) = true
  /\ GetLowCut (exampleFilter true deadStripOne) 1 "I" 1
     < SignalInStrip 1000 (exampleFilter true deadStripOne)
                     (exampleESD true [1 / 2; 1 / 2; 1 / 2]) 1 "I" 0 2
     < GetHighCut (exampleFilter true deadStripOne) 1 "I" 1 false
  /\ mergingStep 1000 stripIndexPack etaFromStripExample
                 (exampleFilter true deadStripOne)
                 (exampleESD true [1 / 2; 1 / 2; 1 / 2]) 0
                 1 "I" 0 512 1
                 (mkMerging false (1 / 2 + 1 / 2) true, mkCounts 0 0 0) =
       (mkMerging false (-1) false, mkCounts 0 0 0)
  /\ exists res,
       Filter 1000 1000 stripIndexPack etaFromStripExample
              (exampleFilter true deadStripOne)
              (exampleESD true [1 / 2; 1 / 2; 1 / 2]) 0
              false (exampleESD true []) = Some (true, res)
       /\ Multiplicity res 1 "I" 0 0 = 1 / 2 + 1 / 2
       /\ Multiplicity res 1 "I" 0 1 = 1000
       /\ Multiplicity res 1 "I" 0 1 <> 1 / 2 + 1 / 2
       /\ Multiplicity res 1 "I" 0 1 <> 1 / 2 + 1 / 2 + 1 / 2.
Proof.
  assert (Hd : TestBitNumber deadStripOne (stripIndexPack 1 "I" 0 0) = false)
    by (vm_compute; reflexivity).
  split; [vm_compute; reflexivity |].
  split; [apply pending_before_1; exact Hd |].
  split; [reflexivity |].
  split; [rewrite example_SignalInStrip; unfold GetLowCut, GetHighCut; simpl;
          lra |].
  split; [eval_step |].
  destruct (Filter_first_sector 1000 1000 stripIndexPack
              etaFromStripExample (exampleFilter true deadStripOne)
              (exampleESD true [1 / 2; 1 / 2; 1 / 2]) 0 false
              (exampleESD true [])
              (exampleFilter_owns true deadStripOne)) as (res & E & H).
  exists res. split; [exact E |].
  assert (H0 : Multiplicity res 1 "I" 0 0 = 1 / 2 + 1 / 2).
  { rewrite H by lia.
    assert (Hb : mergingBefore 1000 stripIndexPack etaFromStripExample
                   (exampleFilter true deadStripOne)
                   (exampleESD true [1 / 2; 1 / 2; 1 / 2]) 0
                   1 "I" 0 512 0 (mkCounts 0 0 0) =
                 (mkMerging false (-1) false, mkCounts 0 0 0))
      by reflexivity.
    eval_stripOutput Hb. reflexivity. }
  assert (H1 : Multiplicity res 1 "I" 0 1 = 1000).
  { rewrite H by lia.
    pose proof (pending_before_1 deadStripOne Hd) as Hb.
    change (0 + 1)%N with 1%N in Hb.
    eval_stripOutput Hb. reflexivity. }
  split; [exact H0 |]. split; [exact H1 |]. rewrite H1. split; lra.
Qed.

(** The signals that the body reads in the filter without three-strip
    merging. *)
Lemma twoStrip_SignalInStrip l t :
  SignalInStrip 1000 twoStripFilter (exampleESD true l) 1 "I" 0 t =
  nth (N.to_nat t) l 0.
Proof.
  unfold SignalInStrip. simpl. rewrite ?orb_true_r. reflexivity.
Qed.

Lemma twoStrip_readSignals l zv t :
  (t < 510)%N ->
  (forall x, In x l -> x <> 1000) ->
  readSignals 1000 etaFromStripExample twoStripFilter
              (exampleESD true l) zv 1 "I" 0 512 t =
  mkSignals (nth (N.to_nat t) l 0) (nth (N.to_nat (t + 1)) l 0) 0 1.
Proof.
  intros Ht Hl. unfold readSignals. rewrite !twoStrip_SignalInStrip.
  replace (t <? 512 - 1)%N with true by (symmetry; apply N.ltb_lt; lia).
  replace (t <? 512 - 2)%N with true by (symmetry; apply N.ltb_lt; lia).
  rewrite !(nth_not_1000 l _ Hl). simpl. rewrite andb_false_r. reflexivity.
Qed.

Lemma twoStrip_noSignal l zv t :
  (t < 510)%N ->
  (forall x, In x l -> x <> 1000) ->
  noSignal 1000 stripIndexPack etaFromStripExample twoStripFilter
           (exampleESD true l) zv 1 "I" 0 512 t =
  Reqb (nth (N.to_nat t) l 0) 0.
Proof.
  intros Ht Hl. unfold noSignal, stripMult, deadStrip, IsDead.
  rewrite (twoStrip_readSignals l zv t Ht Hl). cbn [sigMult].
  rewrite (nth_not_1000 l _ Hl).
  change (fXtraDead twoStripFilter) with (∅ : gset N).
  rewrite TestBitNumber_empty. cbn [orb].
  rewrite (nth_not_1000 l _ Hl). reflexivity.
Qed.

(** The claim C2 as the specification states it fails in two ways.
    Without three-strip merging the body does not look at the strip after
    next: in the sector with the signals 0.6, 0.5 and 0.5 that strip is
    not below the low cut of 0.15, yet the double cluster 1.1 is written
    at once at strip 0, the next strip is marked as used and no sum is
    pending.  And a strip that the filter holds as dead starts no merge:
    in the sector with the signals 0, 0.6 and 0.5 whose strip 1 is flagged
    dead, strip 1 is met without pending sum and not used, its signal and
    the next are above the low cut and below the high cut of 0.8, its
    signal exceeds the next and the strip after next is empty, yet strip 1
    holds the invalid multiplicity and the next strip is not marked as
    used. *)
Lemma double_at_once_despite_third_strip_or_dead_strip :
  (fThreeStripSharing twoStripFilter = false
   /\ SignalInStrip 1000 twoStripFilter
                    (exampleESD true [3 / 5; 1 / 2; 1 / 2]) 1 "I" 0 2 = 1 / 2
   /\ GetLowCut twoStripFilter 1 "I"
                (Eta (exampleESD true [3 / 5; 1 / 2; 1 / 2]) 1 "I" 0 0)
      = 3 / 20
   /\ Multiplicity
        (output
           (stripBody 1000 stripIndexPack etaFromStripExample twoStripFilter
              (exampleESD true [3 / 5; 1 / 2; 1 / 2]) 0 1 "I" 0 512 0
              (sectorStart (mkCounts 0 0 0)
                           (Clear 1000 1000 (exampleESD true [])))))
        1 "I" 0 0 = 3 / 5 + 1 / 2
   /\ merging
        (stripBody 1000 stripIndexPack etaFromStripExample twoStripFilter
           (exampleESD true [3 / 5; 1 / 2; 1 / 2]) 0 1 "I" 0 512 0
           (sectorStart (mkCounts 0 0 0)
                        (Clear 1000 1000 (exampleESD true []))))
      = mkMerging true (-1) true)
  /\ (IsDead stripIndexPack (exampleFilter true deadStripOne) 1 "I" 0 1 = true
      /\ SignalInStrip 1000 (exampleFilter true deadStripOne)
                       (exampleESD true [0; 3 / 5; 1 / 2]) 1 "I" 0 1 = 3 / 5
      /\ SignalInStrip 1000 (exampleFilter true deadStripOne)
                       (exampleESD true [0; 3 / 5; 1 / 2]) 1 "I" 0 2 = 1 / 2
      /\ SignalInStrip 1000 (exampleFilter true deadStripOne)
                       (exampleESD true [0; 3 / 5; 1 / 2]) 1 "I" 0 3 = 0
      /\ Multiplicity
           (output
              (stripBody 1000 stripIndexPack etaFromStripExample
                 (exampleFilter true deadStripOne)
                 (exampleESD true [0; 3 / 5; 1 / 2]) 0 1 "I" 0 512 1
                 (sectorStart (mkCounts 0 0 0)
                              (Clear 1000 1000 (exampleESD true [])))))
           1 "I" 0 1 = 1000
      /\ merging
           (stripBody 1000 stripIndexPack etaFromStripExample
              (exampleFilter true deadStripOne)
              (exampleESD true [0; 3 / 5; 1 / 2]) 0 1 "I" 0 512 1
              (sectorStart (mkCounts 0 0 0)
                           (Clear 1000 1000 (exampleESD true []))))
         = mkMerging false (-1) false).
Proof.
  split.
  - assert (Hl : forall x, In x [3 / 5; 1 / 2; 1 / 2] -> x <> 1000)
      by valid_signals.
    assert (Hs : noSignal 1000 stripIndexPack etaFromStripExample
                   twoStripFilter (exampleESD true [3 / 5; 1 / 2; 1 / 2]) 0
                   1 "I" 0 512 0 = false).
    { rewrite twoStrip_noSignal by (try lia; exact Hl). simpl. decideR.
      reflexivity. }
    split; [reflexivity |].
    split; [rewrite twoStrip_SignalInStrip; reflexivity |].
    split; [reflexivity |].
    split.
    + rewrite body_output_signal by exact Hs.
      rewrite twoStrip_readSignals by (try lia; exact Hl).
      unfold sectorStart. cbn [merging counts]. eval_mergeStrip.
      reflexivity.
    + rewrite (proj1 (body_merging_signal _ _ _ _ _ _ _ _ _ _ _ _ Hs)).
      rewrite twoStrip_readSignals by (try lia; exact Hl).
      unfold sectorStart. cbn [merging counts]. eval_mergeStrip.
      reflexivity.
  - assert (Hl : forall x, In x [0; 3 / 5; 1 / 2] -> x <> 1000)
      by valid_signals.
    assert (Hs : noSignal 1000 stripIndexPack etaFromStripExample
                   (exampleFilter true deadStripOne)
                   (exampleESD true [0; 3 / 5; 1 / 2]) 0
                   1 "I" 0 512 1 = true).
    { rewrite example_noSignal by (try lia; exact Hl). eval_dead.
      reflexivity. }
    split; [vm_compute; reflexivity |].
    split; [rewrite example_SignalInStrip; reflexivity |].
    split; [rewrite example_SignalInStrip; reflexivity |].
    split; [rewrite example_SignalInStrip; reflexivity |].
    split.
    + rewrite body_output_this.
      rewrite example_stripValue by (try lia; exact Hl). eval_dead.
      reflexivity.
    + apply body_merging_noSignal. exact Hs.
Qed.

Lemma Filter_returns_true_witness :
  exists res,
    Filter 1000 1000 stripIndexPack etaFromStripExample
           (exampleFilter true ∅) (exampleESD true sevenStrips) 0 false
           (exampleESD true []) = Some (true, res).
Proof.
  apply (proj1 (Filter_returns_true 1000 1000 stripIndexPack
                  etaFromStripExample (exampleFilter true ∅)
                  (exampleESD true sevenStrips) 0 false
                  (exampleESD true []))).
  apply exampleFilter_owns.
Defined.

(** The claim C7 as the specification states it fails for a filter
    without ring containers, which is what the default constructor
    builds: [GetRingHistos] returns the null pointer for FMD1i and the
    run of [Filter] ends there, so that no flag is returned. *)
Lemma Filter_without_ring_histos_has_no_result :
  fRingHistos bareFilter = []
  /\ GetRingHistos (fRingHistos bareFilter) 1 "I" = None
  /\ Filter 1000 1000 stripIndexPack etaFromStripExample bareFilter
            (exampleESD true sevenStrips) 0 false (exampleESD true [])
     = None
  /\ forall res,
       Filter 1000 1000 stripIndexPack etaFromStripExample bareFilter
              (exampleESD true sevenStrips) 0 false (exampleESD true [])
       <> Some (true, res).
Proof.
  assert (E : Filter 1000 1000 stripIndexPack etaFromStripExample bareFilter
                (exampleESD true sevenStrips) 0 false (exampleESD true [])
              = None)
    by (apply (Filter_fails 1000 1000 stripIndexPack etaFromStripExample
                 bareFilter (exampleESD true sevenStrips) 0 false
                 (exampleESD true []) 1 "I"); reflexivity).
  split; [reflexivity |]. split; [reflexivity |]. split; [exact E |].
  intros res. rewrite E. discriminate.
Qed.

(** ** Further properties *)

(** *** The angle corrections in closed form *)

Lemma cos_2atan (y : R) : cos (2 * atan y) = (1 - y * y) / (1 + y * y).
Proof.
  assert (Hpos : 0 < 1 + y²) by (unfold Rsqr; nra).
  assert (Hs : sqrt (1 + y²) * sqrt (1 + y²) = 1 + y²)
    by (apply sqrt_sqrt; lra).
  assert (Hne : sqrt (1 + y²) <> 0).
  { intros H0. rewrite H0 in Hs. lra. }
  rewrite cos_2a_cos, cos_atan.
  replace (2 * (1 / sqrt (1 + y²)) * (1 / sqrt (1 + y²)) - 1)
    with (2 / (sqrt (1 + y²) * sqrt (1 + y²)) - 1) by (field; exact Hne).
  rewrite Hs. unfold Rsqr. field. unfold Rsqr in Hpos. lra.
Qed.

(** The macro [ETA2COS] gives the cosine of the angle of [AngleCorrect]:
    below zero the shift by [PI] undoes the sign of the pseudo-rapidity. *)
Lemma cos_incidenceAngle_ETA2COS eta : cos (incidenceAngle eta) = ETA2COS eta.
Proof.
  unfold incidenceAngle, ETA2COS.
  destruct (Rlt_dec eta 0) as [Hneg | Hpos].
  - rewrite Rltb_true by exact Hneg. rewrite Rabs_left by exact Hneg.
    rewrite Ropp_involutive.
    rewrite exp_Ropp, atan_inv by apply exp_pos.
    replace (2 * (PI / 2 - atan (exp eta)) - PI) with (- (2 * atan (exp eta)))
      by lra.
    apply cos_neg.
  - rewrite Rltb_false by exact Hpos. rewrite Rabs_right by lra. reflexivity.
Qed.

Lemma ETA2COS_tanh eta : ETA2COS eta = tanh (Rabs eta).
Proof.
  unfold ETA2COS, tanh, sinh, cosh. rewrite cos_2atan, exp_Ropp.
  pose proof (exp_pos (Rabs eta)) as HE.
  field. split; nra.
Qed.

Lemma cos_incidenceAngle_range eta : 0 <= cos (incidenceAngle eta) < 1.
Proof.
  split; [| apply cos_incidenceAngle_lt_1].
  destruct (Req_dec_T eta 0) as [-> | Hne].
  - rewrite cos_incidenceAngle_0. lra.
  - left. apply cos_incidenceAngle_pos. exact Hne.
Qed.

(** X1. Over exact real arithmetic, without the rounding of [Double_t]
    and of [TMath], the angle correction multiplies a signal by the
    hyperbolic tangent of the absolute pseudo-rapidity and the
    de-correction divides by it, so both depend on the absolute value of
    the pseudo-rapidity only.  At pseudo-rapidity 0 the quotient is the
    one of the real numbers of the development, which is 0. *)
Theorem AngleCorrect_closed_form (m eta : R) :
  AngleCorrect m eta = m * tanh (Rabs eta)
  /\ DeAngleCorrect m eta = m / tanh (Rabs eta)
  /\ AngleCorrect m (- eta) = AngleCorrect m eta
  /\ DeAngleCorrect m (- eta) = DeAngleCorrect m eta.
Proof.
  unfold AngleCorrect, DeAngleCorrect.
  rewrite !cos_incidenceAngle_ETA2COS, !ETA2COS_tanh, Rabs_Ropp.
  repeat split; reflexivity.
Qed.

(** X2. Over exact real arithmetic, without the rounding of [Double_t]
    and of [TMath], the angle correction never raises a signal that is
    not negative, and at pseudo-rapidity 0 it wipes the signal out; away
    from 0 it keeps a positive signal positive and strictly lowers it,
    and the de-correction strictly raises it. *)
Theorem AngleCorrect_lowers_signal (m eta : R) :
  (0 <= m -> 0 <= AngleCorrect m eta <= m)
  /\ AngleCorrect m 0 = 0
  /\ (0 < m -> eta <> 0 ->
        0 < AngleCorrect m eta < m /\ m < DeAngleCorrect m eta).
Proof.
  unfold AngleCorrect, DeAngleCorrect.
  pose proof (cos_incidenceAngle_range eta) as [Hc0 Hc1].
  split; [| split].
  - intros Hm. split; nra.
  - rewrite cos_incidenceAngle_0. lra.
  - intros Hm Hne. pose proof (cos_incidenceAngle_pos eta Hne) as Hc.
    split; [split; nra |].
    apply (Rmult_lt_reg_r (cos (incidenceAngle eta))); [exact Hc |].
    replace (m / cos (incidenceAngle eta) * cos (incidenceAngle eta)) with m
      by (field; lra).
    nra.
Qed.

Lemma AngleCorrect_lowers_signal_witness :
  0 < AngleCorrect 2 1 < 2 /\ 2 < DeAngleCorrect 2 1.
Proof.
  apply (AngleCorrect_lowers_signal 2 1); lra.
Defined.

(** *** Dead strips, one by one and by region *)

Lemma TestBitNumber_SetBitNumber_eq (b : gset N) (n m : N) :
  TestBitNumber (SetBitNumber b n true) m = TestBitNumber b m || (n =? m)%N.
Proof.
  unfold TestBitNumber, SetBitNumber.
  destruct (N.eqb_spec n m) as [-> | Hne].
  - rewrite orb_true_r. apply bool_decide_eq_true. set_solver.
  - rewrite orb_false_r. apply bool_decide_ext.
    rewrite elem_of_union, elem_of_singleton. split; [| auto].
    intros [H | H]; [congruence | exact H].
Qed.

(** [AddDead] in one equation: a malformed address leaves the filter as
    it is with a warning, a well-formed address sets its bit. *)
Lemma AddDead_cases Pack f d r s t :
  (malformedAddress d r s t = true
   /\ fst (AddDead Pack f d r s t) = f
   /\ exists w, snd (AddDead Pack f d r s t) = Some w)
  \/ (malformedAddress d r s t = false
      /\ AddDead Pack f d r s t =
           (mkFilter (fRingHistos f) (fCorrectAngles f) (fLCuts f)
                     (fHCuts f) (fThreeStripSharing f) (fRecalculateEta f)
                     (SetBitNumber (fXtraDead f) (Pack d r s t) true)
                     (fInvalidIsEmpty f), None)).
Proof.
  unfold malformedAddress, AddDead.
  destruct (d <? 1)%N, (3 <? d)%N, (d =? 1)%N, (isInner r),
    (20 <=? s)%N, (40 <=? s)%N, (512 <=? t)%N, (256 <=? t)%N; simpl;
    first [ left; split; [reflexivity |];
            split; [reflexivity | eexists; reflexivity]
          | right; split; reflexivity ].
Qed.

Lemma IsDead_AddDead Pack f d r s t d' r' s' t' :
  IsDead Pack (fst (AddDead Pack f d r s t)) d' r' s' t' =
  IsDead Pack f d' r' s' t'
  || (negb (malformedAddress d r s t)
      && (Pack d r s t =? Pack d' r' s' t')%N).
Proof.
  destruct (AddDead_cases Pack f d r s t) as [(Hm & Hf & _) | (Hm & Hf)];
    rewrite Hm, Hf; simpl.
  - rewrite orb_false_r. reflexivity.
  - unfold IsDead. simpl. apply TestBitNumber_SetBitNumber_eq.
Qed.

(** X3. [AddDead] never revives a strip, and it leaves alone every strip
    whose packed index differs from the one of the added strip. *)
Theorem AddDead_keeps_other_strips
    (Pack : N -> ascii -> N -> N -> N) (f : AliFMDSharingFilter)
    (d : N) (r : ascii) (s t : N) (d' : N) (r' : ascii) (s' t' : N) :
  (IsDead Pack f d' r' s' t' = true ->
     IsDead Pack (fst (AddDead Pack f d r s t)) d' r' s' t' = true)
  /\ (Pack d r s t <> Pack d' r' s' t' ->
        IsDead Pack (fst (AddDead Pack f d r s t)) d' r' s' t' =
        IsDead Pack f d' r' s' t').
Proof.
  rewrite IsDead_AddDead. split.
  - intros ->. reflexivity.
  - intros Hne. apply N.eqb_neq in Hne. rewrite Hne, andb_false_r.
    apply orb_false_r.
Qed.

Lemma AddDead_keeps_other_strips_witness :
  IsDead stripIndexPack
         (fst (AddDead stripIndexPack (exampleFilter true deadStripOne)
                       2 "O" 39 255)) 1 "I" 0 1 = true
  /\ IsDead stripIndexPack
            (fst (AddDead stripIndexPack (exampleFilter true deadStripOne)
                          2 "O" 39 255)) 1 "I" 0 0 =
     IsDead stripIndexPack (exampleFilter true deadStripOne) 1 "I" 0 0.
Proof.
  split.
  - apply (proj1 (AddDead_keeps_other_strips stripIndexPack
                    (exampleFilter true deadStripOne) 2 "O" 39 255
                    1 "I" 0 1)).
    vm_compute. reflexivity.
  - apply (proj2 (AddDead_keeps_other_strips stripIndexPack
                    (exampleFilter true deadStripOne) 2 "O" 39 255
                    1 "I" 0 0)).
    vm_compute. discriminate.
Defined.

Lemma SetBitNumber_twice (b : gset N) (n : N) :
  SetBitNumber (SetBitNumber b n true) n true = SetBitNumber b n true.
Proof.
  unfold SetBitNumber. rewrite (assoc_L (∪)), (idemp_L (∪)). reflexivity.
Qed.

Lemma SetBitNumber_swap (b : gset N) (n m : N) :
  SetBitNumber (SetBitNumber b n true) m true =
  SetBitNumber (SetBitNumber b m true) n true.
Proof.
  unfold SetBitNumber.
  rewrite !(assoc_L (∪)), (comm_L (∪) {[m]} {[n]}). reflexivity.
Qed.

Lemma AddDead_fst Pack f d r s t :
  fst (AddDead Pack f d r s t) =
  if malformedAddress d r s t then f
  else mkFilter (fRingHistos f) (fCorrectAngles f) (fLCuts f) (fHCuts f)
                (fThreeStripSharing f) (fRecalculateEta f)
                (SetBitNumber (fXtraDead f) (Pack d r s t) true)
                (fInvalidIsEmpty f).
Proof.
  destruct (AddDead_cases Pack f d r s t) as [(Hm & Hf & _) | (Hm & Hf)];
    rewrite Hm, Hf; reflexivity.
Qed.

(** X4. Adding a dead strip twice is the same as adding it once, and two
    strips can be added in either order: the filters are equal. *)
Theorem AddDead_idempotent_and_commutes
    (Pack : N -> ascii -> N -> N -> N) (f : AliFMDSharingFilter)
    (d : N) (r : ascii) (s t : N) (d' : N) (r' : ascii) (s' t' : N) :
  fst (AddDead Pack (fst (AddDead Pack f d r s t)) d r s t) =
  fst (AddDead Pack f d r s t)
  /\ fst (AddDead Pack (fst (AddDead Pack f d r s t)) d' r' s' t') =
     fst (AddDead Pack (fst (AddDead Pack f d' r' s' t')) d r s t).
Proof.
  rewrite !AddDead_fst.
  destruct (malformedAddress d r s t), (malformedAddress d' r' s' t');
    cbn [fRingHistos fCorrectAngles fLCuts fHCuts fThreeStripSharing
         fRecalculateEta fXtraDead fInvalidIsEmpty];
    rewrite ?SetBitNumber_twice; split; try reflexivity.
  rewrite SetBitNumber_swap. reflexivity.
Qed.

Lemma in_fromTo (a b k : N) : In k (fromTo a b) <-> (a <= k <= b)%N.
Proof.
  unfold fromTo. rewrite in_map_iff. split.
  - intros (i & <- & Hi). apply in_seq in Hi. lia.
  - intros H. exists (N.to_nat (k - a)). split; [lia |]. apply in_seq. lia.
Qed.

Lemma fromTo_empty (a b : N) : (b < a)%N -> fromTo a b = [].
Proof.
  intros H. unfold fromTo.
  replace (N.to_nat (b + 1 - a)) with 0%nat by lia. reflexivity.
Qed.

(** The warning of [AddDead] depends on the address only. *)
Lemma AddDead_warning Pack f f' d r s t :
  snd (AddDead Pack f d r s t) = snd (AddDead Pack f' d r s t).
Proof.
  unfold AddDead.
  repeat match goal with
         | |- context [if ?b then _ else _] => destruct b
         end; reflexivity.
Qed.

Lemma AddDead_warning_nil Pack f d r s t :
  match snd (AddDead Pack f d r s t) with Some w => [w] | None => [] end = []
  <-> malformedAddress d r s t = false.
Proof.
  destruct (AddDead_cases Pack f d r s t) as [(Hm & _ & [w Hw]) | (Hm & Hf)].
  - rewrite Hw, Hm. split; discriminate.
  - rewrite Hf, Hm. split; reflexivity.
Qed.

Section Region.

Variable Pack : N -> ascii -> N -> N -> N.
Variable d : N.
Variable r : ascii.

(** The dead strips and the warnings after the calls of [AddDead] for the
    strips [ts] of sector [s], and after the calls for the sectors [ss]. *)
Local Abbreviation addStrips s ts fw :=
  (fold_left
     (fun (fw : AliFMDSharingFilter * list Warning) t =>
        let (f', w) := AddDead Pack (fst fw) d r s t in
        (f', snd fw ++ match w with Some w => [w] | None => [] end))
     ts fw).

Local Abbreviation addSectors ss ts fw :=
  (fold_left (fun fw s => addStrips s ts fw) ss fw).

Local Abbreviation marks d' r' s' t' s :=
  (fun t => negb (malformedAddress d r s t)
            && (Pack d r s t =? Pack d' r' s' t')%N).

Local Abbreviation warnings f0 s :=
  (fun t =>
     match snd (AddDead Pack f0 d r s t) with
     | Some w => [w]
     | None => []
     end).

Lemma addStrips_dead s ts fw d' r' s' t' :
  IsDead Pack (fst (addStrips s ts fw)) d' r' s' t' =
  IsDead Pack (fst fw) d' r' s' t' || existsb (marks d' r' s' t' s) ts.
Proof.
  revert fw. induction ts as [| t ts IH]; intros fw.
  - simpl. rewrite orb_false_r. reflexivity.
  - simpl. rewrite IH.
    destruct (AddDead Pack (fst fw) d r s t) as [f' w] eqn:E. simpl fst.
    replace f' with (fst (AddDead Pack (fst fw) d r s t)) by (rewrite E; reflexivity).
    rewrite IsDead_AddDead, orb_assoc. reflexivity.
Qed.

Lemma addSectors_dead ss ts fw d' r' s' t' :
  IsDead Pack (fst (addSectors ss ts fw)) d' r' s' t' =
  IsDead Pack (fst fw) d' r' s' t'
  || existsb (fun s => existsb (marks d' r' s' t' s) ts) ss.
Proof.
  revert fw. induction ss as [| s ss IH]; intros fw.
  - simpl. rewrite orb_false_r. reflexivity.
  - simpl. rewrite IH, addStrips_dead, orb_assoc. reflexivity.
Qed.

Lemma addStrips_warnings f0 s ts fw :
  snd (addStrips s ts fw) = snd fw ++ flat_map (warnings f0 s) ts.
Proof.
  revert fw. induction ts as [| t ts IH]; intros fw.
  - simpl. rewrite app_nil_r. reflexivity.
  - simpl. rewrite IH.
    rewrite (AddDead_warning Pack f0 (fst fw) d r s t).
    destruct (AddDead Pack (fst fw) d r s t) as [f' w]. simpl.
    rewrite <- app_assoc. reflexivity.
Qed.

Lemma addSectors_warnings f0 ss ts fw :
  snd (addSectors ss ts fw) =
  snd fw ++ flat_map (fun s => flat_map (warnings f0 s) ts) ss.
Proof.
  revert fw. induction ss as [| s ss IH]; intros fw.
  - simpl. rewrite app_nil_r. reflexivity.
  - simpl. rewrite IH, (addStrips_warnings f0), <- app_assoc. reflexivity.
Qed.

Lemma addStrips_nil s fw : addStrips s [] fw = fw.
Proof. reflexivity. Qed.

Lemma addSectors_no_strips ss fw : addSectors ss [] fw = fw.
Proof. induction ss as [| s ss IH]; [reflexivity | exact IH]. Qed.

Lemma flat_map_nil {A B : Type} (g : A -> list B) (l : list A) :
  flat_map g l = [] <-> forall x, In x l -> g x = [].
Proof.
  induction l as [| a l IH]; simpl.
  - split; [intros _ x [] | reflexivity].
  - split.
    + intros H. apply app_eq_nil in H as [Ha Hl].
      intros x [<- | Hx]; [exact Ha | apply IH; assumption].
    + intros H. rewrite (H a) by (left; reflexivity).
      apply IH. intros x Hx. apply H. right. exact Hx.
Qed.

(** X5. After [AddDeadRegion] a strip is dead exactly when it was dead
    before or its packed index is the one of a well-formed address of the
    region, both bounds included. *)
Theorem AddDeadRegion_marks_the_region
    (f : AliFMDSharingFilter) (s1 s2 t1 t2 : N)
    (d' : N) (r' : ascii) (s' t' : N) :
  IsDead Pack (fst (AddDeadRegion Pack f d r s1 s2 t1 t2)) d' r' s' t' = true
  <-> IsDead Pack f d' r' s' t' = true
      \/ exists s t,
           (s1 <= s <= s2)%N /\ (t1 <= t <= t2)%N
           /\ malformedAddress d r s t = false
           /\ Pack d r s t = Pack d' r' s' t'.
Proof.
  unfold AddDeadRegion. rewrite addSectors_dead. simpl fst.
  rewrite orb_true_iff, existsb_exists.
  split; (intros [H | H]; [left; exact H | right]).
  - destruct H as (s & Hs & H). apply existsb_exists in H as (t & Ht & H).
    apply andb_true_iff in H as [Hm Hp].
    exists s, t. rewrite <- !in_fromTo. repeat split; try assumption.
    + apply negb_true_iff. exact Hm.
    + apply N.eqb_eq. exact Hp.
  - destruct H as (s & t & Hs & Ht & Hm & Hp).
    exists s. split; [apply in_fromTo; exact Hs |].
    apply existsb_exists. exists t. split; [apply in_fromTo; exact Ht |].
    rewrite Hm, Hp, N.eqb_refl. reflexivity.
Qed.

(** X6. [AddDeadRegion] gives no warning exactly when every address of
    the region is well-formed, and a region whose upper bound of sectors
    or of strips lies below the lower bound leaves the filter as it is,
    without a warning. *)
Theorem AddDeadRegion_warnings
    (f : AliFMDSharingFilter) (s1 s2 t1 t2 : N) :
  (snd (AddDeadRegion Pack f d r s1 s2 t1 t2) = []
   <-> forall s t, (s1 <= s <= s2)%N -> (t1 <= t <= t2)%N ->
                   malformedAddress d r s t = false)
  /\ ((s2 < s1)%N \/ (t2 < t1)%N ->
        AddDeadRegion Pack f d r s1 s2 t1 t2 = (f, [])).
Proof.
  split.
  - unfold AddDeadRegion. rewrite (addSectors_warnings f). simpl snd.
    simpl app. rewrite flat_map_nil. split.
    + intros H s t Hs Ht. apply in_fromTo in Hs. apply in_fromTo in Ht.
      specialize (H s Hs). rewrite flat_map_nil in H.
      apply (AddDead_warning_nil Pack f d r s t). exact (H t Ht).
    + intros H s Hs. apply flat_map_nil. intros t Ht.
      apply AddDead_warning_nil. apply H; apply in_fromTo; assumption.
  - unfold AddDeadRegion. intros [H | H].
    + rewrite (fromTo_empty s1 s2 H). reflexivity.
    + rewrite (fromTo_empty t1 t2 H). apply addSectors_no_strips.
Qed.

End Region.

Lemma AddDeadRegion_marks_the_region_witness :
  IsDead stripIndexPack
         (fst (AddDeadRegion stripIndexPack (exampleFilter true ∅)
                             2 "O" 3 5 250 300)) 2 "O" 4 255 = true.
Proof.
  apply (proj2 (AddDeadRegion_marks_the_region stripIndexPack 2 "O"
                  (exampleFilter true ∅) 3 5 250 300 2 "O" 4 255)).
  right. exists 4%N, 255%N.
  repeat split; try lia; reflexivity.
Defined.

Lemma AddDeadRegion_warnings_witness :
  snd (AddDeadRegion stripIndexPack (exampleFilter true ∅) 3 "I" 0 19 0 511)
  = []
  /\ AddDeadRegion stripIndexPack (exampleFilter true ∅) 3 "I" 5 4 0 511 =
     (exampleFilter true ∅, []).
Proof.
  split.
  - apply (proj2 (proj1 (AddDeadRegion_warnings stripIndexPack 3 "I"
                           (exampleFilter true ∅) 0 19 0 511))).
    intros s t Hs Ht. unfold malformedAddress. simpl.
    replace (20 <=? s)%N with false by (symmetry; apply N.leb_gt; lia).
    replace (512 <=? t)%N with false by (symmetry; apply N.leb_gt; lia).
    reflexivity.
  - apply (proj2 (AddDeadRegion_warnings stripIndexPack 3 "I"
                    (exampleFilter true ∅) 5 4 0 511)).
    left. lia.
Defined.

(** *** Ring containers *)

(** X7. With the five containers of the named constructor,
    [GetRingHistos] finds the container of the ring for the detectors 1
    to 3: on detector 1 whatever the ring is called, on the others the
    outer ring for every name but I and i.  So every ring that the loops
    of [Filter] visit has its container.  For another detector, and for
    a filter without containers, the result is the null pointer; a
    container that is found is one of the list. *)
Theorem GetRingHistos_finds_the_ring
    (l : list RingHistos) (d : N) (r : ascii) :
  GetRingHistos namedRingHistos d r =
    (if (1 <=? d)%N && (d <=? 3)%N
     then Some (mkRingHistos d (if (d =? 1)%N || isInner r then "I" else "O"))
     else None)
  /\ (validRing d r = true ->
        GetRingHistos namedRingHistos d r = Some (mkRingHistos d r))
  /\ GetRingHistos [] d r = None
  /\ ((d <? 1)%N || (3 <? d)%N = true -> GetRingHistos l d r = None)
  /\ (forall h, GetRingHistos l d r = Some h -> In h l).
Proof.
  split; [| split; [| repeat split]].
  2: { unfold validRing, GetRingHistos.
       destruct (N.eqb_spec d 1) as [-> | H1];
         [destruct (Ascii.eqb_spec r "I") as [-> | Hr];
            [reflexivity | discriminate] |].
       destruct (N.eqb_spec d 2) as [-> | H2];
         [destruct (Ascii.eqb_spec r "I") as [-> | Hr]; [reflexivity |];
          destruct (Ascii.eqb_spec r "O") as [-> | Hr'];
            [reflexivity | discriminate] |].
       destruct (N.eqb_spec d 3) as [-> | H3];
         [destruct (Ascii.eqb_spec r "I") as [-> | Hr]; [reflexivity |];
          destruct (Ascii.eqb_spec r "O") as [-> | Hr'];
            [reflexivity | discriminate] |].
       discriminate. }
  - unfold GetRingHistos, isInner.
    destruct (N.eqb_spec d 1) as [-> | H1]; [reflexivity |].
    destruct (N.eqb_spec d 2) as [-> | H2];
      [destruct (Ascii.eqb r "I" || Ascii.eqb r "i"); reflexivity |].
    destruct (N.eqb_spec d 3) as [-> | H3];
      [destruct (Ascii.eqb r "I" || Ascii.eqb r "i"); reflexivity |].
    simpl.
    replace ((1 <=? d)%N && (d <=? 3)%N) with false; [reflexivity |].
    symmetry. apply andb_false_iff.
    destruct (N.leb_spec 1 d); [right; apply N.leb_gt; lia | left; reflexivity].
  - unfold GetRingHistos.
    destruct (d =? 1)%N, (d =? 2)%N, (d =? 3)%N,
      (Ascii.eqb r "I" || Ascii.eqb r "i"); reflexivity.
  - intros H. unfold GetRingHistos.
    replace (d =? 1)%N with false
      by (symmetry; apply N.eqb_neq; apply orb_true_iff in H as [H | H];
          apply N.ltb_lt in H; lia).
    replace (d =? 2)%N with false
      by (symmetry; apply N.eqb_neq; apply orb_true_iff in H as [H | H];
          apply N.ltb_lt in H; lia).
    replace (d =? 3)%N with false
      by (symmetry; apply N.eqb_neq; apply orb_true_iff in H as [H | H];
          apply N.ltb_lt in H; lia).
    reflexivity.
  - intros h. unfold GetRingHistos.
    match goal with
    | |- (if ?b then _ else _) = _ -> _ => destruct b; [discriminate |]
    end.
    apply nth_error_In.
Qed.

Lemma GetRingHistos_finds_the_ring_witness :
  GetRingHistos namedRingHistos 0 "I" = None
  /\ In (mkRingHistos 3 "O") namedRingHistos.
Proof.
  destruct (GetRingHistos_finds_the_ring namedRingHistos 0 "I")
    as (_ & _ & _ & Hnone & _).
  destruct (GetRingHistos_finds_the_ring namedRingHistos 3 "O")
    as (_ & _ & _ & _ & Hin).
  split; [apply Hnone; reflexivity | apply Hin; reflexivity].
Defined.

(** *** Strips without signal, dead strips and single hits *)

Lemma validStrip_wellformed d r s t :
  validStrip d r s t = true -> malformedAddress d r s t = false.
Proof.
  unfold validStrip, validRing, malformedAddress, isInner, sectorsOf, stripsOf.
  rewrite !N.leb_antisym.
  destruct (N.eqb_spec d 1), (N.eqb_spec d 2), (N.eqb_spec d 3);
    try lia; subst;
    destruct (Ascii.eqb_spec r "I"), (Ascii.eqb_spec r "O");
    try congruence; subst; simpl;
    try discriminate;
    destruct (s <? _)%N, (t <? _)%N; simpl; congruence.
Qed.

Section Strips.

Variable kInvalidMult : R.
Variable kInvalidEta : R.
Variable Pack : N -> ascii -> N -> N -> N.
Variable GetEtaFromStrip : N -> ascii -> N -> N -> R -> R.
Variable f : AliFMDSharingFilter.
Variable input : AliESDFMD.
Variable zvtx : R.

Local Abbreviation read := (SignalInStrip kInvalidMult f input).
Local Abbreviation signals :=
  (readSignals kInvalidMult GetEtaFromStrip f input zvtx).
Local Abbreviation dead :=
  (deadStrip kInvalidMult Pack GetEtaFromStrip f input zvtx).
Local Abbreviation skip :=
  (noSignal kInvalidMult Pack GetEtaFromStrip f input zvtx).
Local Abbreviation mstep :=
  (mergingStep kInvalidMult Pack GetEtaFromStrip f input zvtx).
Local Abbreviation before :=
  (mergingBefore kInvalidMult Pack GetEtaFromStrip f input zvtx).
Local Abbreviation value :=
  (stripValue kInvalidMult Pack GetEtaFromStrip f input zvtx).
Local Abbreviation final :=
  (stripOutput kInvalidMult Pack GetEtaFromStrip f input zvtx).
Local Abbreviation merges d r sg :=
  (thisValid f d r sg && nextValid f d r sg
   && (thisSmall f d r sg || nextSmall f d r sg)).

(** The signal of a strip as the body holds it, in terms of what
    [SignalInStrip] returns. *)
Lemma sigMult_read d r s nstr t :
  sigMult (signals d r s nstr t) =
  let mult := read d r s t in
  let mult :=
    if fRecalculateEta f && Rltb 0 mult && negb (Reqb mult kInvalidMult)
    then mult * (ETA2COS (GetEtaFromStrip d r s t zvtx)
                 / ETA2COS (Eta input d r s t))
    else mult in
  if Reqb mult kInvalidMult && fInvalidIsEmpty f then 0 else mult.
Proof.
  unfold readSignals. cbv zeta.
  destruct (fRecalculateEta f); cbn [andb]; [| reflexivity].
  destruct (Rltb 0 (read d r s t) && negb (Reqb (read d r s t) kInvalidMult));
    reflexivity.
Qed.

Lemma sigEta_read d r s nstr t :
  sigEta (signals d r s nstr t) =
  if fRecalculateEta f then GetEtaFromStrip d r s t zvtx
  else Eta input d r s t.
Proof.
  unfold readSignals. cbv zeta.
  destruct (fRecalculateEta f); cbn [andb]; [| reflexivity].
  destruct (Rltb 0 (read d r s t) && negb (Reqb (read d r s t) kInvalidMult));
    reflexivity.
Qed.

Lemma read_invalid d r s t :
  Multiplicity input d r s t = kInvalidMult -> read d r s t = kInvalidMult.
Proof.
  intros H. unfold SignalInStrip. rewrite H, Reqb_refl. reflexivity.
Qed.

Lemma read_zero d r s t :
  Multiplicity input d r s t = 0 -> read d r s t = 0.
Proof.
  intros H. unfold SignalInStrip. rewrite H, Reqb_refl, orb_true_r.
  reflexivity.
Qed.

Lemma sigMult_invalid d r s nstr t :
  read d r s t = kInvalidMult ->
  sigMult (signals d r s nstr t) =
  if fInvalidIsEmpty f then 0 else kInvalidMult.
Proof.
  intros H. rewrite sigMult_read. cbv zeta.
  rewrite H, Reqb_refl. cbn [negb]. rewrite andb_false_r, Reqb_refl.
  reflexivity.
Qed.

Lemma sigMult_zero d r s nstr t :
  read d r s t = 0 -> sigMult (signals d r s nstr t) = 0.
Proof.
  intros H. rewrite sigMult_read. cbv zeta.
  rewrite H, (Rltb_false 0 0) by lra. rewrite andb_false_r. cbn [andb].
  destruct (Reqb 0 kInvalidMult && fInvalidIsEmpty f); reflexivity.
Qed.

(** A strip without signal comes out as zero, or as invalid when it is
    dead: no pending sum is flushed to it. *)
Lemma final_noSignal d r s nstr t :
  skip d r s nstr t = true ->
  final d r s nstr t = if dead d r s nstr t then kInvalidMult else 0.
Proof.
  intros Hs. unfold stripOutput, mergingStep. rewrite Hs. cbn [fst eTotal].
  rewrite (Rltb_false 0 (-1)) by lra. rewrite andb_false_r.
  unfold stripValue. rewrite Hs. reflexivity.
Qed.

Lemma final_dead d r s nstr t :
  IsDead Pack f d r s t = true -> final d r s nstr t = kInvalidMult.
Proof.
  intros H.
  assert (Hd : dead d r s nstr t = true)
    by (unfold deadStrip; rewrite H; apply orb_true_r).
  rewrite final_noSignal, Hd; [reflexivity |].
  apply dead_noSignal. exact Hd.
Qed.

Lemma final_invalid d r s nstr t :
  Multiplicity input d r s t = kInvalidMult ->
  final d r s nstr t =
  if fInvalidIsEmpty f && negb (IsDead Pack f d r s t) then 0
  else kInvalidMult.
Proof.
  intros H. apply read_invalid in H.
  pose proof (sigMult_invalid d r s nstr t H) as Hm.
  destruct (IsDead Pack f d r s t) eqn:Hx.
  - rewrite andb_false_r. apply final_dead. exact Hx.
  - rewrite andb_true_r.
    assert (Hd : dead d r s nstr t =
                 Reqb (if fInvalidIsEmpty f then 0 else kInvalidMult)
                      kInvalidMult)
      by (unfold deadStrip; rewrite Hm, Hx; apply orb_false_r).
    rewrite final_noSignal.
    + rewrite Hd. destruct (fInvalidIsEmpty f).
      * destruct (Reqb 0 kInvalidMult) eqn:E; [| reflexivity].
        apply Reqb_eq in E. symmetry. exact E.
      * rewrite Reqb_refl. reflexivity.
    + apply dead_or_zero_noSignal. rewrite Hd, Hm.
      destruct (fInvalidIsEmpty f); [right; reflexivity |].
      left. apply Reqb_refl.
Qed.

Lemma final_zero d r s nstr t :
  Multiplicity input d r s t = 0 ->
  final d r s nstr t = if IsDead Pack f d r s t then kInvalidMult else 0.
Proof.
  intros H. apply read_zero in H.
  pose proof (sigMult_zero d r s nstr t H) as Hm.
  rewrite final_noSignal
    by (apply dead_or_zero_noSignal; right; exact Hm).
  unfold deadStrip. rewrite Hm.
  destruct (IsDead Pack f d r s t); [rewrite orb_true_r; reflexivity |].
  rewrite orb_false_r.
  destruct (Reqb 0 kInvalidMult) eqn:E; [| reflexivity].
  apply Reqb_eq in E. symmetry. exact E.
Qed.

Lemma empty_noSignal d r s nstr t :
  Multiplicity input d r s t = 0
  \/ Multiplicity input d r s t = kInvalidMult ->
  skip d r s nstr t = true.
Proof.
  intros [H | H]; apply dead_or_zero_noSignal.
  - right. apply sigMult_zero, read_zero, H.
  - pose proof (sigMult_invalid d r s nstr t (read_invalid d r s t H)) as Hm.
    destruct (fInvalidIsEmpty f); [right; exact Hm |].
    left. unfold deadStrip. rewrite Hm, Reqb_refl. reflexivity.
Qed.

(** A strip that meets neither a pending sum nor a mark of use, and that
    does not qualify for merging with its successor, keeps its signal when
    it is above the low cut and loses it otherwise; the merging state
    stays as it is. *)
Lemma unmerged_strip d r s nstr t mc :
  used (fst mc) = false ->
  ~ 0 < eTotal (fst mc) ->
  skip d r s nstr t = false ->
  merges d r (signals d r s nstr t) = false ->
  fst (mstep d r s nstr t mc) = fst mc
  /\ value d r s nstr t mc =
     mergedEnergy f (if thisValid f d r (signals d r s nstr t)
                     then sigMult (signals d r s nstr t) else 0)
                  (sigEta (signals d r s nstr t)).
Proof.
  intros Hu Hp Hs Hm. unfold mergingStep, stripValue.
  destruct (noSignal_false _ _ _ _ _ _ _ _ _ _ _ Hs) as [Hd _].
  rewrite Hs, Hd. unfold mergeStrip.
  rewrite (Rltb_false _ _ Hp), Hu, Hm.
  destruct (Rltb 0 (if thisValid f d r (signals d r s nstr t)
                    then sigMult (signals d r s nstr t) else 0));
    split; reflexivity.
Qed.

Lemma before_0 d r s nstr c :
  before d r s nstr 0 c = (mkMerging false (-1) false, c).
Proof. reflexivity. Qed.

Lemma mstep_noSignal d r s nstr t mc :
  skip d r s nstr t = true ->
  fst (mstep d r s nstr t mc) = mkMerging false (-1) false.
Proof. intros Hs. unfold mergingStep. rewrite Hs. reflexivity. Qed.

(** No sum is pending and no strip is marked as used as long as no strip
    qualifies for merging. *)
Lemma before_unmerged d r s nstr c k :
  (forall t, (t < k)%N -> skip d r s nstr t = false ->
             merges d r (signals d r s nstr t) = false) ->
  used (fst (before d r s nstr k c)) = false
  /\ ~ 0 < eTotal (fst (before d r s nstr k c)).
Proof.
  induction k as [| k IH] using N.peano_ind; intros H.
  - rewrite before_0. cbn [fst used eTotal]. split; [reflexivity | lra].
  - rewrite <- N.add_1_r, before_succ.
    destruct IH as [Hu Hp]; [intros t Ht; apply H; lia |].
    destruct (skip d r s nstr k) eqn:Hs.
    + rewrite (mstep_noSignal _ _ _ _ _ _ Hs). cbn [used eTotal].
      split; [reflexivity | lra].
    + destruct (unmerged_strip d r s nstr k _ Hu Hp Hs) as [-> _];
        [apply H; [lia | exact Hs] |].
      split; assumption.
Qed.

Lemma final_unmerged d r s nstr t :
  (forall t', (t' <= t)%N -> skip d r s nstr t' = false ->
              merges d r (signals d r s nstr t') = false) ->
  final d r s nstr t =
  if skip d r s nstr t
  then if dead d r s nstr t then kInvalidMult else 0
  else mergedEnergy f (if thisValid f d r (signals d r s nstr t)
                       then sigMult (signals d r s nstr t) else 0)
                    (sigEta (signals d r s nstr t)).
Proof.
  intros H.
  destruct (skip d r s nstr t) eqn:Hs; [apply final_noSignal; exact Hs |].
  destruct (before_unmerged d r s nstr (mkCounts 0 0 0) t) as [Hu Hp];
    [intros t' Ht'; apply H; lia |].
  destruct (unmerged_strip d r s nstr t _ Hu Hp Hs) as [Hm Hv];
    [apply H; [lia | exact Hs] |].
  unfold stripOutput. rewrite Hm, (Rltb_false _ _ Hp), andb_false_r.
  exact Hv.
Qed.

Variable lowFlux : bool.
Variable out0 : AliESDFMD.

Local Abbreviation run :=
  (Filter kInvalidMult kInvalidEta Pack GetEtaFromStrip f input zvtx
          lowFlux out0).

(** X8. A filter with its ring containers returns an output in which a
    strip of the detector that the filter holds as dead is invalid
    whatever its signal is.  A strip whose input is invalid comes out as
    invalid, or as zero when invalid signals count as empty and the strip
    is not held as dead; a strip whose input is zero comes out as zero
    unless it is held as dead.  No signal of a neighbour is moved to such
    a strip. *)
Theorem Filter_keeps_dead_and_empty_strips d r s t :
  ownsRingHistos f ->
  validStrip d r s t = true ->
  exists res,
    run = Some (true, res)
    /\ (IsDead Pack f d r s t = true ->
          Multiplicity res d r s t = kInvalidMult)
    /\ (Multiplicity input d r s t = kInvalidMult ->
          Multiplicity res d r s t =
          if fInvalidIsEmpty f && negb (IsDead Pack f d r s t) then 0
          else kInvalidMult)
    /\ (Multiplicity input d r s t = 0 ->
          Multiplicity res d r s t =
          if IsDead Pack f d r s t then kInvalidMult else 0).
Proof.
  intros Howns Hvalid.
  destruct (Filter_run kInvalidMult kInvalidEta Pack GetEtaFromStrip f input
              zvtx lowFlux out0 Howns) as (res & E & Hm & _).
  exists res. split; [exact E |]. rewrite Hm, Hvalid.
  repeat split; intros H.
  - apply final_dead. exact H.
  - apply final_invalid. exact H.
  - apply final_zero. exact H.
Qed.

(** X10. In a sector where, up to strip [t], no strip with a signal
    qualifies for merging with its successor, a filter with its ring
    containers passes the signal of strip [t] through: the signal above
    the low cut, angle corrected when the filter works on signals that
    are not, and zero for a signal that is not above the low cut. *)
Theorem Filter_passes_unshared_signals d r s t :
  ownsRingHistos f ->
  validStrip d r s t = true ->
  let nstr := stripsOf r in
  (forall t', (t' <= t)%N -> skip d r s nstr t' = false ->
              merges d r (signals d r s nstr t') = false) ->
  let sg := signals d r s nstr t in
  exists res,
    run = Some (true, res)
    /\ Multiplicity res d r s t =
       if skip d r s nstr t
       then if dead d r s nstr t then kInvalidMult else 0
       else mergedEnergy f (if thisValid f d r sg then sigMult sg else 0)
                         (sigEta sg).
Proof.
  intros Howns Hvalid nstr H sg.
  destruct (Filter_run kInvalidMult kInvalidEta Pack GetEtaFromStrip f input
              zvtx lowFlux out0 Howns) as (res & E & Hm & _).
  exists res. split; [exact E |]. rewrite Hm, Hvalid.
  apply final_unmerged. exact H.
Qed.

End Strips.

Lemma Filter_keeps_dead_and_empty_strips_witness :
  exists res,
    Filter 1000 1000 stripIndexPack etaFromStripExample
           (exampleFilter true deadStripOne)
           (exampleESD true sevenStrips) 0 false (exampleESD true [])
    = Some (true, res)
    /\ Multiplicity res 1 "I" 0 1 = 1000.
Proof.
  destruct (Filter_keeps_dead_and_empty_strips 1000 1000 stripIndexPack
              etaFromStripExample (exampleFilter true deadStripOne)
              (exampleESD true sevenStrips) 0 false (exampleESD true [])
              1 "I" 0 1 (exampleFilter_owns true deadStripOne) eq_refl)
    as (res & E & Hdead & _).
  exists res. split; [exact E |]. apply Hdead. vm_compute. reflexivity.
Defined.

Lemma AddDead_fRingHistos Pack f d r s t :
  fRingHistos (fst (AddDead Pack f d r s t)) = fRingHistos f.
Proof.
  rewrite AddDead_fst. destruct (malformedAddress d r s t); reflexivity.
Qed.

Lemma AddDeadRegion_fRingHistos Pack f d r s1 s2 t1 t2 :
  fRingHistos (fst (AddDeadRegion Pack f d r s1 s2 t1 t2)) = fRingHistos f.
Proof.
  unfold AddDeadRegion.
  assert (Hin : forall s ts fw,
            fRingHistos
              (fst (fold_left
                      (fun (fw : AliFMDSharingFilter * list Warning) t =>
                         let (f', w) := AddDead Pack (fst fw) d r s t in
                         (f', snd fw ++ match w with
                                        | Some w => [w]
                                        | None => []
                                        end))
                      ts fw)) = fRingHistos (fst fw)).
  { intros s ts. induction ts as [| t ts IH]; intros fw; [reflexivity |].
    simpl. rewrite IH.
    pose proof (AddDead_fRingHistos Pack (fst fw) d r s t) as E.
    destruct (AddDead Pack (fst fw) d r s t) as [f' w]. exact E. }
  generalize (fromTo s1 s2). intros ss.
  change (fRingHistos f) with (fRingHistos (fst (f, @nil Warning))).
  generalize (f, @nil Warning). induction ss as [| s ss IH]; intros fw;
    [reflexivity |].
  simpl. rewrite IH. apply Hin.
Qed.

(** X9. A strip of the detector that [AddDead] has added, or that lies in
    a region that [AddDeadRegion] has added, comes out of [Filter] as
    invalid; the filter keeps its ring containers, so that the run
    returns. *)
Theorem Filter_after_AddDead
    (kInvalidMult kInvalidEta : R) (Pack : N -> ascii -> N -> N -> N)
    (GetEtaFromStrip : N -> ascii -> N -> N -> R -> R)
    (f : AliFMDSharingFilter) (input : AliESDFMD) (zvtx : R)
    (lowFlux : bool) (out0 : AliESDFMD) (d : N) (r : ascii) (s t : N) :
  ownsRingHistos f ->
  validStrip d r s t = true ->
  (exists res,
     Filter kInvalidMult kInvalidEta Pack GetEtaFromStrip
            (fst (AddDead Pack f d r s t)) input zvtx lowFlux out0
     = Some (true, res)
     /\ Multiplicity res d r s t = kInvalidMult)
  /\ forall s1 s2 t1 t2,
       (s1 <= s <= s2)%N -> (t1 <= t <= t2)%N ->
       exists res,
         Filter kInvalidMult kInvalidEta Pack GetEtaFromStrip
                (fst (AddDeadRegion Pack f d r s1 s2 t1 t2))
                input zvtx lowFlux out0 = Some (true, res)
         /\ Multiplicity res d r s t = kInvalidMult.
Proof.
  intros Howns Hvalid.
  pose proof (validStrip_wellformed d r s t Hvalid) as Hwf.
  split; [| intros s1 s2 t1 t2 Hs Ht].
  - assert (Ho : ownsRingHistos (fst (AddDead Pack f d r s t)))
      by (intros d' r'; rewrite AddDead_fRingHistos; apply Howns).
    destruct (Filter_run kInvalidMult kInvalidEta Pack GetEtaFromStrip _
                input zvtx lowFlux out0 Ho) as (res & E & Hm & _).
    exists res. split; [exact E |]. rewrite Hm, Hvalid.
    apply final_dead.
    rewrite IsDead_AddDead, Hwf, N.eqb_refl. apply orb_true_r.
  - assert (Ho : ownsRingHistos (fst (AddDeadRegion Pack f d r s1 s2 t1 t2)))
      by (intros d' r'; rewrite AddDeadRegion_fRingHistos; apply Howns).
    destruct (Filter_run kInvalidMult kInvalidEta Pack GetEtaFromStrip _
                input zvtx lowFlux out0 Ho) as (res & E & Hm & _).
    exists res. split; [exact E |]. rewrite Hm, Hvalid.
    apply final_dead.
    unfold AddDeadRegion. rewrite addSectors_dead.
    apply orb_true_iff. right. apply existsb_exists.
    exists s. split; [apply in_fromTo; exact Hs |].
    apply existsb_exists. exists t. split; [apply in_fromTo; exact Ht |].
    rewrite Hwf, N.eqb_refl. reflexivity.
Qed.

Lemma Filter_after_AddDead_witness :
  exists res,
    Filter 1000 1000 stripIndexPack etaFromStripExample
           (fst (AddDead stripIndexPack (exampleFilter true ∅) 1 "I" 0 3))
           (exampleESD true sevenStrips) 0 false (exampleESD true [])
    = Some (true, res)
    /\ Multiplicity res 1 "I" 0 3 = 1000.
Proof.
  apply (proj1 (Filter_after_AddDead 1000 1000 stripIndexPack
                  etaFromStripExample (exampleFilter true ∅)
                  (exampleESD true sevenStrips) 0 false (exampleESD true [])
                  1 "I" 0 3 (exampleFilter_owns true ∅) eq_refl)).
Defined.

Lemma Filter_passes_unshared_signals_witness :
  exists res,
    Filter 1000 1000 stripIndexPack etaFromStripExample
           (exampleFilter true ∅) (exampleESD true [1; 1]) 0 false
           (exampleESD true []) = Some (true, res)
    /\ Multiplicity res 1 "I" 0 1 = 1.
Proof.
  assert (Hl : forall x, In x [1; 1] -> x <> 1000) by valid_signals.
  destruct (Filter_passes_unshared_signals 1000 1000 stripIndexPack
              etaFromStripExample (exampleFilter true ∅)
              (exampleESD true [1; 1]) 0 false (exampleESD true [])
              1 "I" 0 1 (exampleFilter_owns true ∅) eq_refl)
    as (res & E & H).
  - intros t' Ht' _. change (stripsOf "I") with 512%N.
    rewrite example_readSignals by (try lia; exact Hl).
    assert (Hc : t' = 0%N \/ t' = 1%N) by lia.
    destruct Hc as [-> | ->];
      unfold thisValid, nextValid, thisSmall, nextSmall, GetLowCut,
        GetHighCut; simpl; decideR; reflexivity.
  - exists res. split; [exact E |]. rewrite H.
    change (stripsOf "I") with 512%N.
    rewrite example_noSignal, example_readSignals by (try lia; exact Hl).
    eval_dead. simpl. decideR.
    unfold mergedEnergy, thisValid, GetLowCut. simpl. decideR. reflexivity.
Defined.

(** *** Isolated hits and the sign of the output *)

Lemma AngleCorrect_nonneg m eta : 0 <= m -> 0 <= AngleCorrect m eta.
Proof.
  intros Hm. unfold AngleCorrect.
  pose proof (cos_incidenceAngle_range eta). nra.
Qed.

Lemma Rdiv_nonneg x y : 0 <= x -> 0 <= y -> 0 <= x / y.
Proof.
  intros Hx Hy. unfold Rdiv.
  destruct (Req_dec_T y 0) as [-> | Hne]; [rewrite Rinv_0; lra |].
  assert (0 < / y) by (apply Rinv_0_lt_compat; lra). nra.
Qed.

Lemma DeAngleCorrect_nonneg m eta : 0 <= m -> 0 <= DeAngleCorrect m eta.
Proof.
  intros Hm. unfold DeAngleCorrect. apply Rdiv_nonneg; [exact Hm |].
  apply cos_incidenceAngle_range.
Qed.

Lemma ETA2COS_nonneg eta : 0 <= ETA2COS eta.
Proof. rewrite <- cos_incidenceAngle_ETA2COS. apply cos_incidenceAngle_range. Qed.

Lemma AngleCorrect_DeAngleCorrect m eta :
  eta <> 0 -> AngleCorrect (DeAngleCorrect m eta) eta = m.
Proof.
  intros Hne. unfold AngleCorrect, DeAngleCorrect.
  pose proof (cos_incidenceAngle_pos eta Hne). field. lra.
Qed.

Section Hits.

Variable kInvalidMult : R.
Variable kInvalidEta : R.
Variable Pack : N -> ascii -> N -> N -> N.
Variable GetEtaFromStrip : N -> ascii -> N -> N -> R -> R.
Variable f : AliFMDSharingFilter.
Variable input : AliESDFMD.
Variable zvtx : R.

Local Abbreviation read := (SignalInStrip kInvalidMult f input).
Local Abbreviation signals :=
  (readSignals kInvalidMult GetEtaFromStrip f input zvtx).
Local Abbreviation dead :=
  (deadStrip kInvalidMult Pack GetEtaFromStrip f input zvtx).
Local Abbreviation skip :=
  (noSignal kInvalidMult Pack GetEtaFromStrip f input zvtx).
Local Abbreviation mstep :=
  (mergingStep kInvalidMult Pack GetEtaFromStrip f input zvtx).
Local Abbreviation before :=
  (mergingBefore kInvalidMult Pack GetEtaFromStrip f input zvtx).
Local Abbreviation value :=
  (stripValue kInvalidMult Pack GetEtaFromStrip f input zvtx).
Local Abbreviation final :=
  (stripOutput kInvalidMult Pack GetEtaFromStrip f input zvtx).

(** The signal of the successor as the body holds it. *)
Lemma sigNext_read d r s nstr t :
  sigNext (signals d r s nstr t) =
  let mult := read d r s t in
  let next := if (t <? nstr - 1)%N then read d r s (t + 1) else 0 in
  let next := if Reqb next kInvalidMult then 0 else next in
  if fRecalculateEta f && Rltb 0 mult && negb (Reqb mult kInvalidMult)
  then next * (ETA2COS (GetEtaFromStrip d r s t zvtx)
               / ETA2COS (Eta input d r s t))
  else next.
Proof.
  unfold readSignals. cbv zeta.
  destruct (fRecalculateEta f); cbn [andb]; [| reflexivity].
  destruct (Rltb 0 (read d r s t) && negb (Reqb (read d r s t) kInvalidMult));
    reflexivity.
Qed.

Lemma sigNext_empty d r s nstr t :
  fRecalculateEta f = false ->
  (t + 1)%N = nstr
  \/ Multiplicity input d r s (t + 1) = 0
  \/ Multiplicity input d r s (t + 1) = kInvalidMult ->
  sigNext (signals d r s nstr t) = 0.
Proof.
  intros Hr H. rewrite sigNext_read, Hr. cbv zeta. cbn [andb].
  destruct H as [H | [H | H]].
  - replace (t <? nstr - 1)%N with false by (symmetry; apply N.ltb_ge; lia).
    destruct (Reqb 0 kInvalidMult); reflexivity.
  - rewrite (read_zero _ _ _ _ _ _ _ H).
    destruct (t <? nstr - 1)%N; destruct (Reqb 0 kInvalidMult); reflexivity.
  - rewrite (read_invalid _ _ _ _ _ _ _ H).
    destruct (t <? nstr - 1)%N.
    + rewrite Reqb_refl. reflexivity.
    + destruct (Reqb 0 kInvalidMult); reflexivity.
Qed.

(** The value of a hit above the low cut whose neighbours are empty. *)
Lemma final_isolated d r s nstr t :
  fRecalculateEta f = false ->
  IsDead Pack f d r s t = false ->
  read d r s t <> kInvalidMult ->
  0 <= GetLowCut f d r (Eta input d r s t) < read d r s t ->
  t = 0%N
  \/ Multiplicity input d r s (t - 1) = 0
  \/ Multiplicity input d r s (t - 1) = kInvalidMult ->
  (t + 1)%N = nstr
  \/ Multiplicity input d r s (t + 1) = 0
  \/ Multiplicity input d r s (t + 1) = kInvalidMult ->
  final d r s nstr t = mergedEnergy f (read d r s t) (Eta input d r s t).
Proof.
  intros Hr Hx Hv [Hc0 Hc] Hprev Hnext.
  assert (Hm : sigMult (signals d r s nstr t) = read d r s t).
  { rewrite sigMult_read, Hr. cbv zeta. cbn [andb].
    rewrite (Reqb_false _ _ Hv). reflexivity. }
  assert (He : sigEta (signals d r s nstr t) = Eta input d r s t)
    by (rewrite sigEta_read, Hr; reflexivity).
  pose proof (sigNext_empty d r s nstr t Hr Hnext) as Hn.
  assert (Hd : dead d r s nstr t = false).
  { unfold deadStrip. rewrite Hm, Hx, (Reqb_false _ _ Hv). reflexivity. }
  assert (Hs : skip d r s nstr t = false).
  { unfold noSignal, stripMult. rewrite Hd, Hm, (Reqb_false _ _ Hv).
    apply Reqb_false. lra. }
  assert (Hclean : used (fst (before d r s nstr t (mkCounts 0 0 0))) = false
                   /\ ~ 0 < eTotal (fst (before d r s nstr t
                                                (mkCounts 0 0 0)))).
  { destruct (N.eq_dec t 0%N) as [-> | Hne].
    - rewrite before_0. cbn [fst used eTotal]. split; [reflexivity | lra].
    - destruct Hprev as [Hp | Hp]; [contradiction |].
      assert (Ht : t = (t - 1 + 1)%N) by lia.
      rewrite Ht at 1 2. rewrite before_succ.
      rewrite mstep_noSignal by (apply empty_noSignal; exact Hp).
      cbn [used eTotal]. split; [reflexivity | lra]. }
  destruct Hclean as [Hu Hp].
  destruct (unmerged_strip _ _ _ _ _ _ d r s nstr t _ Hu Hp Hs) as [Hst Hval].
  { unfold nextValid. rewrite Hn, He, (Rltb_false _ 0) by lra.
    rewrite andb_false_r. reflexivity. }
  unfold stripOutput. rewrite Hst, (Rltb_false _ _ Hp), andb_false_r.
  rewrite Hval. unfold thisValid. rewrite Hm, He, (Rltb_true _ _ Hc).
  reflexivity.
Qed.

Lemma mergedEnergy_read d r s t :
  read d r s t <> kInvalidMult ->
  read d r s t <> 0 ->
  Eta input d r s t <> 0 ->
  mergedEnergy f (read d r s t) (Eta input d r s t) =
  if IsAngleCorrected input then Multiplicity input d r s t
  else AngleCorrect (Multiplicity input d r s t) (Eta input d r s t).
Proof.
  unfold mergedEnergy, SignalInStrip. intros Hv H0 He.
  destruct (Reqb (Multiplicity input d r s t) kInvalidMult) eqn:E1;
    [apply Reqb_eq in E1; cbn [orb] in Hv; contradiction |].
  destruct (Reqb (Multiplicity input d r s t) 0) eqn:E2;
    [apply Reqb_eq in E2; cbn [orb] in H0; contradiction |].
  cbn [orb].
  destruct (fCorrectAngles f), (IsAngleCorrected input); cbn [andb orb negb];
    try reflexivity.
  apply AngleCorrect_DeAngleCorrect. exact He.
Qed.

Lemma read_nonneg d r s t :
  Multiplicity input d r s t = kInvalidMult
  \/ 0 <= Multiplicity input d r s t ->
  read d r s t = kInvalidMult \/ 0 <= read d r s t.
Proof.
  intros [H | H]; [left; apply read_invalid; exact H | right].
  unfold SignalInStrip.
  destruct (Reqb (Multiplicity input d r s t) kInvalidMult
            || Reqb (Multiplicity input d r s t) 0
            || fCorrectAngles f && IsAngleCorrected input
            || negb (fCorrectAngles f) && negb (IsAngleCorrected input));
    [exact H |].
  destruct (fCorrectAngles f);
    [apply AngleCorrect_nonneg | apply DeAngleCorrect_nonneg]; exact H.
Qed.

Lemma sigMult_nonneg d r s nstr t :
  Multiplicity input d r s t = kInvalidMult
  \/ 0 <= Multiplicity input d r s t ->
  sigMult (signals d r s nstr t) = kInvalidMult
  \/ 0 <= sigMult (signals d r s nstr t).
Proof.
  intros H. apply read_nonneg in H. rewrite sigMult_read. cbv zeta.
  pose proof (Rdiv_nonneg _ _ (ETA2COS_nonneg (GetEtaFromStrip d r s t zvtx))
                (ETA2COS_nonneg (Eta input d r s t))) as Hc.
  destruct (fRecalculateEta f && Rltb 0 (read d r s t)
            && negb (Reqb (read d r s t) kInvalidMult)) eqn:E.
  - apply andb_true_iff in E as [E _]. apply andb_true_iff in E as [_ E].
    apply Rltb_lt in E.
    match goal with
    | |- context [if ?b then _ else _] => destruct b
    end; right; [lra | nra].
  - match goal with
    | |- context [if ?b then _ else _] => destruct b
    end; [right; lra | exact H].
Qed.

Lemma sigNext_nonneg d r s nstr t :
  Multiplicity input d r s (t + 1) = kInvalidMult
  \/ 0 <= Multiplicity input d r s (t + 1) ->
  0 <= sigNext (signals d r s nstr t).
Proof.
  intros H. apply read_nonneg in H. rewrite sigNext_read. cbv zeta.
  pose proof (Rdiv_nonneg _ _ (ETA2COS_nonneg (GetEtaFromStrip d r s t zvtx))
                (ETA2COS_nonneg (Eta input d r s t))) as Hc.
  assert (Hn : 0 <= (if Reqb (if (t <? nstr - 1)%N then read d r s (t + 1)
                              else 0) kInvalidMult
                     then 0
                     else if (t <? nstr - 1)%N then read d r s (t + 1)
                          else 0)).
  { destruct (t <? nstr - 1)%N.
    - destruct (Reqb (read d r s (t + 1)) kInvalidMult) eqn:E; [lra |].
      apply Reqb_neq in E. destruct H as [H | H]; [contradiction | exact H].
    - destruct (Reqb 0 kInvalidMult); lra. }
  destruct (fRecalculateEta f && Rltb 0 (read d r s t)
            && negb (Reqb (read d r s t) kInvalidMult)); [nra | exact Hn].
Qed.

Lemma mergeStrip_nonneg d r sg m c e :
  0 <= sigMult sg -> 0 <= sigNext sg ->
  snd (mergeStrip f d r sg m c) = Some e -> 0 <= e.
Proof.
  intros Hm Hn. unfold mergeStrip.
  destruct (Rltb 0 (eTotal m)) eqn:Hp.
  - apply Rltb_lt in Hp.
    destruct (fThreeStripSharing f && nextValid f d r sg
              && (nextSmall f d r sg || twoLow m));
      cbn [snd]; intros [= <-]; lra.
  - destruct (used m); [discriminate |].
    destruct (thisValid f d r sg && nextValid f d r sg
              && (thisSmall f d r sg || nextSmall f d r sg)).
    + destruct (Rltb (sigNext sg) (sigMult sg)
                && Rltb (sigNextNext sg) (GetLowCut f d r (sigEta sg)));
        cbn [snd]; intros [= <-]; lra.
    + destruct (thisValid f d r sg);
        match goal with
        | |- context [if ?b then _ else _] => destruct b
        end; cbn [snd]; intros [= <-]; lra.
Qed.

Lemma final_nonneg d r s nstr t :
  (forall t', Multiplicity input d r s t' = kInvalidMult
              \/ 0 <= Multiplicity input d r s t') ->
  final d r s nstr t = kInvalidMult \/ 0 <= final d r s nstr t.
Proof.
  intros H. unfold stripOutput.
  match goal with
  | |- context [if ?b then _ else _] => destruct b eqn:E
  end.
  - apply andb_true_iff in E as [_ E]. apply Rltb_lt in E. right. lra.
  - clear E. unfold stripValue.
    destruct (dead d r s nstr t) eqn:Hd; [left; reflexivity |].
    destruct (skip d r s nstr t); [right; lra |].
    destruct (snd (mergeStrip f d r (signals d r s nstr t) _ _))
      as [e |] eqn:E; [| right; lra].
    right. apply mergeStrip_nonneg in E.
    + unfold mergedEnergy.
      destruct (negb (fCorrectAngles f));
        [apply AngleCorrect_nonneg |]; exact E.
    + destruct (sigMult_nonneg d r s nstr t (H t)) as [Hi | Hi];
        [| exact Hi].
      unfold deadStrip in Hd. rewrite Hi, Reqb_refl in Hd. discriminate Hd.
    + apply sigNext_nonneg. apply H.
Qed.

Variable lowFlux : bool.
Variable out0 : AliESDFMD.

Local Abbreviation run :=
  (Filter kInvalidMult kInvalidEta Pack GetEtaFromStrip f input zvtx
          lowFlux out0).

(** X11. Without a recalculation of the pseudo-rapidity, a filter with
    its ring containers writes a hit above a low cut that is not
    negative, in a strip that is not held as dead and whose neighbours in
    the sector are empty or invalid, as [SignalInStrip] returns it when
    the filter works on angle-corrected signals, and with the angle
    correction applied to that value when it does not.  Over exact real
    arithmetic, and away from pseudo-rapidity 0, this is the signal of
    the input when the input is angle corrected and the angle-corrected
    signal of the input when it is not, whichever way the filter
    works. *)
Theorem Filter_keeps_isolated_hit d r s t :
  ownsRingHistos f ->
  validStrip d r s t = true ->
  fRecalculateEta f = false ->
  IsDead Pack f d r s t = false ->
  read d r s t <> kInvalidMult ->
  0 <= GetLowCut f d r (Eta input d r s t) < read d r s t ->
  t = 0%N
  \/ Multiplicity input d r s (t - 1) = 0
  \/ Multiplicity input d r s (t - 1) = kInvalidMult ->
  (t + 1)%N = stripsOf r
  \/ Multiplicity input d r s (t + 1) = 0
  \/ Multiplicity input d r s (t + 1) = kInvalidMult ->
  exists res,
    run = Some (true, res)
    /\ Multiplicity res d r s t =
       (if fCorrectAngles f then read d r s t
        else AngleCorrect (read d r s t) (Eta input d r s t))
    /\ (Eta input d r s t <> 0 ->
          Multiplicity res d r s t =
          if IsAngleCorrected input then Multiplicity input d r s t
          else AngleCorrect (Multiplicity input d r s t)
                            (Eta input d r s t)).
Proof.
  intros Howns Hvalid Hr Hx Hv Hc Hprev Hnext.
  destruct (Filter_run kInvalidMult kInvalidEta Pack GetEtaFromStrip f input
              zvtx lowFlux out0 Howns) as (res & E & Hm & _).
  exists res. split; [exact E |]. rewrite Hm, Hvalid.
  rewrite final_isolated by assumption. split.
  - unfold mergedEnergy. destruct (fCorrectAngles f); reflexivity.
  - intros He. apply mergedEnergy_read; [exact Hv | lra | exact He].
Qed.

(** X12. When no signal of the sector is negative in the input, invalid
    signals apart, a strip of the sector comes out of a filter with its
    ring containers as invalid or with a signal that is not negative. *)
Theorem Filter_output_not_negative d r s t :
  ownsRingHistos f ->
  validStrip d r s t = true ->
  (forall t', Multiplicity input d r s t' = kInvalidMult
              \/ 0 <= Multiplicity input d r s t') ->
  exists res,
    run = Some (true, res)
    /\ (Multiplicity res d r s t = kInvalidMult
        \/ 0 <= Multiplicity res d r s t).
Proof.
  intros Howns Hvalid H.
  destruct (Filter_run kInvalidMult kInvalidEta Pack GetEtaFromStrip f input
              zvtx lowFlux out0 Howns) as (res & E & Hm & _).
  exists res. split; [exact E |]. rewrite Hm, Hvalid.
  apply final_nonneg. exact H.
Qed.

End Hits.

Lemma Filter_keeps_isolated_hit_witness :
  exists res,
    Filter 1000 1000 stripIndexPack etaFromStripExample
           (exampleFilter true ∅) (exampleESD true [0; 1 / 2]) 0 false
           (exampleESD true []) = Some (true, res)
    /\ Multiplicity res 1 "I" 0 1 = 1 / 2.
Proof.
  destruct (Filter_keeps_isolated_hit 1000 1000 stripIndexPack
              etaFromStripExample (exampleFilter true ∅)
              (exampleESD true [0; 1 / 2]) 0 false (exampleESD true [])
              1 "I" 0 1 (exampleFilter_owns true ∅) eq_refl eq_refl)
    as (res & E & H & _).
  - vm_compute. reflexivity.
  - rewrite example_SignalInStrip. simpl. lra.
  - unfold GetLowCut. rewrite example_SignalInStrip. simpl. lra.
  - right. left. reflexivity.
  - right. left. reflexivity.
  - exists res. split; [exact E |]. rewrite H.
    rewrite example_SignalInStrip. reflexivity.
Defined.

Lemma Filter_output_not_negative_witness :
  exists res,
    Filter 1000 1000 stripIndexPack etaFromStripExample
           (exampleFilter true ∅) (exampleESD true sevenStrips) 0 false
           (exampleESD true []) = Some (true, res)
    /\ (Multiplicity res 1 "I" 0 1 = 1000
        \/ 0 <= Multiplicity res 1 "I" 0 1).
Proof.
  apply (Filter_output_not_negative 1000 1000 stripIndexPack
           etaFromStripExample (exampleFilter true ∅)
           (exampleESD true sevenStrips) 0 false (exampleESD true [])
           1 "I" 0 1 (exampleFilter_owns true ∅) eq_refl).
  intros t'. right. change (0 <= nth (N.to_nat t') sevenStrips 0).
  destruct (nth_in_or_default (N.to_nat t') sevenStrips 0) as [Hin | ->];
    [| lra].
  revert Hin. generalize (nth (N.to_nat t') sevenStrips 0). intros x Hin.
  simpl in Hin.
  repeat (destruct Hin as [<- | Hin]; [lra |]). contradiction.
Defined.

(** *** The counters of single, double and triple hits *)

Lemma length_upTo (n : N) : Z.of_nat (length (upTo n)) = Z.of_N n.
Proof.
  unfold upTo. rewrite length_map, length_seq. apply N_nat_Z.
Qed.

Section Counters.

Variable kInvalidMult : R.
Variable Pack : N -> ascii -> N -> N -> N.
Variable GetEtaFromStrip : N -> ascii -> N -> N -> R -> R.
Variable f : AliFMDSharingFilter.
Variable input : AliESDFMD.
Variable zvtx : R.

Local Abbreviation mstep :=
  (mergingStep kInvalidMult Pack GetEtaFromStrip f input zvtx).
Local Abbreviation mloop :=
  (mergingLoop kInvalidMult Pack GetEtaFromStrip f input zvtx).
Local Abbreviation sector :=
  (sectorBody kInvalidMult Pack GetEtaFromStrip f input zvtx).
Local Abbreviation sectors :=
  (sectorLoop kInvalidMult Pack GetEtaFromStrip f input zvtx).
Local Abbreviation loops :=
  (filterLoops kInvalidMult Pack GetEtaFromStrip f input zvtx).

(** From [c] to [c'] no counter has gone down, the three have gone up by
    [n] at most together, and the counter of triple hits stands still
    without three-strip merging. *)
Local Abbreviation grows n c c' :=
  ((nSingle c <= nSingle c')%Z
   /\ (nDouble c <= nDouble c')%Z
   /\ (nTriple c <= nTriple c')%Z
   /\ (nSingle c' + nDouble c' + nTriple c'
       <= nSingle c + nDouble c + nTriple c + n)%Z
   /\ (fThreeStripSharing f = false -> (nTriple c' = nTriple c)%Z)).

Lemma grows_trans n m c c' c'' :
  grows n c c' -> grows m c' c'' -> grows (n + m)%Z c c''.
Proof.
  intros (H1 & H2 & H3 & H4 & H5) (K1 & K2 & K3 & K4 & K5).
  repeat split; try lia.
  intros H. rewrite (K5 H). apply H5. exact H.
Qed.

Lemma mergeStrip_grows d r sg m c :
  grows 1 c (snd (fst (mergeStrip f d r sg m c))).
Proof.
  unfold mergeStrip.
  destruct (fThreeStripSharing f); cbn [andb];
    repeat match goal with
           | |- context [if ?b then _ else _] => destruct b
           end;
    cbn [fst snd nSingle nDouble nTriple];
    repeat split; try lia; intros; first [lia | congruence].
Qed.

Lemma mstep_grows d r s nstr t mc :
  grows 1 (snd mc) (snd (mstep d r s nstr t mc)).
Proof.
  unfold mergingStep.
  destruct (noSignal kInvalidMult Pack GetEtaFromStrip f input zvtx
                     d r s nstr t).
  - cbn [snd]. repeat split; lia.
  - apply mergeStrip_grows.
Qed.

Lemma mloop_grows d r s nstr ts mc :
  grows (Z.of_nat (length ts)) (snd mc) (snd (mloop d r s nstr ts mc)).
Proof.
  revert mc. induction ts as [| t ts IH]; intros mc.
  - cbn. repeat split; lia.
  - unfold mergingLoop in *. cbn [fold_left length].
    rewrite Nat2Z.inj_succ, <- Z.add_1_l.
    exact (grows_trans _ _ _ _ _ (mstep_grows d r s nstr t mc) (IH _)).
Qed.

Lemma sector_grows d r nstr s co :
  grows (Z.of_N nstr) (fst co) (fst (sector d r nstr s co)).
Proof.
  unfold sectorBody. cbn [fst].
  pose proof (f_equal snd
                (loop_control kInvalidMult Pack GetEtaFromStrip f input zvtx
                   d r s nstr (upTo nstr)
                   (sectorStart (fst co) (snd co)))) as E.
  cbn [snd] in E. rewrite E, <- length_upTo.
  apply (mloop_grows d r s nstr (upTo nstr)
           (merging (sectorStart (fst co) (snd co)), fst co)).
Qed.

Lemma fold_grows (g : Counts * AliESDFMD -> N -> Counts * AliESDFMD)
    (w : Z) (l : list N) (x : Counts * AliESDFMD) :
  (forall y k, grows w (fst y) (fst (g y k))) ->
  grows (w * Z.of_nat (length l))%Z (fst x) (fst (fold_left g l x)).
Proof.
  intros Hg. revert x. induction l as [| a l IH]; intros x.
  - cbn. repeat split; lia.
  - cbn [fold_left length]. rewrite Nat2Z.inj_succ.
    replace (w * Z.succ (Z.of_nat (length l)))%Z
      with (w + w * Z.of_nat (length l))%Z by lia.
    exact (grows_trans _ _ _ _ _ (Hg x a) (IH _)).
Qed.

Lemma sectors_grows d r nsec nstr co :
  grows (Z.of_N nstr * Z.of_N nsec)%Z (fst co)
        (fst (sectors d r nsec nstr co)).
Proof.
  rewrite <- (length_upTo nsec). unfold sectorLoop.
  apply (fold_grows (fun co s => sector d r nstr s co)).
  intros y k. apply sector_grows.
Qed.

Lemma loops_grows co :
  ownsRingHistos f ->
  exists co', loops co = Some co' /\ grows 51200 (fst co) (fst co').
Proof.
  intros Howns.
  rewrite (loops_pass kInvalidMult Pack GetEtaFromStrip f input zvtx co
             Howns).
  eexists. split; [reflexivity |].
  exact (grows_trans _ _ _ _ _ (sectors_grows 1 "I" 20 512 _)
           (grows_trans _ _ _ _ _ (sectors_grows 2 "I" 20 512 _)
              (grows_trans _ _ _ _ _ (sectors_grows 2 "O" 40 256 _)
                 (grows_trans _ _ _ _ _ (sectors_grows 3 "I" 20 512 _)
                    (sectors_grows 3 "O" 40 256 _))))).
Qed.

(** X13. For a filter with its ring containers the loops of [Filter] run
    to their end, and its counters of single, double and triple hits are
    never negative and count at most one hit per strip, 51200 in all,
    which is far below the range of [Int_t].  Without three-strip
    merging no triple hit is counted. *)
Theorem Filter_counters_bounded (out : AliESDFMD) :
  ownsRingHistos f ->
  exists co,
    loops (mkCounts 0 0 0, out) = Some co
    /\ (0 <= nSingle (fst co))%Z /\ (0 <= nDouble (fst co))%Z
    /\ (0 <= nTriple (fst co))%Z
    /\ (nSingle (fst co) + nDouble (fst co) + nTriple (fst co)
        <= 51200)%Z
    /\ (fThreeStripSharing f = false -> nTriple (fst co) = 0%Z).
Proof.
  intros Howns.
  destruct (loops_grows (mkCounts 0 0 0, out) Howns)
    as (co & E & H1 & H2 & H3 & H4 & H5).
  exists co. split; [exact E |].
  cbn [fst nSingle nDouble nTriple] in *.
  repeat split; try lia. exact H5.
Qed.

End Counters.

Lemma twoStripFilter_owns : ownsRingHistos twoStripFilter.
Proof. apply namedRingHistos_owns. reflexivity. Qed.

Lemma Filter_counters_bounded_witness :
  exists co,
    filterLoops 1000 stripIndexPack etaFromStripExample twoStripFilter
                (exampleESD true sevenStrips) 0
                (mkCounts 0 0 0, Clear 1000 1000 (exampleESD true []))
    = Some co
    /\ nTriple (fst co) = 0%Z.
Proof.
  destruct (Filter_counters_bounded 1000 stripIndexPack etaFromStripExample
              twoStripFilter (exampleESD true sevenStrips) 0
              (Clear 1000 1000 (exampleESD true [])) twoStripFilter_owns)
    as (co & E & _ & _ & _ & _ & H).
  exists co. split; [exact E | apply H; reflexivity].
Defined.

(** *** The recalculated pseudo-rapidity *)

Lemma ETA2COS_pos eta : eta <> 0 -> 0 < ETA2COS eta.
Proof.
  intros H. rewrite <- cos_incidenceAngle_ETA2COS.
  apply cos_incidenceAngle_pos. exact H.
Qed.

(** X14. Over exact real arithmetic, the factor that [Filter] applies
    for a recalculated pseudo-rapidity takes the angle correction at the
    old pseudo-rapidity off a signal and puts the one at the new
    pseudo-rapidity on; it is 1 when the two agree and are not 0. *)
Theorem recalculation_moves_the_angle_correction (m etaOld etaCalc : R) :
  m * (ETA2COS etaCalc / ETA2COS etaOld) =
  AngleCorrect (DeAngleCorrect m etaOld) etaCalc
  /\ (etaOld <> 0 -> m * (ETA2COS etaOld / ETA2COS etaOld) = m).
Proof.
  split.
  - unfold AngleCorrect, DeAngleCorrect.
    rewrite !cos_incidenceAngle_ETA2COS. unfold Rdiv. ring.
  - intros H. pose proof (ETA2COS_pos etaOld H). field. lra.
Qed.

Lemma recalculation_moves_the_angle_correction_witness :
  2 * (ETA2COS 1 / ETA2COS 1) = 2.
Proof.
  apply (proj2 (recalculation_moves_the_angle_correction 2 1 1)). lra.
Defined.

Section SameSignals.

Variable kInvalidMult : R.
Variable Pack : N -> ascii -> N -> N -> N.
Variable GetEtaFromStrip : N -> ascii -> N -> N -> R -> R.
Variables f1 f2 : AliFMDSharingFilter.
Variable input : AliESDFMD.
Variable zvtx : R.
Variable d : N.
Variable r : ascii.
Variable s : N.
Variable nstr : N.

Hypothesis Hlow : forall eta, GetLowCut f1 d r eta = GetLowCut f2 d r eta.
Hypothesis Hhigh :
  forall eta, GetHighCut f1 d r eta false = GetHighCut f2 d r eta false.
Hypothesis Hthree : fThreeStripSharing f1 = fThreeStripSharing f2.
Hypothesis Hangles : fCorrectAngles f1 = fCorrectAngles f2.
Hypothesis Hdead :
  forall t, IsDead Pack f1 d r s t = IsDead Pack f2 d r s t.
Hypothesis Hsig :
  forall t, (t < nstr)%N ->
    readSignals kInvalidMult GetEtaFromStrip f1 input zvtx d r s nstr t =
    readSignals kInvalidMult GetEtaFromStrip f2 input zvtx d r s nstr t.

(** Two filters that read the same signals in a sector, with the same
    cuts, the same dead strips and the same settings of the merging,
    write the same values. *)
Lemma same_deadStrip t :
  (t < nstr)%N ->
  deadStrip kInvalidMult Pack GetEtaFromStrip f1 input zvtx d r s nstr t =
  deadStrip kInvalidMult Pack GetEtaFromStrip f2 input zvtx d r s nstr t.
Proof.
  intros Ht. unfold deadStrip. rewrite (Hsig t Ht), Hdead. reflexivity.
Qed.

Lemma same_noSignal t :
  (t < nstr)%N ->
  noSignal kInvalidMult Pack GetEtaFromStrip f1 input zvtx d r s nstr t =
  noSignal kInvalidMult Pack GetEtaFromStrip f2 input zvtx d r s nstr t.
Proof.
  intros Ht. unfold noSignal, stripMult.
  rewrite (same_deadStrip t Ht), (Hsig t Ht). reflexivity.
Qed.

Lemma same_mergeStrip sg m c :
  mergeStrip f1 d r sg m c = mergeStrip f2 d r sg m c.
Proof.
  unfold mergeStrip, thisValid, nextValid, thisSmall, nextSmall.
  rewrite !Hlow, !Hhigh, Hthree. reflexivity.
Qed.

Lemma same_mergingStep t mc :
  (t < nstr)%N ->
  mergingStep kInvalidMult Pack GetEtaFromStrip f1 input zvtx d r s nstr t mc =
  mergingStep kInvalidMult Pack GetEtaFromStrip f2 input zvtx d r s nstr t mc.
Proof.
  intros Ht. unfold mergingStep.
  rewrite (same_noSignal t Ht), (Hsig t Ht), same_mergeStrip. reflexivity.
Qed.

Lemma same_mergingLoop ts mc :
  (forall t, In t ts -> (t < nstr)%N) ->
  mergingLoop kInvalidMult Pack GetEtaFromStrip f1 input zvtx d r s nstr ts mc =
  mergingLoop kInvalidMult Pack GetEtaFromStrip f2 input zvtx d r s nstr ts mc.
Proof.
  revert mc. induction ts as [| t ts IH]; intros mc H; [reflexivity |].
  unfold mergingLoop in *. cbn [fold_left].
  rewrite same_mergingStep by (apply H; left; reflexivity).
  apply IH. intros x Hx. apply H. right. exact Hx.
Qed.

Lemma same_stripValue t mc :
  (t < nstr)%N ->
  stripValue kInvalidMult Pack GetEtaFromStrip f1 input zvtx d r s nstr t mc =
  stripValue kInvalidMult Pack GetEtaFromStrip f2 input zvtx d r s nstr t mc.
Proof.
  intros Ht. unfold stripValue, mergedEnergy.
  rewrite (same_deadStrip t Ht), (same_noSignal t Ht), (Hsig t Ht),
    same_mergeStrip, Hangles.
  reflexivity.
Qed.

Lemma same_stripOutput t :
  (t < nstr)%N ->
  stripOutput kInvalidMult Pack GetEtaFromStrip f1 input zvtx d r s nstr t =
  stripOutput kInvalidMult Pack GetEtaFromStrip f2 input zvtx d r s nstr t.
Proof.
  intros Ht. unfold stripOutput, mergingBefore.
  rewrite same_mergingLoop by (intros x Hx; apply in_upTo in Hx; lia).
  rewrite (same_mergingStep t _ Ht), (same_stripValue t _ Ht).
  destruct (N.ltb_spec (t + 1) nstr) as [Hlt | Hge]; [| reflexivity].
  rewrite (same_noSignal (t + 1) Hlt). reflexivity.
Qed.

End SameSignals.

(** With and without the recalculation the body reads the same signals
    at a strip whose recalculated pseudo-rapidity is the one of the
    input. *)
Lemma readSignals_same_eta kInvalidMult GetEtaFromStrip f input zvtx
    d r s nstr t :
  GetEtaFromStrip d r s t zvtx = Eta input d r s t ->
  Eta input d r s t <> 0 ->
  readSignals kInvalidMult GetEtaFromStrip (withRecalculateEta f true)
              input zvtx d r s nstr t =
  readSignals kInvalidMult GetEtaFromStrip (withRecalculateEta f false)
              input zvtx d r s nstr t.
Proof.
  intros He Hne. unfold readSignals, withRecalculateEta, SignalInStrip.
  cbn [fRecalculateEta fThreeStripSharing fInvalidIsEmpty fCorrectAngles].
  cbv zeta. rewrite He.
  replace (ETA2COS (Eta input d r s t) / ETA2COS (Eta input d r s t)) with 1
    by (pose proof (ETA2COS_pos _ Hne); field; lra).
  rewrite !Rmult_1_r.
  match goal with
  | |- context [if ?b && negb ?c then _ else _] => destruct (b && negb c)
  end; reflexivity.
Qed.

(** X15. In a sector where the recalculated pseudo-rapidity of every
    strip is the one of the input, and not 0, [Filter] of a filter with
    its ring containers writes the same signals with and without the
    recalculation. *)
Theorem recalculation_to_the_same_eta
    (kInvalidMult kInvalidEta : R) (Pack : N -> ascii -> N -> N -> N)
    (GetEtaFromStrip : N -> ascii -> N -> N -> R -> R)
    (f : AliFMDSharingFilter) (input : AliESDFMD) (zvtx : R)
    (lowFlux : bool) (out0 : AliESDFMD) (d : N) (r : ascii) (s t : N) :
  ownsRingHistos f ->
  validStrip d r s t = true ->
  (forall t', (t' < stripsOf r)%N ->
     GetEtaFromStrip d r s t' zvtx = Eta input d r s t'
     /\ Eta input d r s t' <> 0) ->
  exists res1 res2,
    Filter kInvalidMult kInvalidEta Pack GetEtaFromStrip
           (withRecalculateEta f true) input zvtx lowFlux out0
    = Some (true, res1)
    /\ Filter kInvalidMult kInvalidEta Pack GetEtaFromStrip
              (withRecalculateEta f false) input zvtx lowFlux out0
       = Some (true, res2)
    /\ Multiplicity res1 d r s t = Multiplicity res2 d r s t.
Proof.
  intros Howns Hvalid H.
  destruct (Filter_run kInvalidMult kInvalidEta Pack GetEtaFromStrip
              (withRecalculateEta f true) input zvtx lowFlux out0 Howns)
    as (res1 & E1 & Hm1 & _).
  destruct (Filter_run kInvalidMult kInvalidEta Pack GetEtaFromStrip
              (withRecalculateEta f false) input zvtx lowFlux out0 Howns)
    as (res2 & E2 & Hm2 & _).
  exists res1, res2. split; [exact E1 |]. split; [exact E2 |].
  rewrite Hm1, Hm2, Hvalid.
  apply same_stripOutput; try reflexivity.
  - intros t' Ht'. destruct (H t' Ht') as [He Hne].
    apply readSignals_same_eta; assumption.
  - apply (validStrip_lt d r s t Hvalid).
Qed.

Lemma recalculation_to_the_same_eta_witness :
  exists res1 res2,
    Filter 1000 1000 stripIndexPack etaFromStripExample
           (withRecalculateEta (exampleFilter true ∅) true)
           (exampleESD true sevenStrips) 0 false (exampleESD true [])
    = Some (true, res1)
    /\ Filter 1000 1000 stripIndexPack etaFromStripExample
              (withRecalculateEta (exampleFilter true ∅) false)
              (exampleESD true sevenStrips) 0 false (exampleESD true [])
       = Some (true, res2)
    /\ Multiplicity res1 1 "I" 0 1 = Multiplicity res2 1 "I" 0 1.
Proof.
  apply (recalculation_to_the_same_eta 1000 1000 stripIndexPack
           etaFromStripExample (exampleFilter true ∅)
           (exampleESD true sevenStrips) 0 false (exampleESD true [])
           1 "I" 0 1 (exampleFilter_owns true ∅) eq_refl).
  intros t' _. split; [reflexivity |].
  change (Eta (exampleESD true sevenStrips) 1 "I" 0 t') with 1. lra.
Defined.

(** X16. The signals that [Filter] of a filter with its ring containers
    leaves in the output object depend neither on the flag [lowFlux] nor
    on the output object, and the pseudo-rapidities it leaves are the
    same for two output objects that keep the pseudo-rapidity of the
    sectors in the same slots, whatever the two held before. *)
Theorem Filter_overwrites_the_output
    (kInvalidMult kInvalidEta : R) (Pack : N -> ascii -> N -> N -> N)
    (GetEtaFromStrip : N -> ascii -> N -> N -> R -> R)
    (f : AliFMDSharingFilter) (input : AliESDFMD) (zvtx : R)
    (lowFlux lowFlux' : bool) (out out' : AliESDFMD)
    (d : N) (r : ascii) (s t : N) :
  ownsRingHistos f ->
  exists res res',
    Filter kInvalidMult kInvalidEta Pack GetEtaFromStrip f input zvtx
           lowFlux out = Some (true, res)
    /\ Filter kInvalidMult kInvalidEta Pack GetEtaFromStrip f input zvtx
              lowFlux' out' = Some (true, res')
    /\ Multiplicity res d r s t = Multiplicity res' d r s t
    /\ ((forall k, fEtaSector out k = fEtaSector out' k) ->
        Eta res d r s t = Eta res' d r s t).
Proof.
  intros Howns.
  destruct (Filter_run kInvalidMult kInvalidEta Pack GetEtaFromStrip f input
              zvtx lowFlux out Howns) as (res & E & Hm & He).
  destruct (Filter_run kInvalidMult kInvalidEta Pack GetEtaFromStrip f input
              zvtx lowFlux' out' Howns) as (res' & E' & Hm' & He').
  exists res, res'. split; [exact E |]. split; [exact E' |]. split.
  - rewrite Hm, Hm'. reflexivity.
  - intros Hk. rewrite He, He', !Hk. reflexivity.
Qed.

Lemma Filter_overwrites_the_output_witness :
  exists res res',
    Filter 1000 1000 stripIndexPack etaFromStripExample
           (exampleFilter true ∅) (exampleESD true sevenStrips) 0 false
           (exampleESD true []) = Some (true, res)
    /\ Filter 1000 1000 stripIndexPack etaFromStripExample
              (exampleFilter true ∅) (exampleESD true sevenStrips) 0 true
              (exampleESD false sevenStrips) = Some (true, res')
    /\ Multiplicity res 1 "I" 0 1 = Multiplicity res' 1 "I" 0 1
    /\ Eta res 1 "I" 0 1 = Eta res' 1 "I" 0 1.
Proof.
  destruct (Filter_overwrites_the_output 1000 1000 stripIndexPack
              etaFromStripExample (exampleFilter true ∅)
              (exampleESD true sevenStrips) 0 false true
              (exampleESD true []) (exampleESD false sevenStrips)
              1 "I" 0 1 (exampleFilter_owns true ∅))
    as (res & res' & E & E' & Hm & He).
  exists res, res'. split; [exact E |]. split; [exact E' |].
  split; [exact Hm |]. apply He. intros k. reflexivity.
Defined.

(** *** Hits shared between two and three strips *)

Section Shared.

Variable kInvalidMult : R.
Variable kInvalidEta : R.
Variable Pack : N -> ascii -> N -> N -> N.
Variable GetEtaFromStrip : N -> ascii -> N -> N -> R -> R.
Variable f : AliFMDSharingFilter.
Variable input : AliESDFMD.
Variable zvtx : R.

Local Abbreviation read := (SignalInStrip kInvalidMult f input).
Local Abbreviation signals :=
  (readSignals kInvalidMult GetEtaFromStrip f input zvtx).
Local Abbreviation dead :=
  (deadStrip kInvalidMult Pack GetEtaFromStrip f input zvtx).
Local Abbreviation skip :=
  (noSignal kInvalidMult Pack GetEtaFromStrip f input zvtx).
Local Abbreviation mstep :=
  (mergingStep kInvalidMult Pack GetEtaFromStrip f input zvtx).
Local Abbreviation before :=
  (mergingBefore kInvalidMult Pack GetEtaFromStrip f input zvtx).
Local Abbreviation value :=
  (stripValue kInvalidMult Pack GetEtaFromStrip f input zvtx).
Local Abbreviation final :=
  (stripOutput kInvalidMult Pack GetEtaFromStrip f input zvtx).
Local Abbreviation empty d r s t :=
  (Multiplicity input d r s t = 0
   \/ Multiplicity input d r s t = kInvalidMult).

Hypothesis Hr : fRecalculateEta f = false.

(** The second successor as the body holds it. *)
Lemma sigNextNext_read d r s nstr t :
  sigNextNext (signals d r s nstr t) =
  let mult := read d r s t in
  let next := if (t <? nstr - 2)%N then read d r s (t + 2) else 0 in
  let next := if Reqb next kInvalidMult then 0 else next in
  let next := if negb (fThreeStripSharing f) then 0 else next in
  if fRecalculateEta f && Rltb 0 mult && negb (Reqb mult kInvalidMult)
  then next * (ETA2COS (GetEtaFromStrip d r s t zvtx)
               / ETA2COS (Eta input d r s t))
  else next.
Proof.
  unfold readSignals. cbv zeta.
  destruct (fRecalculateEta f); cbn [andb]; [| reflexivity].
  destruct (Rltb 0 (read d r s t) && negb (Reqb (read d r s t) kInvalidMult));
    reflexivity.
Qed.

Lemma plain_sigMult d r s nstr t :
  read d r s t <> kInvalidMult ->
  sigMult (signals d r s nstr t) = read d r s t.
Proof.
  intros Hv. rewrite sigMult_read, Hr. cbv zeta. cbn [andb].
  rewrite (Reqb_false _ _ Hv). reflexivity.
Qed.

Lemma plain_sigEta d r s nstr t :
  sigEta (signals d r s nstr t) = Eta input d r s t.
Proof. rewrite sigEta_read, Hr. reflexivity. Qed.

Lemma plain_sigNext d r s nstr t :
  (t + 1 < nstr)%N ->
  read d r s (t + 1) <> kInvalidMult ->
  sigNext (signals d r s nstr t) = read d r s (t + 1).
Proof.
  intros Ht Hv. rewrite sigNext_read, Hr. cbv zeta. cbn [andb].
  replace (t <? nstr - 1)%N with true by (symmetry; apply N.ltb_lt; lia).
  rewrite (Reqb_false _ _ Hv). reflexivity.
Qed.

Lemma plain_sigNextNext_empty d r s nstr t :
  (t + 2)%N = nstr \/ empty d r s (t + 2) ->
  sigNextNext (signals d r s nstr t) = 0.
Proof.
  intros H. rewrite sigNextNext_read, Hr. cbv zeta. cbn [andb].
  destruct (negb (fThreeStripSharing f)); [reflexivity |].
  destruct H as [H | [H | H]].
  - replace (t <? nstr - 2)%N with false by (symmetry; apply N.ltb_ge; lia).
    destruct (Reqb 0 kInvalidMult); reflexivity.
  - rewrite (read_zero _ _ _ _ _ _ _ H).
    destruct (t <? nstr - 2)%N; destruct (Reqb 0 kInvalidMult); reflexivity.
  - rewrite (read_invalid _ _ _ _ _ _ _ H).
    destruct (t <? nstr - 2)%N.
    + rewrite Reqb_refl. reflexivity.
    + destruct (Reqb 0 kInvalidMult); reflexivity.
Qed.

(** A strip with a valid signal that is not zero, and that is not held as
    dead, is a strip with a signal. *)
Lemma live_strip d r s nstr t :
  IsDead Pack f d r s t = false ->
  read d r s t <> kInvalidMult ->
  read d r s t <> 0 ->
  dead d r s nstr t = false /\ skip d r s nstr t = false.
Proof.
  intros Hx Hv H0.
  assert (Hd : dead d r s nstr t = false).
  { unfold deadStrip. rewrite (plain_sigMult _ _ _ _ _ Hv), Hx,
      (Reqb_false _ _ Hv). reflexivity. }
  split; [exact Hd |].
  unfold noSignal, stripMult.
  rewrite Hd, (plain_sigMult _ _ _ _ _ Hv), (Reqb_false _ _ Hv).
  apply Reqb_false. exact H0.
Qed.

(** After an empty strip, and at the start of a sector, the merging state
    is the initial one. *)
Lemma before_after_empty d r s nstr t c :
  t = 0%N \/ empty d r s (t - 1) ->
  fst (before d r s nstr t c) = mkMerging false (-1) false.
Proof.
  intros H. destruct (N.eq_dec t 0%N) as [-> | Hne].
  - rewrite before_0. reflexivity.
  - destruct H as [H | H]; [contradiction |].
    assert (Ht : t = (t - 1 + 1)%N) by lia.
    rewrite Ht at 1. rewrite before_succ.
    apply mstep_noSignal. apply empty_noSignal. exact H.
Qed.

Lemma final_pair d r s nstr t :
  let a := read d r s t in
  let b := read d r s (t + 1) in
  let etaT := Eta input d r s t in
  let etaN := Eta input d r s (t + 1) in
  (t + 1 < nstr)%N ->
  IsDead Pack f d r s t = false ->
  IsDead Pack f d r s (t + 1) = false ->
  a <> kInvalidMult ->
  b <> kInvalidMult ->
  0 <= GetLowCut f d r etaT < a ->
  GetLowCut f d r etaT < b ->
  0 <= GetLowCut f d r etaN ->
  a < GetHighCut f d r etaT false \/ b < GetHighCut f d r etaT false ->
  t = 0%N \/ empty d r s (t - 1) ->
  (t + 2)%N = nstr \/ empty d r s (t + 2) ->
  (b < a /\ 0 < GetLowCut f d r etaT ->
     final d r s nstr t = mergedEnergy f (a + b) etaT
     /\ final d r s nstr (t + 1) = 0)
  /\ (~ (b < a /\ 0 < GetLowCut f d r etaT) ->
        final d r s nstr t = 0
        /\ final d r s nstr (t + 1) = mergedEnergy f (a + b) etaN).
Proof.
  intros a b etaT etaN Ht Hx Hx1 Hv Hv1 [Hl0 Hla] Hlb Hn0 Hsmall Hprev Hnn.
  pose proof (plain_sigMult d r s nstr t Hv) as Hm.
  pose proof (plain_sigEta d r s nstr t) as He.
  pose proof (plain_sigNext d r s nstr t Ht Hv1) as Hn.
  pose proof (plain_sigNextNext_empty d r s nstr t Hnn) as Hnn0.
  pose proof (plain_sigMult d r s nstr (t + 1) Hv1) as Hm1.
  pose proof (plain_sigEta d r s nstr (t + 1)) as He1.
  assert (Hn1 : sigNext (signals d r s nstr (t + 1)) = 0).
  { apply sigNext_empty; [exact Hr |].
    replace (t + 1 + 1)%N with (t + 2)%N by lia. exact Hnn. }
  fold a in Hm. fold b in Hn, Hm1. fold etaT in He. fold etaN in He1.
  destruct (live_strip d r s nstr t Hx Hv) as [Hd Hs]; [fold a; lra |].
  destruct (live_strip d r s nstr (t + 1) Hx1 Hv1) as [Hd1 Hs1];
    [fold b; lra |].
  pose proof (before_after_empty d r s nstr t (mkCounts 0 0 0) Hprev) as Hb.
  assert (Hu : used (fst (before d r s nstr t (mkCounts 0 0 0))) = false)
    by (rewrite Hb; reflexivity).
  assert (Hp : ~ 0 < eTotal (fst (before d r s nstr t (mkCounts 0 0 0))))
    by (rewrite Hb; cbn [eTotal]; lra).
  clear Hb.
  assert (Hft : final d r s nstr t =
                value d r s nstr t (before d r s nstr t (mkCounts 0 0 0))).
  { unfold stripOutput. rewrite Hs1, andb_false_r. reflexivity. }
  assert (Hb1 : before d r s nstr (t + 1) (mkCounts 0 0 0) =
                fst (mergeStrip f d r (signals d r s nstr t)
                       (fst (before d r s nstr t (mkCounts 0 0 0)))
                       (snd (before d r s nstr t (mkCounts 0 0 0))))).
  { rewrite before_succ. unfold mergingStep. rewrite Hs. reflexivity. }
  assert (Hvt : value d r s nstr t (before d r s nstr t (mkCounts 0 0 0)) =
                match snd (mergeStrip f d r (signals d r s nstr t)
                       (fst (before d r s nstr t (mkCounts 0 0 0)))
                       (snd (before d r s nstr t (mkCounts 0 0 0)))) with
                | Some e => mergedEnergy f e etaT
                | None => 0
                end).
  { unfold stripValue. rewrite Hd, Hs, He. reflexivity. }
  assert (Hv1' : forall mc,
            value d r s nstr (t + 1) mc =
            match snd (mergeStrip f d r (signals d r s nstr (t + 1))
                         (fst mc) (snd mc)) with
            | Some e => mergedEnergy f e etaN
            | None => 0
            end).
  { intros mc. unfold stripValue. rewrite Hd1, Hs1, He1. reflexivity. }
  assert (Hf1 : forall mc,
            mc = before d r s nstr (t + 1) (mkCounts 0 0 0) ->
            ~ 0 < eTotal (fst (fst (mergeStrip f d r
                                      (signals d r s nstr (t + 1))
                                      (fst mc) (snd mc)))) ->
            final d r s nstr (t + 1) = value d r s nstr (t + 1) mc).
  { intros mc -> Hq. unfold stripOutput, mergingStep. rewrite Hs1.
    rewrite (Rltb_false _ _ Hq), andb_false_r. reflexivity. }
  rewrite Hft, Hvt. clear Hft Hvt.
  specialize (Hf1 _ eq_refl). rewrite Hb1 in Hf1.
  revert Hf1.
  set (mc := before d r s nstr t (mkCounts 0 0 0)) in *.
  assert (E : mergeStrip f d r (signals d r s nstr t) (fst mc) (snd mc) =
              let tl := if thisSmall f d r (signals d r s nstr t)
                           && nextSmall f d r (signals d r s nstr t)
                        then true else twoLow (fst mc) in
              if Rltb b a && Rltb 0 (GetLowCut f d r etaT)
              then (mkMerging true (eTotal (fst mc)) tl,
                    mkCounts (nSingle (snd mc)) (nDouble (snd mc) + 1)
                             (nTriple (snd mc)),
                    Some (a + b))
              else (mkMerging false (a + b) tl, snd mc, Some 0)).
  { unfold mergeStrip.
    rewrite (Rltb_false _ _ Hp), Hu.
    assert (Hc : thisValid f d r (signals d r s nstr t)
                 && nextValid f d r (signals d r s nstr t)
                 && (thisSmall f d r (signals d r s nstr t)
                     || nextSmall f d r (signals d r s nstr t)) = true).
    { unfold thisValid, nextValid, thisSmall, nextSmall.
      rewrite Hm, Hn, He, (Rltb_true _ _ Hla), (Rltb_true _ _ Hlb).
      destruct Hsmall as [H | H]; rewrite (Rltb_true _ _ H);
        rewrite ?orb_true_r; reflexivity. }
    rewrite Hc, Hm, Hn, Hnn0, He. reflexivity. }
  rewrite E. cbv zeta.
  set (tl := if thisSmall f d r (signals d r s nstr t)
                && nextSmall f d r (signals d r s nstr t)
             then true else twoLow (fst mc)).
  clearbody tl. clear E.
  destruct (Rltb b a && Rltb 0 (GetLowCut f d r etaT)) eqn:C.
  - apply andb_true_iff in C as [C1 C2].
    apply Rltb_lt in C1. apply Rltb_lt in C2.
    cbn [fst snd]. intros Hf1.
    split; [intros _ | intros H; exfalso; apply H; split; assumption].
    split; [reflexivity |].
    rewrite Hf1, Hv1'; unfold mergeStrip; cbn [fst snd used eTotal];
      rewrite (Rltb_false _ _ Hp); cbn [fst snd eTotal]; [reflexivity | exact Hp].
  - cbn [fst snd]. intros Hf1.
    assert (Hq : 0 < a + b) by lra.
    assert (H3 : fThreeStripSharing f
                 && nextValid f d r (signals d r s nstr (t + 1))
                 && (nextSmall f d r (signals d r s nstr (t + 1)) || tl)
                 = false).
    { unfold nextValid. rewrite Hn1, He1, (Rltb_false _ 0) by lra.
      rewrite andb_false_r. reflexivity. }
    split.
    + intros [H1 H2]. apply Rltb_true in H1. apply Rltb_true in H2.
      rewrite H1, H2 in C. discriminate C.
    + intros _. split; [apply mergedEnergy_0 |].
      rewrite Hf1, Hv1'; unfold mergeStrip; cbn [fst snd used eTotal twoLow];
        rewrite (Rltb_true _ _ Hq), H3; cbn [fst snd eTotal];
        [reflexivity | lra].
Qed.

Lemma final_triple d r s nstr t :
  let a := read d r s t in
  let b := read d r s (t + 1) in
  let c := read d r s (t + 2) in
  let etaT := Eta input d r s t in
  let etaN := Eta input d r s (t + 1) in
  fThreeStripSharing f = true ->
  (t + 2 < nstr)%N ->
  IsDead Pack f d r s t = false ->
  IsDead Pack f d r s (t + 1) = false ->
  IsDead Pack f d r s (t + 2) = false ->
  a <> kInvalidMult ->
  b <> kInvalidMult ->
  c <> kInvalidMult ->
  0 <= GetLowCut f d r etaT < a ->
  GetLowCut f d r etaT < b ->
  a <= b \/ GetLowCut f d r etaT <= c ->
  0 <= GetLowCut f d r etaN < c ->
  a < GetHighCut f d r etaT false \/ b < GetHighCut f d r etaT false ->
  c < GetHighCut f d r etaN false
  \/ (a < GetHighCut f d r etaT false /\ b < GetHighCut f d r etaT false) ->
  t = 0%N \/ empty d r s (t - 1) ->
  final d r s nstr t = 0
  /\ final d r s nstr (t + 1) = mergedEnergy f (a + b + c) etaN
  /\ final d r s nstr (t + 2) = 0.
Proof.
  intros a b c etaT etaN H3 Ht Hx Hx1 Hx2 Hv Hv1 Hv2 [Hl0 Hla] Hlb Hpend
    [Hn0 Hlc] Hsmall Hthird Hprev.
  assert (Ht1 : (t + 1 < nstr)%N) by lia.
  assert (Ht2 : (t + 1 + 1 < nstr)%N) by lia.
  assert (E2 : (t + 1 + 1)%N = (t + 2)%N) by lia.
  pose proof (plain_sigMult d r s nstr t Hv) as Hm.
  pose proof (plain_sigEta d r s nstr t) as He.
  pose proof (plain_sigNext d r s nstr t Ht1 Hv1) as Hn.
  pose proof (plain_sigMult d r s nstr (t + 1) Hv1) as Hm1.
  pose proof (plain_sigEta d r s nstr (t + 1)) as He1.
  assert (Hn1 : sigNext (signals d r s nstr (t + 1)) = c).
  { rewrite plain_sigNext; rewrite ?E2; [reflexivity | lia | exact Hv2]. }
  assert (Hnn : sigNextNext (signals d r s nstr t) = c).
  { rewrite sigNextNext_read, Hr, H3. cbv zeta. cbn [andb negb].
    replace (t <? nstr - 2)%N with true by (symmetry; apply N.ltb_lt; lia).
    rewrite (Reqb_false (read d r s (t + 2)) kInvalidMult Hv2).
    reflexivity. }
  fold a in Hm. fold b in Hn, Hm1. fold etaT in He. fold etaN in He1.
  destruct (live_strip d r s nstr t Hx Hv) as [Hd Hs]; [fold a; lra |].
  destruct (live_strip d r s nstr (t + 1) Hx1 Hv1) as [Hd1 Hs1];
    [fold b; lra |].
  destruct (live_strip d r s nstr (t + 2) Hx2 Hv2) as [Hd2 Hs2];
    [fold c; lra |].
  pose proof (before_after_empty d r s nstr t (mkCounts 0 0 0) Hprev) as Hb.
  (* strip t starts a pending sum *)
  assert (Hb1 : exists c1,
            before d r s nstr (t + 1) (mkCounts 0 0 0) =
            (mkMerging false (a + b)
               (thisSmall f d r (signals d r s nstr t)
                && nextSmall f d r (signals d r s nstr t)), c1)
            /\ value d r s nstr t (before d r s nstr t (mkCounts 0 0 0)) = 0).
  { rewrite before_succ. unfold mergingStep, stripValue.
    rewrite Hs, Hd. unfold mergeStrip. rewrite Hb.
    cbn [eTotal used twoLow]. rewrite (Rltb_false 0 (-1)) by lra.
    assert (Hc : thisValid f d r (signals d r s nstr t)
                 && nextValid f d r (signals d r s nstr t)
                 && (thisSmall f d r (signals d r s nstr t)
                     || nextSmall f d r (signals d r s nstr t)) = true).
    { unfold thisValid, nextValid, thisSmall, nextSmall.
      rewrite Hm, Hn, He, (Rltb_true _ _ Hla), (Rltb_true _ _ Hlb).
      destruct Hsmall as [H | H]; rewrite (Rltb_true _ _ H);
        rewrite ?orb_true_r; reflexivity. }
    rewrite Hc, Hm, Hn, Hnn, He.
    assert (Hc2 : Rltb b a && Rltb c (GetLowCut f d r etaT) = false).
    { destruct Hpend as [H | H].
      - rewrite (Rltb_false b a) by lra. reflexivity.
      - rewrite (Rltb_false c _) by lra. apply andb_false_r. }
    rewrite Hc2. cbn [fst snd]. eexists. split.
    - destruct (thisSmall f d r (signals d r s nstr t)
                && nextSmall f d r (signals d r s nstr t)); reflexivity.
    - apply mergedEnergy_0. }
  destruct Hb1 as (c1 & Hb1 & Hvt).
  assert (Htl : nextSmall f d r (signals d r s nstr (t + 1))
                || (thisSmall f d r (signals d r s nstr t)
                    && nextSmall f d r (signals d r s nstr t)) = true).
  { unfold thisSmall, nextSmall. rewrite Hn1, He1, Hm, Hn, He.
    destruct Hthird as [H | [H1 H2]].
    - rewrite (Rltb_true _ _ H). reflexivity.
    - rewrite (Rltb_true _ _ H1), (Rltb_true _ _ H2). apply orb_true_r. }
  (* strip t + 1 completes the triple *)
  assert (Hb2 : exists c2,
            before d r s nstr (t + 2) (mkCounts 0 0 0) =
            (mkMerging true (-1) false, c2)
            /\ value d r s nstr (t + 1)
                 (before d r s nstr (t + 1) (mkCounts 0 0 0)) =
               mergedEnergy f (a + b + c) etaN).
  { rewrite <- E2, before_succ. unfold mergingStep, stripValue.
    rewrite Hs1, Hd1. unfold mergeStrip. rewrite Hb1.
    cbn [fst snd eTotal used twoLow].
    rewrite (Rltb_true 0 (a + b)) by lra.
    assert (Hc : fThreeStripSharing f
                 && nextValid f d r (signals d r s nstr (t + 1))
                 && (nextSmall f d r (signals d r s nstr (t + 1))
                     || (thisSmall f d r (signals d r s nstr t)
                         && nextSmall f d r (signals d r s nstr t))) = true).
    { rewrite H3, Htl. unfold nextValid.
      rewrite Hn1, He1, (Rltb_true _ _ Hlc). reflexivity. }
    rewrite Hc, Hn1, He1. cbn [fst snd]. eexists. split; reflexivity. }
  destruct Hb2 as (c2 & Hb2 & Hvt1).
  split; [| split].
  - unfold stripOutput. rewrite Hs1, andb_false_r. exact Hvt.
  - unfold stripOutput. rewrite E2, Hs2, andb_false_r. exact Hvt1.
  - unfold stripOutput, mergingStep, stripValue.
    rewrite Hs2, Hd2. unfold mergeStrip. rewrite Hb2.
    cbn [fst snd eTotal used twoLow].
    rewrite (Rltb_false 0 (-1)) by lra. cbn [fst snd eTotal].
    rewrite (Rltb_false 0 (-1)) by lra. rewrite andb_false_r. reflexivity.
Qed.

Variable lowFlux : bool.
Variable out0 : AliESDFMD.

Local Abbreviation run :=
  (Filter kInvalidMult kInvalidEta Pack GetEtaFromStrip f input zvtx
          lowFlux out0).

(** X17. The filter has its ring containers and does not recalculate the
    pseudo-rapidity.  Two neighbouring strips of a sector, neither held
    as dead, hold valid signals [a] and [b] (as [SignalInStrip] returns
    them) above the low cut of the first strip, which is not negative,
    as the low cut of the second strip is not; one of the two signals is
    below the high cut of the first strip; the strip before the two is
    empty or invalid in the input, or the first strip starts the sector;
    the strip after the two is empty or invalid in the input, or the
    second strip ends the sector.  Then the two come out as one hit of
    [a + b] when the filter works on angle-corrected signals, and of
    [a + b] with the angle correction applied when it does not: at the
    first strip (with its pseudo-rapidity) when [b < a] and the low cut
    is positive, at the second strip (with its pseudo-rapidity)
    otherwise.  The other strip comes out as zero. *)
Theorem Filter_merges_shared_hit d r s t :
  let a := read d r s t in
  let b := read d r s (t + 1) in
  let etaT := Eta input d r s t in
  let etaN := Eta input d r s (t + 1) in
  ownsRingHistos f ->
  validStrip d r s t = true ->
  (t + 1 < stripsOf r)%N ->
  IsDead Pack f d r s t = false ->
  IsDead Pack f d r s (t + 1) = false ->
  a <> kInvalidMult ->
  b <> kInvalidMult ->
  0 <= GetLowCut f d r etaT < a ->
  GetLowCut f d r etaT < b ->
  0 <= GetLowCut f d r etaN ->
  a < GetHighCut f d r etaT false \/ b < GetHighCut f d r etaT false ->
  t = 0%N \/ empty d r s (t - 1) ->
  (t + 2)%N = stripsOf r \/ empty d r s (t + 2) ->
  exists res,
    run = Some (true, res)
    /\ (b < a /\ 0 < GetLowCut f d r etaT ->
          Multiplicity res d r s t =
          (if fCorrectAngles f then a + b else AngleCorrect (a + b) etaT)
          /\ Multiplicity res d r s (t + 1) = 0)
    /\ (~ (b < a /\ 0 < GetLowCut f d r etaT) ->
          Multiplicity res d r s t = 0
          /\ Multiplicity res d r s (t + 1) =
             (if fCorrectAngles f then a + b
              else AngleCorrect (a + b) etaN)).
Proof.
  intros a b etaT etaN Howns Hvalid Ht Hx Hx1 Hv Hv1 Hla Hlb Hn0 Hsmall
    Hprev Hnn.
  destruct (Filter_run kInvalidMult kInvalidEta Pack GetEtaFromStrip f input
              zvtx lowFlux out0 Howns) as (res & E & Hm & _).
  exists res. split; [exact E |].
  rewrite !Hm, Hvalid, (validStrip_strip d r s t (t + 1) Hvalid Ht).
  rewrite <- !mergedEnergy_cases.
  apply final_pair; assumption.
Qed.

(** X18. The filter has its ring containers, does not recalculate the
    pseudo-rapidity and merges over three strips.  Three neighbouring
    strips of a sector, none held as dead, hold valid signals [a], [b]
    and [c] (as [SignalInStrip] returns them); [a] and [b] are above the
    low cut of the first strip, which is not negative, and [c] is above
    the low cut of the second strip, which is not negative; one of [a]
    and [b] is below the high cut of the first strip; the first two
    strips leave their sum pending ([a <= b], or [c] is not below the low
    cut of the first strip); [c] is below the high cut of the second
    strip, or [a] and [b] are both below the high cut of the first; the
    strip before the three is empty or invalid in the input, or the
    first strip starts the sector.  Then the three come out as one hit at
    the middle strip, of [a + b + c] when the filter works on
    angle-corrected signals and of [a + b + c] with the angle correction
    at the pseudo-rapidity of the middle strip applied when it does not,
    and the outer two strips come out as zero. *)
Theorem Filter_merges_three_strips d r s t :
  let a := read d r s t in
  let b := read d r s (t + 1) in
  let c := read d r s (t + 2) in
  let etaT := Eta input d r s t in
  let etaN := Eta input d r s (t + 1) in
  ownsRingHistos f ->
  validStrip d r s t = true ->
  fThreeStripSharing f = true ->
  (t + 2 < stripsOf r)%N ->
  IsDead Pack f d r s t = false ->
  IsDead Pack f d r s (t + 1) = false ->
  IsDead Pack f d r s (t + 2) = false ->
  a <> kInvalidMult ->
  b <> kInvalidMult ->
  c <> kInvalidMult ->
  0 <= GetLowCut f d r etaT < a ->
  GetLowCut f d r etaT < b ->
  a <= b \/ GetLowCut f d r etaT <= c ->
  0 <= GetLowCut f d r etaN < c ->
  a < GetHighCut f d r etaT false \/ b < GetHighCut f d r etaT false ->
  c < GetHighCut f d r etaN false
  \/ (a < GetHighCut f d r etaT false /\ b < GetHighCut f d r etaT false) ->
  t = 0%N \/ empty d r s (t - 1) ->
  exists res,
    run = Some (true, res)
    /\ Multiplicity res d r s t = 0
    /\ Multiplicity res d r s (t + 1) =
       (if fCorrectAngles f then a + b + c
        else AngleCorrect (a + b + c) etaN)
    /\ Multiplicity res d r s (t + 2) = 0.
Proof.
  intros a b c etaT etaN Howns Hvalid H3 Ht.
  intros Hx Hx1 Hx2 Hv Hv1 Hv2 Hla Hlb Hpend Hlc Hsmall Hthird Hprev.
  destruct (Filter_run kInvalidMult kInvalidEta Pack GetEtaFromStrip f input
              zvtx lowFlux out0 Howns) as (res & E & Hm & _).
  exists res. split; [exact E |].
  rewrite !Hm, Hvalid,
    (validStrip_strip d r s t (t + 1) Hvalid),
    (validStrip_strip d r s t (t + 2) Hvalid) by lia.
  rewrite <- mergedEnergy_cases.
  apply final_triple; assumption.
Qed.

End Shared.

Lemma Filter_merges_shared_hit_witness :
  exists res,
    Filter 1000 1000 stripIndexPack etaFromStripExample
           (exampleFilter true ∅) (exampleESD true [0; 1 / 2; 1 / 4])
           0 false (exampleESD true []) = Some (true, res)
    /\ Multiplicity res 1 "I" 0 1 = 3 / 4
    /\ Multiplicity res 1 "I" 0 (1 + 1) = 0.
Proof.
  pose proof (Filter_merges_shared_hit 1000 1000 stripIndexPack
                etaFromStripExample (exampleFilter true ∅)
                (exampleESD true [0; 1 / 2; 1 / 4]) 0 eq_refl false
                (exampleESD true []) 1 "I" 0 1
                (exampleFilter_owns true ∅) eq_refl) as T.
  cbv zeta in T. rewrite !example_SignalInStrip in T.
  unfold GetLowCut, GetHighCut in T.
  destruct T as (res & E & H & _);
    [first [vm_compute; reflexivity | simpl; lra] .. |].
  exists res. split; [exact E |].
  destruct H as [H1 H2]; [simpl; lra |].
  split; [rewrite H1; simpl; lra | exact H2].
Defined.

Lemma Filter_merges_three_strips_witness :
  exists res,
    Filter 1000 1000 stripIndexPack etaFromStripExample
           (exampleFilter true ∅)
           (exampleESD true [0; 1 / 2; 1 / 2; 1 / 2])
           0 false (exampleESD true []) = Some (true, res)
    /\ Multiplicity res 1 "I" 0 1 = 0
    /\ Multiplicity res 1 "I" 0 (1 + 1) = 3 / 2
    /\ Multiplicity res 1 "I" 0 (1 + 2) = 0.
Proof.
  pose proof (Filter_merges_three_strips 1000 1000 stripIndexPack
                etaFromStripExample (exampleFilter true ∅)
                (exampleESD true [0; 1 / 2; 1 / 2; 1 / 2]) 0 eq_refl false
                (exampleESD true []) 1 "I" 0 1
                (exampleFilter_owns true ∅) eq_refl eq_refl) as T.
  cbv zeta in T. rewrite !example_SignalInStrip in T.
  unfold GetLowCut, GetHighCut in T.
  destruct T as (res & E & H1 & H2 & H3);
    [first [vm_compute; reflexivity | simpl; lra] .. |].
  exists res. split; [exact E |]. split; [exact H1 |].
  split; [rewrite H2; simpl; lra | exact H3].
Defined.
